(** * Vastram laundry backend: carts, accounts, catalogue and orders

    A shallow embedding of the document models ([models/Cart.cjs],
    [models/User.cjs], [models/Service.cjs], [models/Order.cjs]) and of the
    route handlers of [routes/orders.cjs], [routes/services.cjs],
    [routes/users.cjs] and [routes/cart.cjs], followed by the properties of
    the order lifecycle and of cart consistency.

    Conventions.
    - A JavaScript [Number] holding a quantity or an amount of money is an
      integer of [Z]: amounts are whole rupees, on which double precision
      arithmetic is exact below 2^53.
    - A [Date] is its epoch time in milliseconds; a date that [setDate]
      moved by local calendar days is kept as the instant it started from
      and the number of days, since its epoch time depends on the zone of
      the server.
    - A string is the sequence of its characters, each one a code point
      below U+0100, one [ascii] per character.
    - An identifier is an [ObjectId] in the spelling that [toString()]
      gives, 24 hexadecimal digits in lower case; a string of a request is
      cast to an identifier where the code hands it to a query.
    - A collection keyed by a unique field is a [gmap] from that key; the
      service catalogue, whose natural order is visible in listings, and the
      lines of a cart or of an order are lists.
    - A reference to another document is the identifier of that document
      in the store; in a document that was read with [populate] the field
      holds the referenced document, or [null] when there is none.
    - [doc.save()] runs the schema validators first and the [pre('save')]
      hooks after them; a rejected save stores nothing.
    - A handler is a function of the store, and of the instant [now], the
      fresh identifier and the random number that the run draws, to the
      store that it leaves and the response. *)

From Stdlib Require Import Ascii String.
From stdpp Require Import base decidable option numbers list gmap strings sorting pretty.

Open Scope Z_scope.

(** ** Results of fallible calls *)

Inductive error :=
  | ValidationError (messages : list string)
  | DuplicateKey
  | CastError
  | TypeError.

Inductive result (A : Type) :=
  | Ok (a : A)
  | Err (e : error).
Arguments Ok {A} a.
Arguments Err {A} e.

(** The sum of a list of numbers, as the spec words it. *)
Definition total_of (l : list Z) : Z := foldr Z.add 0 l.

(** ** models/Cart.cjs *)

Module Cart.

(** [cartItemSchema] *)
Record Item := {
  service : string;
  quantity : Z;
  price : Z
}.

(** [cartSchema] *)
Record t := {
  user : string;
  items : list Item;
  totalItems : Z;
  totalPrice : Z;
  lastUpdated : Z
}.

(** The validators of [cartItemSchema]: [min] and [max] on [quantity],
    [min] on [price]. *)
Definition validateItem (it : Item) : list string :=
  (if bool_decide (quantity it < 1) then ["Quantity must be at least 1"%string] else [])
  ++ (if bool_decide (50 < quantity it) then ["Quantity cannot exceed 50"%string] else [])
  ++ (if bool_decide (price it < 0) then ["Price cannot be negative"%string] else []).

Definition validate (c : t) : list string :=
  items c ≫= validateItem.

(** [cartSchema.pre('save')]: the totals are recomputed from the lines. *)
Definition pre_save (now : Z) (c : t) : t :=
  {| user := user c;
     items := items c;
     totalItems := foldl (λ total item, total + quantity item) 0 (items c);
     totalPrice := foldl (λ total item, total + price item * quantity item) 0 (items c);
     lastUpdated := now |}.

(** [this.save()]: the stored document, or the validation error. *)
Definition save (now : Z) (c : t) : result t :=
  match validate c with
  | [] => Ok (pre_save now c)
  | msgs => Err (ValidationError msgs)
  end.

Definition with_items (c : t) (l : list Item) : t :=
  {| user := user c; items := l; totalItems := totalItems c;
     totalPrice := totalPrice c; lastUpdated := lastUpdated c |}.

Definition with_quantity (it : Item) (q : Z) : Item :=
  {| service := service it; quantity := q; price := price it |}.

(** How a cart document was read: with [items.service] holding the
    identifiers, as [Cart.findOne] gives it, or after
    [populate('items.service')], as [getOrCreateCart] gives it. Each line of
    a populated document holds the catalogue entry of its identifier, or
    [null] when the catalogue, of which [known] lists the identifiers, has
    none. *)
Inductive Loaded :=
  | Plain
  | Populated (known : list string).

(** [this.items.find(item => item.service.toString() === serviceId.toString())]
    on a plain document, where [item.service.toString()] is the identifier:
    the first line of the service, with its position. *)
Definition find_item (serviceId : string) (l : list Item) : option (nat * Item) :=
  list_find (λ item, service item = serviceId) l.

(** The same [find] on a document however it was read, for an identifier
    [serviceId]. On a populated document [item.service.toString()] is the
    printed form of the catalogue entry, which is no identifier, so no line
    is found; on a line whose service is [null] the call of [toString]
    throws. *)
Definition find (doc : Loaded) (serviceId : string) (l : list Item)
    : result (option (nat * Item)) :=
  match doc with
  | Plain => Ok (find_item serviceId l)
  | Populated known =>
      if bool_decide (Forall (λ item, service item ∈ known) l) then Ok None
      else Err TypeError
  end.

(** The [find] does not throw: no line of the populated document holds
    [null]. *)
Definition readable (doc : Loaded) (c : t) : Prop :=
  match doc with
  | Plain => True
  | Populated known => Forall (λ item, service item ∈ known) (items c)
  end.

(** [cartSchema.methods.addItem], on a document read as [doc]. The new
    line is stored with the identifier. *)
Definition addItem (doc : Loaded) (serviceId : string) (quantity' price' : Z) (now : Z)
    (c : t) : result t :=
  match find doc serviceId (items c) with
  | Err e => Err e
  | Ok (Some (i, existingItem)) =>
      save now (with_items c
        (<[i := with_quantity existingItem (quantity existingItem + quantity')]> (items c)))
  | Ok None =>
      save now (with_items c
        (items c ++ [{| service := serviceId; quantity := quantity'; price := price' |}]))
  end.

(** [cartSchema.methods.updateItemQuantity], on a plain document: the
    routes call it, and the two methods after it, on the document of
    [Cart.findOne]. *)
Definition updateItemQuantity (serviceId : string) (quantity' : Z) (now : Z) (c : t) : result t :=
  match find_item serviceId (items c) with
  | Some (i, item) =>
      if bool_decide (quantity' ≤ 0)
      then save now (with_items c (filter (λ item, service item ≠ serviceId) (items c)))
      else save now (with_items c (<[i := with_quantity item quantity']> (items c)))
  | None => save now c
  end.

(** [cartSchema.methods.removeItem] *)
Definition removeItem (serviceId : string) (now : Z) (c : t) : result t :=
  save now (with_items c (filter (λ item, service item ≠ serviceId) (items c))).

(** [cartSchema.methods.clearCart] *)
Definition clearCart (now : Z) (c : t) : result t :=
  save now (with_items c []).

(** The document [new this({ user: userId, items: [] })] of
    [getOrCreateCart], with the schema defaults, before it is saved. *)
Definition new_cart (userId : string) (now : Z) : t :=
  {| user := userId; items := []; totalItems := 0; totalPrice := 0; lastUpdated := now |}.

(** [cartSchema.statics.getOrCreateCart]: the cart of the user, which the
    caller holds populated, or a new one, saved. *)
Definition getOrCreateCart (userId : string) (now : Z) (carts : gmap string t)
    : result (t * gmap string t) :=
  match carts !! userId with
  | Some cart => Ok (cart, carts)
  | None =>
      match save now (new_cart userId now) with
      | Ok cart => Ok (cart, <[userId := cart]> carts)
      | Err e => Err e
      end
  end.

(** The mutating operations, and the document that the store holds after
    one of them was called on the stored document [c]; [addItem] on the
    document read as [doc]. *)
Inductive op :=
  | AddItem (doc : Loaded) (serviceId : string) (quantity' price' : Z)
  | UpdateItemQuantity (serviceId : string) (quantity' : Z)
  | RemoveItem (serviceId : string)
  | ClearCart.

Definition call (o : op) (now : Z) (c : t) : result t :=
  match o with
  | AddItem doc s q p => addItem doc s q p now c
  | UpdateItemQuantity s q => updateItemQuantity s q now c
  | RemoveItem s => removeItem s now c
  | ClearCart => clearCart now c
  end.

Definition stored_after (o : op) (now : Z) (c : t) : t :=
  match call o now c with
  | Ok c' => c'
  | Err _ => c
  end.

(** The cart documents that the store can hold: created by
    [getOrCreateCart], then changed by the four methods only, [addItem]
    on a document read either way. *)
Inductive stored : t → Prop :=
  | stored_new userId now c :
      save now (new_cart userId now) = Ok c → stored c
  | stored_call o now c :
      stored c → stored (stored_after o now c).

Definition lines_of (serviceId : string) (c : t) : list Item :=
  filter (λ item, service item = serviceId) (items c).

Definition totals_recomputed (c : t) : Prop :=
  totalItems c = total_of (quantity <$> items c)
  ∧ totalPrice c = total_of ((λ item, price item * quantity item) <$> items c).

Definition quantity_in_range (it : Item) : Prop := 1 ≤ quantity it ≤ 50.

(** What the validators of [cartItemSchema] accept. *)
Definition item_valid (it : Item) : Prop :=
  quantity_in_range it ∧ 0 ≤ price it.

(** The quantity that a cart holds of a service. *)
Definition quantity_of (serviceId : string) (c : t) : Z :=
  total_of (quantity <$> lines_of serviceId c).

End Cart.

(** ** Numbers and strings of the request validators *)

(** [Math.round(n / d)] for [d > 0]: the nearest integer, a tie going up. *)
Definition Math_round (n d : Z) : Z := (2 * n + d) `div` (2 * d).

(** [Math.round(subtotal * 0.18)], the 18% GST. *)
Definition gst (subtotal : Z) : Z := Math_round (subtotal * 18) 100.

Module Text.

(** The characters that [/\s/] matches, among those below U+0100: the tab
    to the carriage return, the space and the no-break space. *)
Definition is_whitespace (a : ascii) : bool :=
  let n := nat_of_ascii a in
  bool_decide (9 ≤ n ≤ 13)%nat || bool_decide (n = 32%nat) || bool_decide (n = 160%nat).

Fixpoint ltrim (l : list ascii) : list ascii :=
  match l with
  | a :: r => if is_whitespace a then ltrim r else l
  | [] => []
  end.

(** The sanitizer [trim()]. *)
Definition trim (s : string) : string :=
  string_of_list_ascii (reverse (ltrim (reverse (ltrim (list_ascii_of_string s))))).

(** [isLength({ min, max })], on the number of characters. *)
Definition isLength (min max : nat) (s : string) : bool :=
  bool_decide (min ≤ String.length s ≤ max)%nat.

Definition is_digit (a : ascii) : bool :=
  bool_decide (48 ≤ nat_of_ascii a ≤ 57)%nat.

Definition between (lo hi : ascii) (a : ascii) : bool :=
  bool_decide (nat_of_ascii lo ≤ nat_of_ascii a ≤ nat_of_ascii hi)%nat.

Definition is_hex (a : ascii) : bool :=
  is_digit a || between "a" "f" a || between "A" "F" a.

(** [isHexadecimal()]: [/^(0x|0h)?[0-9A-F]+$/i]. *)
Definition isHexadecimal (s : string) : bool :=
  let digits (l : list ascii) := bool_decide (l ≠ []) && forallb is_hex l in
  match list_ascii_of_string s with
  | zero :: x :: rest =>
      digits (zero :: x :: rest)
      || (bool_decide (zero = "0"%char)
          && bool_decide (x ∈ ["x"; "X"; "h"; "H"]%char) && digits rest)
  | l => digits l
  end.

(** [isMongoId()]: [isHexadecimal(str) && str.length === 24]. *)
Definition isMongoId (s : string) : bool :=
  isHexadecimal s && bool_decide (String.length s = 24%nat).

Definition lower (a : ascii) : ascii :=
  if between "A" "F" a then ascii_of_nat (nat_of_ascii a + 32) else a.

(** The cast of a string to an [ObjectId], where a query takes it for an
    identifier: 24 hexadecimal digits give the identifier, which prints in
    lower case; any other string raises [CastError], here [None]. (The
    strings of 12 characters, which the driver may read as 12 bytes, are
    not considered; [isMongoId] refuses them.) *)
Definition castObjectId (s : string) : option string :=
  if bool_decide (String.length s = 24%nat) && forallb is_hex (list_ascii_of_string s)
  then Some (string_of_list_ascii (lower <$> list_ascii_of_string s))
  else None.

(** [matches(/^([0-1]?[0-9]|2[0-3]):[0-5][0-9]$/)] *)
Definition isPickupTime (s : string) : bool :=
  match list_ascii_of_string s with
  | [h; colon; m1; m2] =>
      is_digit h && bool_decide (colon = ":"%char) && between "0" "5" m1 && is_digit m2
  | [h1; h2; colon; m1; m2] =>
      ((between "0" "1" h1 && is_digit h2)
       || (bool_decide (h1 = "2"%char) && between "0" "3" h2))
      && bool_decide (colon = ":"%char) && between "0" "5" m1 && is_digit m2
  | _ => false
  end.

End Text.

(** ** models/User.cjs *)

Module User.

Inductive Tier := bronze | silver | gold | platinum.
Inductive Role := customer | admin.

#[global] Instance Tier_eq_dec : EqDecision Tier.
Proof. solve_decision. Defined.
#[global] Instance Role_eq_dec : EqDecision Role.
Proof. solve_decision. Defined.

(** [userSchema]; the password is kept as its hash. *)
Record t := {
  _id : string;
  name : string;
  email : string;
  password : string;
  phone : string;
  address : string;
  membershipTier : Tier;
  role : Role;
  isActive : bool;
  totalOrders : Z;
  totalSpent : Z;
  lastLogin : option Z
}.

Definition with_membershipTier (u : t) (tier : Tier) : t :=
  {| _id := _id u; name := name u; email := email u; password := password u;
     phone := phone u; address := address u; membershipTier := tier;
     role := role u; isActive := isActive u; totalOrders := totalOrders u;
     totalSpent := totalSpent u; lastLogin := lastLogin u |}.

(** [userSchema.methods.updateMembershipTier] *)
Definition updateMembershipTier (u : t) : t :=
  if bool_decide (totalSpent u >= 50000) then with_membershipTier u platinum
  else if bool_decide (totalSpent u >= 25000) then with_membershipTier u gold
  else if bool_decide (totalSpent u >= 10000) then with_membershipTier u silver
  else with_membershipTier u bronze.

(** The tier implied by the amount spent, in the words of the spec:
    bronze below 10000, silver below 25000, gold below 50000, platinum
    otherwise. *)
Definition tier_of (spent : Z) : Tier :=
  if bool_decide (spent < 10000) then bronze
  else if bool_decide (spent < 25000) then silver
  else if bool_decide (spent < 50000) then gold
  else platinum.

Definition tier_matches_spend (u : t) : Prop :=
  membershipTier u = tier_of (totalSpent u).

(** [new User({ name, email, password, phone, address })] of the
    registration route, with the schema defaults. *)
Definition register (id name' email' password' phone' address' : string) : t :=
  {| _id := id; name := name'; email := email'; password := password';
     phone := phone'; address := address'; membershipTier := bronze;
     role := customer; isActive := true; totalOrders := 0; totalSpent := 0;
     lastLogin := None |}.

(** [user.lastLogin = new Date()] of the login route. *)
Definition login (now : Z) (u : t) : t :=
  {| _id := _id u; name := name u; email := email u; password := password u;
     phone := phone u; address := address u; membershipTier := membershipTier u;
     role := role u; isActive := isActive u; totalOrders := totalOrders u;
     totalSpent := totalSpent u; lastLogin := Some now |}.

(** The statistics update of the checkout:
    [user.totalOrders += 1; user.totalSpent += total; user.updateMembershipTier()]. *)
Definition record_order (total : Z) (u : t) : t :=
  updateMembershipTier
    {| _id := _id u; name := name u; email := email u; password := password u;
       phone := phone u; address := address u; membershipTier := membershipTier u;
       role := role u; isActive := isActive u; totalOrders := totalOrders u + 1;
       totalSpent := totalSpent u + total; lastLogin := lastLogin u |}.

(** [PUT /api/users/profile]: the fields given and not empty are replaced. *)
Definition update_profile (name' phone' address' : option string) (u : t) : t :=
  let pick (new : option string) (old : string) :=
    match new with
    | Some v => if bool_decide (v = EmptyString) then old else v
    | None => old
    end in
  {| _id := _id u; name := pick name' (name u); email := email u;
     password := password u; phone := pick phone' (phone u);
     address := pick address' (address u); membershipTier := membershipTier u;
     role := role u; isActive := isActive u; totalOrders := totalOrders u;
     totalSpent := totalSpent u; lastLogin := lastLogin u |}.

(** [PUT /api/users/:id/status]: [{ isActive }]. *)
Definition set_isActive (b : bool) (u : t) : t :=
  {| _id := _id u; name := name u; email := email u; password := password u;
     phone := phone u; address := address u; membershipTier := membershipTier u;
     role := role u; isActive := b; totalOrders := totalOrders u;
     totalSpent := totalSpent u; lastLogin := lastLogin u |}.

End User.

(** ** models/Service.cjs *)

Module Service.

Inductive Category := shirts | suits | traditional | casual | home_essentials.

#[global] Instance Category_eq_dec : EqDecision Category.
Proof. solve_decision. Defined.

(** The value of the enum, as stored and as sorted on. *)
Definition category_name (c : Category) : string :=
  match c with
  | shirts => "shirts"
  | suits => "suits"
  | traditional => "traditional"
  | casual => "casual"
  | home_essentials => "home-essentials"
  end.

(** [serviceSchema] *)
Record t := {
  _id : string;
  name : string;
  description : string;
  price : Z;
  category : Category;
  processingTime : string;
  isActive : bool;
  isPopular : bool;
  tags : list string;
  minQuantity : Z;
  maxQuantity : Z
}.

#[global] Instance service_eq_dec : EqDecision t.
Proof. solve_decision. Defined.

Definition with_isActive (s : t) (b : bool) : t :=
  {| _id := _id s; name := name s; description := description s; price := price s;
     category := category s; processingTime := processingTime s; isActive := b;
     isPopular := isPopular s; tags := tags s; minQuantity := minQuantity s;
     maxQuantity := maxQuantity s |}.

(** One group of the aggregation of [GET /api/services/categories]. *)
Record Summary := {
  sum_id : string;
  sum_name : string;
  sum_count : Z;
  sum_min : Z;
  sum_max : Z;
  sum_average : Z
}.

(** [Service.findOne({ _id: id, isActive: true })] for an identifier. *)
Definition findOne_active (catalog : list t) (id : string) : option t :=
  snd <$> list_find (λ s, _id s = id ∧ isActive s = true) catalog.

(** The same query for a string of a request, which it casts first. *)
Definition findOne (catalog : list t) (id : string) : result (option t) :=
  match Text.castObjectId id with
  | Some oid => Ok (findOne_active catalog oid)
  | None => Err CastError
  end.

(** The look-up by [_id] alone, as [populate('items.service', ...)] and
    [findById] do it. *)
Definition findById (catalog : list t) (id : string) : option t :=
  snd <$> list_find (λ s, _id s = id) catalog.

(** No active entry of the catalogue has the identifier: the service is
    unknown, or deactivated. *)
Definition unavailable (catalog : list t) (id : string) : Prop :=
  ∀ s, s ∈ catalog → _id s = id → isActive s = false.

(** [Service.findByIdAndUpdate(id, { isActive: false }, { new: true })]:
    the catalogue after the update, and the updated entry. *)
Definition deactivate (catalog : list t) (id : string) : list t * option t :=
  match list_find (λ s, _id s = id) catalog with
  | Some (i, s) => (<[i := with_isActive s false]> catalog, Some (with_isActive s false))
  | None => (catalog, None)
  end.

End Service.

(** ** models/Order.cjs *)

Module Order.

Inductive Status :=
  | pending | confirmed | picked_up | in_progress
  | ready | out_for_delivery | delivered | cancelled.

#[global] Instance Status_eq_dec : EqDecision Status.
Proof. solve_decision. Defined.

(** [orderItemSchema] *)
Record Item := {
  service : string;
  serviceName : string;
  quantity : Z;
  price : Z;
  subtotal : Z
}.

Record TrackingUpdate := {
  tu_status : Status;
  tu_message : string;
  tu_timestamp : Z
}.

(** A [Date] that [setDate(getDate() + days)] moved: [days] local calendar
    days after the instant [since], in the zone of the server. *)
Record Moved := {
  since : Z;
  days : Z
}.

(** [orderSchema]; a [Date] that does not denote an instant (an invalid
    date) is [None]. *)
Record t := {
  orderNumber : string;
  customer : string;
  items : list Item;
  order_subtotal : Z;
  tax : Z;
  total : Z;
  pickupAddress : string;
  pickupDate : option Z;
  pickupTime : string;
  deliveryAddress : string;
  estimatedDelivery : option Moved;
  actualDelivery : option Z;
  status : Status;
  specialInstructions : option string;
  trackingUpdates : list TrackingUpdate;
  rating : option Z;
  review : option string
}.

Definition check (failed : Prop) `{!Decision failed} (message : string) : list string :=
  if bool_decide failed then [message] else [].

Definition too_long (max : nat) (s : option string) : Prop :=
  match s with Some v => (max < String.length v)%nat | None => False end.

#[global] Instance too_long_dec max s : Decision (too_long max s).
Proof. destruct s; simpl; apply _. Defined.

Definition below (min : Z) (x : option Z) : Prop :=
  match x with Some v => v < min | None => False end.

Definition above (max : Z) (x : option Z) : Prop :=
  match x with Some v => max < v | None => False end.

#[global] Instance below_dec min x : Decision (below min x).
Proof. destruct x; simpl; apply _. Defined.

#[global] Instance above_dec max x : Decision (above max x).
Proof. destruct x; simpl; apply _. Defined.

(** The validators of [orderItemSchema]. *)
Definition validateItem (it : Item) : list string :=
  check (serviceName it = EmptyString) "Path `serviceName` is required."
  ++ check (quantity it < 1) "Quantity must be at least 1"
  ++ check (price it < 0) "Price cannot be negative"
  ++ check (subtotal it < 0) "Subtotal cannot be negative".

(** The validators of [orderSchema]. *)
Definition validate (o : t) : list string :=
  (items o ≫= validateItem)
  ++ check (order_subtotal o < 0) "Subtotal cannot be negative"
  ++ check (tax o < 0) "Tax cannot be negative"
  ++ check (total o < 0) "Total cannot be negative"
  ++ check (pickupAddress o = EmptyString) "Path `pickupAddress` is required."
  ++ check (too_long 300 (Some (pickupAddress o)))
       "Pickup address cannot exceed 300 characters"
  ++ check (pickupDate o = None) "Path `pickupDate` is required."
  ++ check (pickupTime o = EmptyString) "Path `pickupTime` is required."
  ++ check (deliveryAddress o = EmptyString) "Path `deliveryAddress` is required."
  ++ check (too_long 300 (Some (deliveryAddress o)))
       "Delivery address cannot exceed 300 characters"
  ++ check (too_long 500 (specialInstructions o))
       "Special instructions cannot exceed 500 characters"
  ++ check (below 1 (rating o))
       "Path `rating` is less than minimum allowed value (1)."
  ++ check (above 5 (rating o))
       "Path `rating` is more than maximum allowed value (5)."
  ++ check (too_long 500 (review o)) "Review cannot exceed 500 characters".

Definition with_orderNumber (o : t) (n : string) : t :=
  {| orderNumber := n; customer := customer o; items := items o;
     order_subtotal := order_subtotal o; tax := tax o; total := total o;
     pickupAddress := pickupAddress o; pickupDate := pickupDate o;
     pickupTime := pickupTime o; deliveryAddress := deliveryAddress o;
     estimatedDelivery := estimatedDelivery o; actualDelivery := actualDelivery o;
     status := status o; specialInstructions := specialInstructions o;
     trackingUpdates := trackingUpdates o; rating := rating o; review := review o |}.

Definition with_estimatedDelivery (o : t) (d : option Moved) : t :=
  {| orderNumber := orderNumber o; customer := customer o;
     items := items o; order_subtotal := order_subtotal o; tax := tax o;
     total := total o; pickupAddress := pickupAddress o; pickupDate := pickupDate o;
     pickupTime := pickupTime o; deliveryAddress := deliveryAddress o;
     estimatedDelivery := d; actualDelivery := actualDelivery o;
     status := status o; specialInstructions := specialInstructions o;
     trackingUpdates := trackingUpdates o; rating := rating o; review := review o |}.

Definition with_actualDelivery (o : t) (d : option Z) : t :=
  {| orderNumber := orderNumber o; customer := customer o;
     items := items o; order_subtotal := order_subtotal o; tax := tax o;
     total := total o; pickupAddress := pickupAddress o; pickupDate := pickupDate o;
     pickupTime := pickupTime o; deliveryAddress := deliveryAddress o;
     estimatedDelivery := estimatedDelivery o; actualDelivery := d;
     status := status o; specialInstructions := specialInstructions o;
     trackingUpdates := trackingUpdates o; rating := rating o; review := review o |}.

Definition with_tracking (o : t) (updates : list TrackingUpdate) (st : Status) : t :=
  {| orderNumber := orderNumber o; customer := customer o;
     items := items o; order_subtotal := order_subtotal o; tax := tax o;
     total := total o; pickupAddress := pickupAddress o; pickupDate := pickupDate o;
     pickupTime := pickupTime o; deliveryAddress := deliveryAddress o;
     estimatedDelivery := estimatedDelivery o; actualDelivery := actualDelivery o;
     status := st; specialInstructions := specialInstructions o;
     trackingUpdates := updates; rating := rating o; review := review o |}.

Definition with_review (o : t) (rating' : option Z) (review' : option string) : t :=
  {| orderNumber := orderNumber o; customer := customer o;
     items := items o; order_subtotal := order_subtotal o; tax := tax o;
     total := total o; pickupAddress := pickupAddress o; pickupDate := pickupDate o;
     pickupTime := pickupTime o; deliveryAddress := deliveryAddress o;
     estimatedDelivery := estimatedDelivery o; actualDelivery := actualDelivery o;
     status := status o; specialInstructions := specialInstructions o;
     trackingUpdates := trackingUpdates o; rating := rating'; review := review' |}.

(** [.toString().padStart(3, '0')] *)
Definition padStart3 (s : string) : string :=
  match String.length s with
  | 0%nat => "000" +:+ s
  | 1%nat => "00" +:+ s
  | 2%nat => "0" +:+ s
  | _ => s
  end.

(** [`VAST-${timestamp}-${randomNum}`], [rnd] being the value of
    [Math.floor(Math.random() * 1000)]. *)
Definition generate_orderNumber (now rnd : Z) : string :=
  "VAST-" +:+ pretty now +:+ "-" +:+ padStart3 (pretty rnd).

(** The two [orderSchema.pre('save')] hooks: the order number when it is
    missing; the estimated delivery, the pickup date moved by two days. *)
Definition pre_save (now rnd : Z) (o : t) : t :=
  let o :=
    if bool_decide (orderNumber o = EmptyString)
    then with_orderNumber o (generate_orderNumber now rnd) else o in
  match estimatedDelivery o, pickupDate o with
  | None, Some d => with_estimatedDelivery o (Some {| since := d; days := 2 |})
  | _, _ => o
  end.

(** [this.save()] of the document whose [_id] is [id], against the
    collection: validation, the hooks, then the write, which the unique
    indexes on [_id] and [orderNumber] can refuse. [isNew] tells an
    insertion from an update. *)
Definition save (isNew : bool) (now rnd : Z) (id : string) (o : t)
    (orders : gmap string t) : result (t * gmap string t) :=
  match validate o with
  | [] =>
      let o := pre_save now rnd o in
      if bool_decide (isNew = true ∧ is_Some (orders !! id)) then Err DuplicateKey
      else if bool_decide (map_Exists (λ id' other,
                 id' ≠ id ∧ orderNumber other = orderNumber o) orders)
      then Err DuplicateKey
      else Ok (o, <[id := o]> orders)
  | msgs => Err (ValidationError msgs)
  end.

(** [orderSchema.methods.addTrackingUpdate] *)
Definition addTrackingUpdate (status' : Status) (message : string) (now rnd : Z)
    (id : string) (o : t) (orders : gmap string t) : result (t * gmap string t) :=
  save false now rnd id
    (with_tracking o
       (trackingUpdates o
        ++ [{| tu_status := status'; tu_message := message; tu_timestamp := now |}])
       status')
    orders.

End Order.

(** ** The store and the responses *)

(** The four collections. A cart is keyed by its [user], on which the
    schema puts a unique index. *)
Record Db := {
  users : gmap string User.t;
  services : list Service.t;
  orders : gmap string Order.t;
  carts : gmap string Cart.t
}.

Definition with_users (db : Db) (m : gmap string User.t) : Db :=
  {| users := m; services := services db; orders := orders db; carts := carts db |}.
Definition with_services (db : Db) (l : list Service.t) : Db :=
  {| users := users db; services := l; orders := orders db; carts := carts db |}.
Definition with_orders (db : Db) (m : gmap string Order.t) : Db :=
  {| users := users db; services := services db; orders := m; carts := carts db |}.
Definition with_carts (db : Db) (m : gmap string Cart.t) : Db :=
  {| users := users db; services := services db; orders := orders db; carts := m |}.

(** [findOne({ _id: id, ... })] on a collection keyed by [_id]: the document
    of that identifier, when it meets the other conditions of the query. *)
Definition findOne {A} (P : A → Prop) `{!∀ x, Decision (P x)}
    (collection : gmap string A) (id : string) : option A :=
  match collection !! id with
  | Some doc => if bool_decide (P doc) then Some doc else None
  | None => None
  end.

(** The [data] or [errors] member of the envelope. *)
Inductive Data :=
  | NoData
  | Errors (errors : list string)
  | OrderData (order : Order.t) (customer : option User.t)
  | ReviewData (rating : option Z) (review : option string)
  | ServiceData (service : Service.t)
  | ServicesData (services : list Service.t) (currentPage totalPages totalServices : Z)
  | CategoriesData (categories : list Service.Summary)
  | OrderDetails (order : Order.t) (services : list (option Service.t))
  | UserData (user : User.t).

(** [res.status(code).json({ status, message, ... })] *)
Record Response := {
  code : Z;
  message : string;
  data : Data
}.

Definition respond (code' : Z) (message' : string) (data' : Data) : Response :=
  {| code := code'; message := message'; data := data' |}.

(** Modelled from the spec: [requireAdmin] of [middleware/auth.cjs], which
    is not part of the sources at hand; "admin-only routes additionally
    require role == admin" and authorization errors answer 403. *)
Definition requireAdmin (user : User.t) : option Response :=
  if bool_decide (User.role user = User.admin) then None
  else Some (respond 403 "Access denied. Admin privileges required." NoData).

(** ** routes/orders.cjs *)

Module Orders.

(** One entry of [req.body.items]. *)
Record RequestItem := {
  service : string;
  quantity : Z
}.

(** [req.body] of [POST /api/orders]. Of the string [pickupDate] the
    request keeps whether [isISO8601()] accepts it, and the instant of
    [new Date(pickupDate)], [None] for an invalid date: the validator
    accepts week dates and ordinal dates, of which [Date] makes nothing. *)
Record Request := {
  items : list RequestItem;
  pickupAddress : string;
  pickupDateISO8601 : bool;
  pickupDate : option Z;
  pickupTime : string;
  deliveryAddress : string;
  specialInstructions : option string
}.

Definition fails (ok : bool) (message : string) : list string :=
  if ok then [] else [message].

(** The validation chain of [POST /api/orders]. *)
Definition validationResult (req : Request) : list string :=
  fails (bool_decide (1 ≤ length (items req))%nat) "Order must contain at least one item"
  ++ (items req ≫= λ item, fails (Text.isMongoId (service item)) "Invalid service ID")
  ++ (items req ≫= λ item,
        fails (bool_decide (1 ≤ quantity item ≤ 50)) "Quantity must be between 1 and 50")
  ++ fails (Text.isLength 10 300 (Text.trim (pickupAddress req)))
       "Pickup address must be between 10 and 300 characters"
  ++ fails (pickupDateISO8601 req) "Invalid pickup date"
  ++ fails (Text.isPickupTime (pickupTime req)) "Invalid pickup time format"
  ++ fails (Text.isLength 10 300 (Text.trim (deliveryAddress req)))
       "Delivery address must be between 10 and 300 characters"
  ++ match specialInstructions req with
     | Some v => fails (Text.isLength 0 500 v)
                   "Special instructions cannot exceed 500 characters"
     | None => []
     end.

(** [pickupDateTime <= new Date()]; no comparison holds of an invalid
    date. *)
Definition not_after (d : option Z) (now : Z) : Prop :=
  match d with Some t => t ≤ now | None => False end.

#[global] Instance not_after_dec d now : Decision (not_after d now).
Proof. destruct d; simpl; apply _. Defined.

(** The loop over [items]: it stops at the first service that is not in
    the active catalogue and names it, or ends with the lines of the order
    and their subtotal; the query throws on a string that does not cast to
    an identifier. *)
Fixpoint order_lines (catalog : list Service.t) (items : list RequestItem)
    (orderItems : list Order.Item) (subtotal : Z)
    : result (string + list Order.Item * Z) :=
  match items with
  | [] => Ok (inr (orderItems, subtotal))
  | item :: rest =>
      match Service.findOne catalog (service item) with
      | Err e => Err e
      | Ok None => Ok (inl (service item))
      | Ok (Some service') =>
          let itemSubtotal := Service.price service' * quantity item in
          order_lines catalog rest
            (orderItems ++ [{| Order.service := Service._id service';
                               Order.serviceName := Service.name service';
                               Order.quantity := quantity item;
                               Order.price := Service.price service';
                               Order.subtotal := itemSubtotal |}])
            (subtotal + itemSubtotal)
      end
  end.

(** [new Order({ customer, items, subtotal, tax, total, ... })] with the
    schema defaults. An invalid [pickupDate] does not cast to a date, and
    the validation of [save] refuses the document as it does one without
    the date. *)
Definition new_order (now rnd : Z) (user : User.t) (req : Request)
    (orderItems : list Order.Item) (subtotal tax total : Z) : Order.t :=
  {| Order.orderNumber := Order.generate_orderNumber now rnd;
     Order.customer := User._id user;
     Order.items := orderItems;
     Order.order_subtotal := subtotal;
     Order.tax := tax;
     Order.total := total;
     Order.pickupAddress := Text.trim (pickupAddress req);
     Order.pickupDate := pickupDate req;
     Order.pickupTime := pickupTime req;
     Order.deliveryAddress := Text.trim (deliveryAddress req);
     Order.estimatedDelivery := None;
     Order.actualDelivery := None;
     Order.status := Order.pending;
     Order.specialInstructions := specialInstructions req;
     Order.trackingUpdates := [];
     Order.rating := None;
     Order.review := None |}.

Definition failed_to_place : Response :=
  respond 500 "Failed to place Vastram order. Please try again." NoData.

(** [POST /api/orders] for the authenticated [user]; [oid] is the [_id]
    that the driver generates for the new document. Whatever a call
    throws, the [catch] answers 500, and what was written before stays
    written. [user.save()] validates the paths that it changed, the two
    counters and the tier, for which [userSchema] has no validator that a
    number or one of the four tiers fails; the connection to the store is
    taken not to fail. *)
Definition post_orders (now : Z) (oid : string) (rnd : Z) (user : User.t)
    (req : Request) (db : Db) : Db * Response :=
  match validationResult req with
  | (_ :: _) as errors => (db, respond 400 "Validation failed" (Errors errors))
  | [] =>
  let pickupDateTime := pickupDate req in
  if bool_decide (not_after pickupDateTime now)
  then (db, respond 400 "Pickup date must be in the future" NoData)
  else
  match order_lines (services db) (items req) [] 0 with
  | Err _ => (db, failed_to_place)
  | Ok (inl missing) => (db, respond 400 ("Service not found: " +:+ missing) NoData)
  | Ok (inr (orderItems, subtotal)) =>
  let tax := gst subtotal in
  let total := subtotal + tax in
  let order := new_order now rnd user req orderItems subtotal tax total in
  match Order.save true now rnd oid order (orders db) with
  | Err _ => (db, failed_to_place)
  | Ok (order, orders1) =>
  let db := with_orders db orders1 in
  match Order.addTrackingUpdate Order.pending
          "Order placed successfully. Waiting for confirmation." now rnd oid order orders1 with
  | Err _ => (db, failed_to_place)
  | Ok (order, orders2) =>
  let db := with_orders db orders2 in
  match users db !! User._id user with
  | None => (db, failed_to_place)
  | Some account =>
  let db := with_users db (<[User._id user := User.record_order total account]> (users db)) in
  let created :=
    respond 201
      "Vastram order placed successfully! We will contact you soon for pickup confirmation."
      (OrderData order (users db !! Order.customer order)) in
  match carts db !! User._id user with
  | None => (db, created)
  | Some cart =>
      match Cart.clearCart now cart with
      | Err _ => (db, failed_to_place)
      | Ok cart => (with_carts db (<[User._id user := cart]> (carts db)), created)
      end
  end end end end end end.

(** One item of a request against the catalogue: the string casts to the
    identifier of an active entry, to an identifier without one, or not at
    all. *)
Definition uncastable (item : RequestItem) : Prop :=
  Text.castObjectId (service item) = None.

Definition unavailable (catalog : list Service.t) (item : RequestItem) : Prop :=
  ∃ oid, Text.castObjectId (service item) = Some oid ∧ Service.unavailable catalog oid.

Definition parse_status (s : string) : option Order.Status :=
  if bool_decide (s = "pending"%string) then Some Order.pending
  else if bool_decide (s = "confirmed"%string) then Some Order.confirmed
  else if bool_decide (s = "picked-up"%string) then Some Order.picked_up
  else if bool_decide (s = "in-progress"%string) then Some Order.in_progress
  else if bool_decide (s = "ready"%string) then Some Order.ready
  else if bool_decide (s = "out-for-delivery"%string) then Some Order.out_for_delivery
  else if bool_decide (s = "delivered"%string) then Some Order.delivered
  else if bool_decide (s = "cancelled"%string) then Some Order.cancelled
  else None.

(** [statusMessages[status] || `Order status updated to ${status}`] *)
Definition statusMessage (status_name : string) (st : Order.Status) : string :=
  match st with
  | Order.confirmed => "Order confirmed. Preparing for pickup."
  | Order.picked_up => "Items picked up successfully."
  | Order.in_progress => "Your items are being processed at Vastram facility."
  | Order.ready => "Your order is ready for delivery."
  | Order.out_for_delivery => "Your order is out for delivery."
  | Order.delivered => "Order delivered successfully. Thank you for choosing Vastram!"
  | Order.cancelled => "Order has been cancelled."
  | Order.pending => "Order status updated to " +:+ status_name
  end.

(** [message || statusMessages[status] || ...]: an empty message is falsy. *)
Definition trackingMessage (message' : option string) (status_name : string)
    (st : Order.Status) : string :=
  match message' with
  | Some m => if bool_decide (m = EmptyString) then statusMessage status_name st else m
  | None => statusMessage status_name st
  end.

(** [PUT /api/orders/:id/status] *)
Definition put_status (now rnd : Z) (user : User.t) (id : string)
    (status_name : string) (message' : option string) (db : Db) : Db * Response :=
  match requireAdmin user with
  | Some denied => (db, denied)
  | None =>
  let errors :=
    fails (bool_decide (is_Some (parse_status status_name))) "Invalid value"
    ++ match message' with
       | Some m => fails (Text.isLength 0 200 m) "Message cannot exceed 200 characters"
       | None => []
       end in
  match errors, parse_status status_name with
  | _ :: _, _ | _, None => (db, respond 400 "Validation failed" (Errors errors))
  | [], Some status' =>
  match orders db !! id with
  | None => (db, respond 404 "Vastram order not found" NoData)
  | Some order =>
  let failed := respond 500 "Failed to update Vastram order status" NoData in
  match Order.addTrackingUpdate status'
          (trackingMessage message' status_name status') now rnd id order (orders db) with
  | Err _ => (db, failed)
  | Ok (order, orders1) =>
  let db := with_orders db orders1 in
  let updated order :=
    respond 200 "Vastram order status updated successfully"
      (OrderData order (users db !! Order.customer order)) in
  if bool_decide (status' = Order.delivered)
  then match Order.save false now rnd id
               (Order.with_actualDelivery order (Some now)) orders1 with
       | Err _ => (db, failed)
       | Ok (order, orders2) => (with_orders db orders2, updated order)
       end
  else (db, updated order)
  end end end end.

(** [if (order.rating)]: a number is truthy unless it is 0. *)
Definition truthy (x : option Z) : Prop :=
  match x with Some v => v ≠ 0 | None => False end.

#[global] Instance truthy_dec x : Decision (truthy x).
Proof. destruct x; simpl; apply _. Defined.

(** [POST /api/orders/:id/review] *)
Definition post_review (now rnd : Z) (user : User.t) (id : string)
    (rating' : Z) (review' : option string) (db : Db) : Db * Response :=
  let errors :=
    fails (bool_decide (1 ≤ rating' ≤ 5)) "Rating must be between 1 and 5"
    ++ match review' with
       | Some v => fails (Text.isLength 0 500 v) "Review cannot exceed 500 characters"
       | None => []
       end in
  match errors with
  | _ :: _ => (db, respond 400 "Validation failed" (Errors errors))
  | [] =>
  match findOne (λ order, Order.customer order = User._id user
                          ∧ Order.status order = Order.delivered) (orders db) id with
  | None => (db, respond 404 "Order not found or not eligible for review" NoData)
  | Some order =>
  if bool_decide (truthy (Order.rating order))
  then (db, respond 400 "Order has already been reviewed" NoData)
  else
  match Order.save false now rnd id
          (Order.with_review order (Some rating') review') (orders db) with
  | Err _ => (db, respond 500 "Failed to add review" NoData)
  | Ok (order, orders1) =>
      (with_orders db orders1,
       respond 200
         "Thank you for your review! Your feedback helps us improve Vastram services."
         (ReviewData (Order.rating order) (Order.review order)))
  end end end.

(** [['pending', 'confirmed'].includes(order.status)] *)
Definition cancellable (st : Order.Status) : bool :=
  bool_decide (st ∈ [Order.pending; Order.confirmed]).

(** [DELETE /api/orders/:id] *)
Definition delete_order (now rnd : Z) (user : User.t) (id : string) (db : Db)
    : Db * Response :=
  match findOne (λ order, User.role user ≠ User.admin →
                          Order.customer order = User._id user) (orders db) id with
  | None => (db, respond 404 "Vastram order not found" NoData)
  | Some order =>
  if negb (cancellable (Order.status order))
  then (db, respond 400
              "Order cannot be cancelled at this stage. Please contact Vastram support."
              NoData)
  else
  match Order.addTrackingUpdate Order.cancelled "Order cancelled by customer request."
          now rnd id order (orders db) with
  | Err _ => (db, respond 500 "Failed to cancel Vastram order" NoData)
  | Ok (_, orders1) =>
      (with_orders db orders1, respond 200 "Vastram order cancelled successfully" NoData)
  end end.

(** [populate('items.service', ...)]: each line's service, looked up by its
    [_id] in the catalogue; [null] when the catalogue has no such entry. *)
Definition populate_services (catalog : list Service.t) (order : Order.t)
    : list (option Service.t) :=
  (λ line, Service.findById catalog (Order.service line)) <$> Order.items order.

(** [GET /api/orders/:id] *)
Definition get_order (user : User.t) (id : string) (db : Db) : Response :=
  match findOne (λ order, User.role user ≠ User.admin →
                          Order.customer order = User._id user) (orders db) id with
  | None => respond 404 "Vastram order not found" NoData
  | Some order =>
      respond 200 "Vastram order details retrieved successfully"
        (OrderDetails order (populate_services (services db) order))
  end.

(** The requests that write to the orders of the store. *)
Inductive step : Db → Db → Prop :=
  | step_checkout now oid rnd user req db :
      step db (post_orders now oid rnd user req db).1
  | step_status now rnd user id status_name message' db :
      step db (put_status now rnd user id status_name message' db).1
  | step_review now rnd user id rating' review' db :
      step db (post_review now rnd user id rating' review' db).1
  | step_cancel now rnd user id db :
      step db (delete_order now rnd user id db).1.

(** The order of the identifier carries that rating and that review. *)
Definition reviewed_as (r : option Z) (v : option string) (db : Db) (id : string) : Prop :=
  ∃ order, orders db !! id = Some order
           ∧ Order.rating order = r ∧ Order.review order = v.

(** Every stored order passed the validators of its schema. *)
Definition orders_valid (db : Db) : Prop :=
  map_Forall (λ _ order, Order.validate order = []) (orders db).

(** The price of a line, as the checkout computes it from the request and
    the catalogue. *)
Definition priced (catalog : list Service.t) (item : RequestItem) (line : Order.Item)
    : Prop :=
  ∃ service', Service.findOne catalog (service item) = Ok (Some service')
    ∧ Some (Order.service line) = Text.castObjectId (service item)
    ∧ Order.serviceName line = Service.name service'
    ∧ Order.quantity line = quantity item
    ∧ Order.price line = Service.price service'
    ∧ Order.subtotal line = Service.price service' * quantity item.

End Orders.

(** ** routes/services.cjs *)

Module Services.

(** The [$text] index of the collection, which the store provides: whether
    an entry matches a search, and its [textScore]. *)
Record TextIndex := {
  matches : string → Service.t → bool;
  textScore : string → Service.t → Z
}.

(** [req.query] of [GET /api/services]. A price is the number that the
    string denotes; [page] and [limit] are the values of [parseInt],
    [None] for [NaN]. *)
Record Query := {
  category : option string;
  minPrice : option Z;
  maxPrice : option Z;
  search : option string;
  popular : option string;
  page : option Z;
  limit : option Z
}.

Definition parse_category (s : string) : option Service.Category :=
  if bool_decide (s = "shirts"%string) then Some Service.shirts
  else if bool_decide (s = "suits"%string) then Some Service.suits
  else if bool_decide (s = "traditional"%string) then Some Service.traditional
  else if bool_decide (s = "casual"%string) then Some Service.casual
  else if bool_decide (s = "home-essentials"%string) then Some Service.home_essentials
  else None.

(** [isBoolean()] *)
Definition isBoolean (s : string) : bool :=
  bool_decide (s ∈ ["true"; "false"; "1"; "0"]%string).

(** The validation chain of [GET /api/services]. *)
Definition validationResult (q : Query) : list string :=
  match category q with
  | Some c => Orders.fails (bool_decide (is_Some (parse_category c))) "Invalid value"
  | None => []
  end
  ++ match search q with
     | Some v => Orders.fails (Text.isLength 1 100 v) "Invalid value"
     | None => []
     end
  ++ match popular q with
     | Some v => Orders.fails (isBoolean v) "Invalid value"
     | None => []
     end.

(** [parseInt(...) || fallback] *)
Definition or_default (x : option Z) (fallback : Z) : Z :=
  match x with
  | Some v => if bool_decide (v = 0) then fallback else v
  | None => fallback
  end.

(** The filter [{ isActive: true, category, price: { $gte, $lte }, isPopular }]
    that the handler builds. *)
Definition selected (q : Query) (s : Service.t) : Prop :=
  Service.isActive s = true
  ∧ match category q with
    | Some c => parse_category c = Some (Service.category s)
    | None => True
    end
  ∧ match minPrice q with Some v => v ≤ Service.price s | None => True end
  ∧ match maxPrice q with Some v => Service.price s ≤ v | None => True end
  ∧ (popular q = Some "true"%string → Service.isPopular s = true).

#[global] Instance selected_dec q s : Decision (selected q s).
Proof. unfold selected. repeat case_match; apply _. Defined.

(** [sort({ category: 1, price: 1 })] *)
Definition by_category_price (a b : Service.t) : Prop :=
  if decide (Service.category a = Service.category b)
  then Service.price a ≤ Service.price b
  else String.le (Service.category_name (Service.category a))
                 (Service.category_name (Service.category b)).

#[global] Instance by_category_price_dec : RelDecision by_category_price.
Proof. intros a b. unfold by_category_price. case_match; apply _. Defined.

(** [sort({ score: { $meta: 'textScore' }, price: 1 })] *)
Definition by_score_price (index : TextIndex) (term : string) (a b : Service.t) : Prop :=
  if decide (textScore index term a = textScore index term b)
  then Service.price a ≤ Service.price b
  else textScore index term b ≤ textScore index term a.

#[global] Instance by_score_price_dec index term : RelDecision (by_score_price index term).
Proof. intros a b. unfold by_score_price. case_match; apply _. Defined.

(** [Math.ceil(total / limit)] *)
Definition Math_ceil (total limit : Z) : Z := - ((- total) `div` limit).

(** The documents that the query finds, in the order of the sort. *)
Definition found (index : TextIndex) (q : Query) (catalog : list Service.t)
    : list Service.t :=
  match search q with
  | Some term =>
      if bool_decide (term = EmptyString)
      then merge_sort by_category_price (filter (selected q) catalog)
      else merge_sort (by_score_price index term)
             (filter (λ s, selected q s ∧ matches index term s = true) catalog)
  | None => merge_sort by_category_price (filter (selected q) catalog)
  end.

(** [GET /api/services]. The store refuses a negative [skip], and takes a
    negative [limit] for its absolute value. *)
Definition get_services (index : TextIndex) (q : Query) (db : Db) : Response :=
  match validationResult q with
  | (_ :: _) as errors => respond 400 "Invalid query parameters" (Errors errors)
  | [] =>
      let page' := or_default (page q) 1 in
      let limit' := or_default (limit q) 20 in
      let skip := (page' - 1) * limit' in
      if bool_decide (skip < 0)
      then respond 500 "Failed to fetch Vastram services" NoData
      else
        let all := found index q (services db) in
        let total := Z.of_nat (length all) in
        respond 200 "Vastram services retrieved successfully"
          (ServicesData (take (Z.to_nat (Z.abs limit')) (drop (Z.to_nat skip) all))
             page' (Math_ceil total limit') total)
  end.

Definition categoryMap (c : Service.Category) : string :=
  match c with
  | Service.shirts => "Shirts & Tops"
  | Service.suits => "Suits & Formal"
  | Service.traditional => "Traditional Wear"
  | Service.casual => "Casual Wear"
  | Service.home_essentials => "Home Essentials"
  end.

(** The categories in the order of [{ $sort: { _id: 1 } }]. *)
Definition sorted_categories : list Service.Category :=
  [Service.casual; Service.home_essentials; Service.shirts; Service.suits;
   Service.traditional].

(** The group of a category: nothing when it has no price to aggregate. *)
Definition group (c : Service.Category) (prices : list Z) : list Service.Summary :=
  match prices with
  | [] => []
  | p :: ps =>
      [{| Service.sum_id := Service.category_name c;
          Service.sum_name := categoryMap c;
          Service.sum_count := Z.of_nat (length prices);
          Service.sum_min := foldr Z.min p ps;
          Service.sum_max := foldr Z.max p ps;
          Service.sum_average := Math_round (total_of prices) (Z.of_nat (length prices)) |}]
  end.

(** [GET /api/services/categories]: [{ $match: { isActive: true } }], then
    the groups by category with their count and prices. *)
Definition get_categories (db : Db) : Response :=
  let active := filter (λ s, Service.isActive s = true) (services db) in
  respond 200 "Vastram service categories retrieved successfully"
    (CategoriesData
       (sorted_categories ≫= λ c,
          group c (Service.price <$> filter (λ s, Service.category s = c) active))).

(** [GET /api/services/:id] *)
Definition get_service (id : string) (db : Db) : Response :=
  match Service.findOne (services db) id with
  | Err _ => respond 500 "Failed to fetch Vastram service" NoData
  | Ok None => respond 404 "Vastram service not found" NoData
  | Ok (Some service) =>
      respond 200 "Vastram service retrieved successfully" (ServiceData service)
  end.

(** [DELETE /api/services/:id], the soft delete. [findByIdAndUpdate] casts
    the identifier of the request; one that does not cast throws, and the
    handler answers 500. *)
Definition delete_service (user : User.t) (id : string) (db : Db) : Db * Response :=
  match requireAdmin user with
  | Some denied => (db, denied)
  | None =>
      match Text.castObjectId id with
      | None => (db, respond 500 "Failed to deactivate Vastram service" NoData)
      | Some oid =>
          match Service.deactivate (services db) oid with
          | (_, None) => (db, respond 404 "Vastram service not found" NoData)
          | (catalog, Some _) =>
              (with_services db catalog,
               respond 200 "Vastram service deactivated successfully" NoData)
          end
      end
  end.

(** The entries that a response shows. *)
Definition listed (resp : Response) : list Service.t :=
  match data resp with
  | ServicesData l _ _ _ => l
  | ServiceData s => [s]
  | _ => []
  end.

End Services.

(** ** routes/users.cjs *)

Module Users.

Definition parse_tier (s : string) : option User.Tier :=
  if bool_decide (s = "bronze"%string) then Some User.bronze
  else if bool_decide (s = "silver"%string) then Some User.silver
  else if bool_decide (s = "gold"%string) then Some User.gold
  else if bool_decide (s = "platinum"%string) then Some User.platinum
  else None.

(** [PUT /api/users/:id/membership] *)
Definition put_membership (user : User.t) (id : string) (membershipTier : string)
    (db : Db) : Db * Response :=
  match requireAdmin user with
  | Some denied => (db, denied)
  | None =>
      match parse_tier membershipTier with
      | None => (db, respond 400 "Validation failed" (Errors ["Invalid membership tier"%string]))
      | Some tier =>
          match users db !! id with
          | None => (db, respond 404 "Vastram user not found" NoData)
          | Some account =>
              let account := User.with_membershipTier account tier in
              (with_users db (<[id := account]> (users db)),
               respond 200 ("User membership tier updated to " +:+ membershipTier)
                 (UserData account))
          end
      end
  end.

(** The writes of the routes to the document of an account: the login, the
    statistics of a checkout, the profile, the override of the membership
    tier and the activation by an administrator. *)
Inductive mutation :=
  | Login (now : Z)
  | RecordOrder (total : Z)
  | UpdateProfile (name phone address : option string)
  | SetMembership (tier : User.Tier)
  | SetActive (isActive : bool).

Definition mutate (m : mutation) (u : User.t) : User.t :=
  match m with
  | Login now => User.login now u
  | RecordOrder total => User.record_order total u
  | UpdateProfile name phone address => User.update_profile name phone address u
  | SetMembership tier => User.with_membershipTier u tier
  | SetActive b => User.set_isActive b u
  end.

Definition is_override (m : mutation) : bool :=
  match m with SetMembership _ => true | _ => false end.

(** The accounts that registration creates and that the routes other than
    the override of the membership tier then change. *)
Inductive without_override : User.t → Prop :=
  | account_registered id name email password phone address :
      without_override (User.register id name email password phone address)
  | account_mutated m u :
      without_override u → is_override m = false → without_override (mutate m u).

End Users.

(** ** routes/cart.cjs

    The two routes that read the cart with [getOrCreateCart], which gives
    it populated, and the three that read it with [Cart.findOne({ user })]:
    the update of a quantity, the removal of a line and the clearing. *)

Module CartRoutes.

(** The [cart] member of a response: [items] after
    [populate('items.service', ...)], each line with the catalogue entry of
    its service, and the totals of the document. *)
Record View := {
  view_items : list (Cart.Item * option Service.t);
  view_totalItems : Z;
  view_totalPrice : Z;
  view_lastUpdated : Z
}.

Inductive Body :=
  | NoBody
  | ErrorsBody (errors : list string)
  | CartBody (cart : View).

Record Reply := {
  status : Z;
  text : string;
  body : Body
}.

Definition reply (status' : Z) (text' : string) (body' : Body) : Reply :=
  {| status := status'; text := text'; body := body' |}.

Definition view (catalog : list Service.t) (c : Cart.t) : View :=
  {| view_items := (λ item, (item, Service.findById catalog (Cart.service item)))
                     <$> Cart.items c;
     view_totalItems := Cart.totalItems c;
     view_totalPrice := Cart.totalPrice c;
     view_lastUpdated := Cart.lastUpdated c |}.

(** [GET /api/cart] *)
Definition get_cart (now : Z) (user : User.t) (db : Db) : Db * Reply :=
  match Cart.getOrCreateCart (User._id user) now (carts db) with
  | Err _ => (db, reply 500 "Failed to fetch Vastram cart" NoBody)
  | Ok (cart, carts1) =>
      (with_carts db carts1,
       reply 200 "Vastram cart retrieved successfully" (CartBody (view (services db) cart)))
  end.

(** [POST /api/cart/items]; [quantity] is the integer of the body. The
    line that [addItem] pushes holds the identifier to which [serviceId]
    casts, that of the entry found. *)
Definition post_item (now : Z) (user : User.t) (serviceId : string) (quantity : Z)
    (db : Db) : Db * Reply :=
  let errors :=
    Orders.fails (Text.isMongoId serviceId) "Invalid service ID"
    ++ Orders.fails (bool_decide (1 ≤ quantity ≤ 50)) "Quantity must be between 1 and 50" in
  match errors with
  | _ :: _ => (db, reply 400 "Validation failed" (ErrorsBody errors))
  | [] =>
  let failed := reply 500 "Failed to add item to Vastram cart" NoBody in
  match Service.findOne (services db) serviceId with
  | Err _ => (db, failed)
  | Ok None => (db, reply 404 "Vastram service not found or unavailable" NoBody)
  | Ok (Some service) =>
  match Cart.getOrCreateCart (User._id user) now (carts db) with
  | Err _ => (db, failed)
  | Ok (cart, carts1) =>
  let db := with_carts db carts1 in
  match Cart.addItem (Cart.Populated (Service._id <$> services db)) (Service._id service)
          quantity (Service.price service) now cart with
  | Err _ => (db, failed)
  | Ok cart =>
      (with_carts db (<[User._id user := cart]> (carts db)),
       reply 200 (Service.name service +:+ " added to your Vastram cart")
         (CartBody (view (services db) cart)))
  end end end end.

(** [PUT /api/cart/items/:serviceId]; [quantity] is the integer of the
    body. *)
Definition put_item (now : Z) (user : User.t) (serviceId : string) (quantity : Z)
    (db : Db) : Db * Reply :=
  if bool_decide (0 ≤ quantity ≤ 50) then
    match carts db !! User._id user with
    | None => (db, reply 404 "Vastram cart not found" NoBody)
    | Some cart =>
        match Cart.updateItemQuantity serviceId quantity now cart with
        | Err _ => (db, reply 500 "Failed to update Vastram cart item" NoBody)
        | Ok cart =>
            (with_carts db (<[User._id user := cart]> (carts db)),
             reply 200
               (if bool_decide (quantity = 0) then "Item removed from your Vastram cart"
                else "Cart item quantity updated successfully")
               (CartBody (view (services db) cart)))
        end
    end
  else (db, reply 400 "Validation failed"
              (ErrorsBody ["Quantity must be between 0 and 50"%string])).

(** [DELETE /api/cart/items/:serviceId] *)
Definition delete_item (now : Z) (user : User.t) (serviceId : string) (db : Db)
    : Db * Reply :=
  match carts db !! User._id user with
  | None => (db, reply 404 "Vastram cart not found" NoBody)
  | Some cart =>
      match Cart.removeItem serviceId now cart with
      | Err _ => (db, reply 500 "Failed to remove item from Vastram cart" NoBody)
      | Ok cart =>
          (with_carts db (<[User._id user := cart]> (carts db)),
           reply 200 "Item removed from your Vastram cart"
             (CartBody (view (services db) cart)))
      end
  end.

(** [DELETE /api/cart] *)
Definition delete_cart (now : Z) (user : User.t) (db : Db) : Db * Reply :=
  match carts db !! User._id user with
  | None => (db, reply 404 "Vastram cart not found" NoBody)
  | Some cart =>
      match Cart.clearCart now cart with
      | Err _ => (db, reply 500 "Failed to clear Vastram cart" NoBody)
      | Ok cart =>
          (with_carts db (<[User._id user := cart]> (carts db)),
           reply 200 "Vastram cart cleared successfully"
             (CartBody {| view_items := []; view_totalItems := 0; view_totalPrice := 0;
                          view_lastUpdated := Cart.lastUpdated cart |}))
      end
  end.

(** The requests that write to the collection of carts through these
    routes, and the checkout, which clears the cart of its customer. *)
Inductive step : Db → Db → Prop :=
  | step_get now user db :
      step db (get_cart now user db).1
  | step_add now user serviceId quantity db :
      step db (post_item now user serviceId quantity db).1
  | step_put now user serviceId quantity db :
      step db (put_item now user serviceId quantity db).1
  | step_remove now user serviceId db :
      step db (delete_item now user serviceId db).1
  | step_clear now user db :
      step db (delete_cart now user db).1
  | step_checkout now oid rnd user req db :
      step db (Orders.post_orders now oid rnd user req db).1.

End CartRoutes.

(** ** Queries on the catalogue

    The parameters of [GET /api/services] that choose the page, and what a
    query looks for in the catalogue. *)

Module Catalogue.


(** The entries that the query is after: those of the filter and, with a
    search, of the search. *)
Definition wanted (index : Services.TextIndex) (q : Services.Query) (s : Service.t) : Prop :=
  Services.selected q s
  ∧ match Services.search q with
    | Some term => Services.matches index term s = true
    | None => True
    end.

#[global] Instance wanted_dec index q s : Decision (wanted index q s).
Proof. unfold wanted. case_match; apply _. Defined.

(** The active entries of a category. *)
Definition active_in (c : Service.Category) (catalog : list Service.t) : list Service.t :=
  filter (λ s, Service.category s = c)
    (filter (λ s, Service.isActive s = true) catalog).

End Catalogue.

(** ** The life of an order in the store

    What the handlers of [routes/orders.cjs] write to the collection of
    orders: the document that the checkout builds, and the three changes
    that the later requests make to a stored document before they save
    it. *)

Module Lifecycle.

(** The document that [POST /api/orders] builds from a request whose items
    the catalogue prices. *)
Definition placed (o : Order.t) : Prop :=
  ∃ catalog now rnd user req lines subtotal,
    Orders.order_lines catalog (Orders.items req) [] 0 = Ok (inr (lines, subtotal))
    ∧ o = Orders.new_order now rnd user req lines subtotal (gst subtotal)
            (subtotal + gst subtotal).

(** [addTrackingUpdate], [order.actualDelivery = new Date()] and
    [order.rating = rating; order.review = review]. *)
Inductive edit : Order.t → Order.t → Prop :=
  | edit_tracking o st msg now :
      edit o (Order.with_tracking o
                (Order.trackingUpdates o
                 ++ [{| Order.tu_status := st; Order.tu_message := msg;
                        Order.tu_timestamp := now |}]) st)
  | edit_delivery o now :
      edit o (Order.with_actualDelivery o (Some now))
  | edit_review o r v :
      ¬ Orders.truthy (Order.rating o) →
      edit o (Order.with_review o (Some r) v).

(** One accepted [save()]: of a new document, or of a stored one after a
    change. *)
Inductive write : gmap string Order.t → gmap string Order.t → Prop :=
  | write_new now rnd id o o' m m' :
      placed o → Order.save true now rnd id o m = Ok (o', m') → write m m'
  | write_edit now rnd id old o o' m m' :
      m !! id = Some old → edit old o →
      Order.save false now rnd id o m = Ok (o', m') → write m m'.

(** The stored form of a changed document. *)
Definition saved_edit (o o' : Order.t) : Prop :=
  ∃ e now rnd, edit o e ∧ o' = Order.pre_save now rnd e.

(** The status of the order is the one of its last tracking update. *)
Definition status_tracked (o : Order.t) : Prop :=
  Order.tu_status <$> last (Order.trackingUpdates o) = Some (Order.status o).

(** The amounts of the order follow from its lines. *)
Definition priced (o : Order.t) : Prop :=
  Forall (λ line, Order.subtotal line = Order.price line * Order.quantity line)
    (Order.items o)
  ∧ Order.order_subtotal o = total_of (Order.subtotal <$> Order.items o)
  ∧ Order.tax o = gst (Order.order_subtotal o)
  ∧ Order.total o = Order.order_subtotal o + Order.tax o.

(** No two orders of the collection have the same order number. *)
Definition numbers_unique (m : gmap string Order.t) : Prop :=
  ∀ i j oi oj, m !! i = Some oi → m !! j = Some oj →
               Order.orderNumber oi = Order.orderNumber oj → i = j.

(** A collection as the saves leave it: valid documents with an order
    number, the numbers all different. *)
Definition well_formed (m : gmap string Order.t) : Prop :=
  map_Forall (λ _ o, Order.validate o = [] ∧ Order.orderNumber o ≠ EmptyString) m
  ∧ numbers_unique m.

(** What the schema validators of the catalogue accept of an entry, as far
    as an order needs it: a name and a price that is not negative. *)
Definition sellable (s : Service.t) : Prop :=
  Service.name s ≠ EmptyString ∧ 0 ≤ Service.price s.

End Lifecycle.

(** ** The statistics of the accounts

    [totalOrders] and [totalSpent] of an account against the orders that
    the collection holds for it. *)

Module Ledger.

(** The stored orders of a customer. *)
Definition orders_of (uid : string) (m : gmap string Order.t) : list Order.t :=
  filter (λ o, Order.customer o = uid) (snd <$> map_to_list m).

(** Every account counts the stored orders of its customer and has spent
    the sum of their totals. *)
Definition accounted (db : Db) : Prop :=
  map_Forall (λ uid account,
    User.totalOrders account = Z.of_nat (length (orders_of uid (orders db)))
    ∧ User.totalSpent account = total_of (Order.total <$> orders_of uid (orders db)))
    (users db).

End Ledger.

(** ** Sample documents

    Identifiers and documents in the shape of those of [scripts/seedData.cjs],
    on which the properties below are exercised. *)

Module Sample.

Definition customer : string := "64b000000000000000000001".
Definition regular_shirt : string := "64a000000000000000000001".
Definition premium_shirt : string := "64a000000000000000000002".

Definition administrator : string := "64b000000000000000000002".
Definition steam_press : string := "64a000000000000000000003".
Definition retired_service : string := "64a000000000000000000004".
Definition first_order : string := "64c000000000000000000001".

Definition service (id name' : string) (price' : Z) (category' : Service.Category)
    (active popular : bool) : Service.t :=
  {| Service._id := id; Service.name := name';
     Service.description := "Professional cleaning and pressing";
     Service.price := price'; Service.category := category';
     Service.processingTime := "24 hours"; Service.isActive := active;
     Service.isPopular := popular; Service.tags := [];
     Service.minQuantity := 1; Service.maxQuantity := 50 |}.

Definition catalog : list Service.t :=
  [ service regular_shirt "Regular Shirt" 49 Service.shirts true true;
    service premium_shirt "Premium Shirt" 89 Service.shirts true true;
    service steam_press "Steam Press" 100 Service.casual true false;
    service retired_service "Starching" 30 Service.casual false false ].

Definition test_user : User.t :=
  User.register customer "Test" "t@x.com" "$2a$12$hash" "+919876543210"
    "10 Residency Road, Bangalore".

Definition admin_user : User.t :=
  {| User._id := administrator; User.name := "Admin User";
     User.email := "admin@vastram.com"; User.password := "$2a$12$hash";
     User.phone := "+91 9999999999";
     User.address := "Vastram Headquarters, Mumbai, Maharashtra";
     User.membershipTier := User.platinum; User.role := User.admin;
     User.isActive := true; User.totalOrders := 0; User.totalSpent := 0;
     User.lastLogin := None |}.

(** The cart that [getOrCreateCart] stores on the first access. *)
Definition empty_cart : Cart.t := Cart.pre_save 0 (Cart.new_cart customer 0).

(** The identifiers that [populate] resolves in the catalogue. *)
Definition known : list string := Service._id <$> catalog.

(** The same cart after [addItem(regular_shirt, 3, 49)] on the document
    of [getOrCreateCart]. *)
Definition cart_of_three : Cart.t :=
  Cart.stored_after (Cart.AddItem (Cart.Populated known) regular_shirt 3 49) 1 empty_cart.

(** The cart of the test account holding two steam presses. *)
Definition cart_of_two : Cart.t :=
  Cart.stored_after (Cart.AddItem (Cart.Populated known) steam_press 2 100) 1 empty_cart.

Definition db : Db :=
  {| users := {[ customer := test_user; administrator := admin_user ]};
     services := catalog;
     orders := ∅;
     carts := {[ customer := cart_of_two ]} |}.

(** A checkout of the two steam presses, to be picked up at the instant
    [2000]. *)
Definition checkout : Orders.Request :=
  {| Orders.items := [{| Orders.service := steam_press; Orders.quantity := 2 |}];
     Orders.pickupAddress := "10 Residency Road, Bangalore";
     Orders.pickupDateISO8601 := true;
     Orders.pickupDate := Some 2000;
     Orders.pickupTime := "10:30";
     Orders.deliveryAddress := "10 Residency Road, Bangalore";
     Orders.specialInstructions := None |}.

(** The same request for a service that was deactivated. *)
Definition checkout_of_retired : Orders.Request :=
  {| Orders.items := [{| Orders.service := steam_press; Orders.quantity := 2 |};
                      {| Orders.service := retired_service; Orders.quantity := 1 |}];
     Orders.pickupAddress := "10 Residency Road, Bangalore";
     Orders.pickupDateISO8601 := true;
     Orders.pickupDate := Some 2000;
     Orders.pickupTime := "10:30";
     Orders.deliveryAddress := "10 Residency Road, Bangalore";
     Orders.specialInstructions := None |}.

(** The same request for an identifier with the prefix that [isMongoId]
    lets through. *)
Definition prefixed : string := "0xaaaaaaaaaaaaaaaaaaaaaa".

Definition checkout_of_prefixed : Orders.Request :=
  {| Orders.items := [{| Orders.service := prefixed; Orders.quantity := 1 |}];
     Orders.pickupAddress := "10 Residency Road, Bangalore";
     Orders.pickupDateISO8601 := true;
     Orders.pickupDate := Some 2000;
     Orders.pickupTime := "10:30";
     Orders.deliveryAddress := "10 Residency Road, Bangalore";
     Orders.specialInstructions := None |}.

(** The checkout with the week date ["2030-W05"] for its pickup, which
    [isISO8601] accepts and of which [new Date] makes an invalid date. *)
Definition checkout_of_week_date : Orders.Request :=
  {| Orders.items := [{| Orders.service := steam_press; Orders.quantity := 2 |}];
     Orders.pickupAddress := "10 Residency Road, Bangalore";
     Orders.pickupDateISO8601 := true;
     Orders.pickupDate := None;
     Orders.pickupTime := "10:30";
     Orders.deliveryAddress := "10 Residency Road, Bangalore";
     Orders.specialInstructions := None |}.

(** A text index that matches an entry on its name. *)
Definition index : Services.TextIndex :=
  {| Services.matches := λ term s, bool_decide (Service.name s = term);
     Services.textScore := λ term s, 1 |}.

(** The query without a parameter. *)
Definition everything : Services.Query :=
  {| Services.category := None; Services.minPrice := None; Services.maxPrice := None;
     Services.search := None; Services.popular := None; Services.page := None;
     Services.limit := None |}.

(** The store after the checkout at the instant [1000], and after an
    administrator marked the order as delivered. *)
Definition after_checkout : Db :=
  (Orders.post_orders 1000 first_order 7 test_user checkout db).1.

Definition after_delivery : Db :=
  (Orders.put_status 5000 7 admin_user first_order "delivered" None after_checkout).1.

(** The store after the steam press, which the delivered order has a line
    of, was removed from the catalogue by the soft delete. *)
Definition after_retirement : Db :=
  (Services.delete_service admin_user steam_press after_delivery).1.


(** The order that the checkout stored: two steam presses at 100, 36 of
    tax. *)
Definition placed_order : Order.t :=
  Order.with_tracking
    (Order.pre_save 1000 7
       (Orders.new_order 1000 7 test_user checkout
          [{| Order.service := steam_press; Order.serviceName := "Steam Press";
              Order.quantity := 2; Order.price := 100; Order.subtotal := 200 |}]
          200 36 236))
    [{| Order.tu_status := Order.pending;
        Order.tu_message := "Order placed successfully. Waiting for confirmation.";
        Order.tu_timestamp := 1000 |}]
    Order.pending.

(** The same order once it is delivered. *)
Definition delivered_order : Order.t :=
  default placed_order (orders after_delivery !! first_order).

(** A customer who placed no order. *)
Definition stranger : User.t :=
  User.register "64b000000000000000000003" "Other" "o@x.com" "$2a$12$hash"
    "+919876543211" "12 Residency Road, Bangalore".

End Sample.

(** * Properties *)

(** ** Sums *)

Lemma foldl_add_total {A} (f : A → Z) (l : list A) (a : Z) :
  foldl (λ total item, total + f item) a l = a + total_of (f <$> l).
Proof.
  revert a. unfold total_of. induction l as [|x l IH]; intros a; csimpl.
  - lia.
  - rewrite IH. lia.
Qed.

(** ** Lists *)

Lemma filter_none {A} (P : A → Prop) `{!∀ x, Decision (P x)} (l : list A) :
  Forall (λ x, ¬ P x) l → filter P l = [].
Proof.
  induction 1 as [|x l Hx _ IH]; [done|].
  by rewrite filter_cons_False.
Qed.


(** ** Carts *)

Section cart_properties.
Import Cart.

Lemma validateItem_nil it : validateItem it = [] ↔ item_valid it.
Proof.
  unfold validateItem, item_valid, quantity_in_range.
  repeat case_bool_decide; simpl; split; intros ?; try done; lia.
Qed.

Lemma validate_nil c : validate c = [] ↔ Forall item_valid (items c).
Proof.
  unfold validate. induction (items c) as [|it l IH]; csimpl.
  - split; [constructor | done].
  - rewrite Forall_cons, <-IH, <-validateItem_nil.
    split.
    + intros H. by apply app_eq_nil in H.
    + intros [-> ->]. done.
Qed.

Lemma save_Ok now c c' :
  save now c = Ok c' ↔ Forall item_valid (items c) ∧ c' = pre_save now c.
Proof.
  unfold save. rewrite <-validate_nil.
  destruct (validate c); split; intros H; try done.
  - split; [done | congruence].
  - destruct H as [_ ->]. done.
  - by destruct H.
Qed.

Lemma save_valid now c :
  Forall item_valid (items c) → save now c = Ok (pre_save now c).
Proof. intros H. by apply save_Ok. Qed.


Lemma pre_save_totals now c : totals_recomputed (pre_save now c).
Proof.
  unfold totals_recomputed, pre_save; simpl.
  rewrite !foldl_add_total. split; lia.
Qed.

Lemma save_totals now c c' : save now c = Ok c' → totals_recomputed c'.
Proof. intros [_ ->]%save_Ok. apply pre_save_totals. Qed.

Lemma save_items_valid now c c' : save now c = Ok c' → Forall item_valid (items c').
Proof. by intros [? ->]%save_Ok. Qed.

(** Every method ends in [this.save()]. *)
Lemma call_save o now c c' :
  call o now c = Ok c' → ∃ d, save now d = Ok c'.
Proof.
  destruct o as [doc s q p | s q | s |]; simpl;
    unfold addItem, updateItemQuantity, removeItem, clearCart;
    repeat case_match; try done; eauto.
Qed.

Lemma call_totals o now c c' : call o now c = Ok c' → totals_recomputed c'.
Proof. intros [d Hd]%call_save. by eapply save_totals. Qed.

Lemma call_items_valid o now c c' : call o now c = Ok c' → Forall item_valid (items c').
Proof. intros [d Hd]%call_save. by eapply save_items_valid. Qed.

Lemma stored_totals c : stored c → totals_recomputed c.
Proof.
  induction 1 as [u now c Hnew | o now c Hc IH].
  - by eapply save_totals.
  - unfold stored_after. destruct (call o now c) as [c'|e] eqn:Hcall; [|done].
    by eapply call_totals.
Qed.

Lemma stored_items_valid c : stored c → Forall item_valid (items c).
Proof.
  induction 1 as [u now c Hnew | o now c Hc IH].
  - by eapply save_items_valid.
  - unfold stored_after. destruct (call o now c) as [c'|e] eqn:Hcall; [|done].
    by eapply call_items_valid.
Qed.

(** *** The derived totals *)

(** C4. After each of [addItem], [updateItemQuantity], [removeItem] and
    [clearCart], the document that was saved has [totalItems] equal to the
    sum of the quantities of its lines and [totalPrice] equal to the sum of
    price times quantity over its lines; and whether the save was accepted
    or rejected, the document that the store holds after the call has. *)
Theorem cart_totals_after_every_operation (o : op) (now : Z) (c : t) :
  (∀ c', call o now c = Ok c' →
     totalItems c' = total_of (quantity <$> items c')
     ∧ totalPrice c' = total_of ((λ item, price item * quantity item) <$> items c'))
  ∧ (stored c →
     totalItems (stored_after o now c) = total_of (quantity <$> items (stored_after o now c))
     ∧ totalPrice (stored_after o now c)
       = total_of ((λ item, price item * quantity item) <$> items (stored_after o now c))).
Proof.
  split.
  - intros c' Hcall. by apply (call_totals o now c).
  - intros Hc. apply stored_totals. by constructor.
Qed.

(** *** Quantities stay within 1 and 50 *)

Lemma find_item_Some serviceId l i it :
  find_item serviceId l = Some (i, it) →
  l !! i = Some it ∧ service it = serviceId.
Proof. intros (? & ? & _)%list_find_Some. done. Qed.


(** Every line of every stored cart has a quantity between 1 and 50 and a
    price that is not negative. *)
Lemma stored_quantities_within_bounds c :
  stored c → Forall (λ item, 1 ≤ quantity item ≤ 50) (items c).
Proof.
  intros Hc. eapply Forall_impl; [by apply stored_items_valid|].
  by intros it [? _].
Qed.

(** On the populated document the [find] of [addItem] finds no line. *)
Lemma addItem_populated known serviceId q p now c :
  Forall (λ item, service item ∈ known) (items c) →
  addItem (Populated known) serviceId q p now c
  = save now (with_items c
      (items c ++ [{| service := serviceId; quantity := q; price := p |}])).
Proof. intros Hknown. unfold addItem, find. by rewrite bool_decide_eq_true_2. Qed.

Lemma stored_empty_cart : stored Sample.empty_cart.
Proof. by apply (stored_new Sample.customer 0). Qed.

Lemma stored_cart_of_three : stored Sample.cart_of_three.
Proof. apply stored_call, stored_empty_cart. Qed.

(** C10, where the code leaves it. Every line of every stored cart has a
    quantity between 1 and 50. But the cart of the sample holds three
    regular shirts, and [addItem] of 48 more, on the document that
    [getOrCreateCart] hands to the route, is saved: the [find] misses the
    line of the service, a second line of 48 is pushed and each line passes
    the validators, so the cart holds 51 of the service. On the plain
    document the same call merges to 51 and the save is refused. *)
Theorem addItem_above_fifty_adds_a_line :
  (∀ c, stored c → Forall (λ item, 1 ≤ quantity item ≤ 50) (items c))
  ∧ stored Sample.cart_of_three
  ∧ quantity <$> lines_of Sample.regular_shirt Sample.cart_of_three = [3]
  ∧ (∃ c', addItem (Populated Sample.known) Sample.regular_shirt 48 49 2
             Sample.cart_of_three = Ok c'
           ∧ quantity <$> lines_of Sample.regular_shirt c' = [3; 48]
           ∧ totalItems c' = 51)
  ∧ addItem Plain Sample.regular_shirt 48 49 2 Sample.cart_of_three
    = Err (ValidationError ["Quantity cannot exceed 50"%string]).
Proof.
  split; [exact stored_quantities_within_bounds|].
  split; [exact stored_cart_of_three|]. split; [reflexivity|]. split.
  - eexists. split; [reflexivity|]. split; reflexivity.
  - reflexivity.
Qed.

Lemma addItem_above_fifty_adds_a_line_witness :
  Forall (λ item, 1 ≤ quantity item ≤ 50)
    (items (stored_after (AddItem (Populated Sample.known) Sample.regular_shirt 48 49) 2
              Sample.cart_of_three))
  ∧ total_of (quantity <$> items
                (stored_after (AddItem (Populated Sample.known) Sample.regular_shirt 48 49) 2
                   Sample.cart_of_three)) = 51.
Proof.
  destruct addItem_above_fifty_adds_a_line as (Hbounds & Hstored & _).
  split; [apply Hbounds, stored_call, Hstored | reflexivity].
Defined.

(** *** Dropping a line *)

Lemma Forall_valid_filter (P : Item → Prop) `{!∀ x, Decision (P x)} (l : list Item) :
  Forall item_valid l → Forall item_valid (filter P l).
Proof.
  rewrite !Forall_forall. intros Hl it [_ Hin]%list_elem_of_filter. by apply Hl.
Qed.

Lemma updateItemQuantity_removes serviceId q now c :
  Forall item_valid (items c) →
  (∃ item, item ∈ items c ∧ service item = serviceId) →
  q ≤ 0 →
  updateItemQuantity serviceId q now c
  = Ok (pre_save now (with_items c (filter (λ item, service item ≠ serviceId) (items c)))).
Proof.
  intros Hvalid (it & Hin & Hit) Hq.
  unfold updateItemQuantity.
  destruct (find_item serviceId (items c)) as [[i it']|] eqn:Hfind.
  - rewrite bool_decide_eq_true_2 by done.
    apply save_valid. simpl. by apply Forall_valid_filter.
  - exfalso. unfold find_item in Hfind.
    apply list_find_None in Hfind.
    rewrite Forall_forall in Hfind. by apply (Hfind it).
Qed.

(** C8. On a stored cart that has a line for the service,
    [updateItemQuantity] with a quantity of 0 or less is saved, and the
    saved cart keeps the lines of the other services only: no line of the
    service is left, and no line has a quantity of 0. *)
Theorem updateItemQuantity_nonpositive_removes (serviceId : string) (q now : Z) (c : t) :
  stored c →
  (∃ item, item ∈ items c ∧ service item = serviceId) →
  q ≤ 0 →
  ∃ c', updateItemQuantity serviceId q now c = Ok c'
        ∧ stored_after (UpdateItemQuantity serviceId q) now c = c'
        ∧ items c' = filter (λ item, service item ≠ serviceId) (items c)
        ∧ lines_of serviceId c' = []
        ∧ Forall (λ item, quantity item ≠ 0) (items c').
Proof.
  intros Hc Hline Hq.
  pose proof (stored_items_valid c Hc) as Hvalid.
  pose proof (updateItemQuantity_removes serviceId q now c Hvalid Hline Hq) as Hsaved.
  eexists. split; [exact Hsaved|]. split_and!.
  - unfold stored_after; simpl. by rewrite Hsaved.
  - done.
  - unfold lines_of; simpl. rewrite list_filter_filter.
    apply filter_none, Forall_forall. intros x _ [? ?]. done.
  - pose proof (Forall_valid_filter (λ item, service item ≠ serviceId) _ Hvalid) as Hkept.
    eapply Forall_impl; [exact Hkept|].
    intros x [[? ?] _]. lia.
Qed.

(** *** Adding a service twice *)

(** C7, where the code leaves it. A customer without a cart adds two
    regular shirts and then three more through [POST /api/cart/items]. Both
    requests answer 200, and the cart that the store holds has two lines of
    the service, of two and of three, not one line of five: the second
    call of [addItem] gets the document of [getOrCreateCart], populated,
    on which the [find] misses the line. On the plain document the same
    two calls leave one line of five. *)
Theorem addItem_twice_adds_two_lines :
  let db1 := (CartRoutes.post_item 1 Sample.stranger Sample.regular_shirt 2 Sample.db).1 in
  let second := CartRoutes.post_item 2 Sample.stranger Sample.regular_shirt 3 db1 in
  CartRoutes.status
    (CartRoutes.post_item 1 Sample.stranger Sample.regular_shirt 2 Sample.db).2 = 200
  ∧ CartRoutes.status second.2 = 200
  ∧ (∃ c2, carts second.1 !! User._id Sample.stranger = Some c2
           ∧ quantity <$> lines_of Sample.regular_shirt c2 = [2; 3])
  ∧ (∃ c1 c2, addItem Plain Sample.regular_shirt 2 49 1 Sample.empty_cart = Ok c1
              ∧ addItem Plain Sample.regular_shirt 3 49 2 c1 = Ok c2
              ∧ quantity <$> lines_of Sample.regular_shirt c2 = [5]).
Proof.
  cbv zeta. split; [vm_compute; reflexivity|]. split; [vm_compute; reflexivity|]. split.
  - eexists. split; vm_compute; reflexivity.
  - eexists _, _. split; [reflexivity|]. split; reflexivity.
Qed.

(** *** The properties on the sample carts *)

Lemma cart_totals_after_every_operation_witness :
  ∃ c', call (AddItem (Populated Sample.known) Sample.regular_shirt 2 100) 1
          Sample.empty_cart = Ok c'
        ∧ totalItems c' = 2 ∧ totalPrice c' = 200
        ∧ totalItems (stored_after (AddItem Plain Sample.premium_shirt 60 89) 2
                        Sample.cart_of_three)
          = 3.
Proof.
  eexists. split; [reflexivity|].
  destruct (cart_totals_after_every_operation
              (AddItem (Populated Sample.known) Sample.regular_shirt 2 100) 1
              Sample.empty_cart) as [Hsaved _].
  destruct (Hsaved _ eq_refl) as [-> ->].
  destruct (cart_totals_after_every_operation
              (AddItem Plain Sample.premium_shirt 60 89) 2 Sample.cart_of_three)
    as [_ Hkept].
  destruct (Hkept stored_cart_of_three) as [-> _].
  by vm_compute.
Defined.

Lemma updateItemQuantity_nonpositive_removes_witness :
  ∃ c', updateItemQuantity Sample.regular_shirt 0 2 Sample.cart_of_three = Ok c'
        ∧ items c' = [] ∧ lines_of Sample.regular_shirt c' = [].
Proof.
  destruct (updateItemQuantity_nonpositive_removes
              Sample.regular_shirt 0 2 Sample.cart_of_three)
    as (c' & Hsaved & _ & Hitems & Hnone & _).
  - exact stored_cart_of_three.
  - exists {| service := Sample.regular_shirt; quantity := 3; price := 49 |}.
    split; [left | reflexivity].
  - lia.
  - exists c'. split; [exact Hsaved|]. split; [|exact Hnone].
    rewrite Hitems. reflexivity.
Defined.

End cart_properties.

(** ** Orders *)

Section order_properties.
Import Orders.

Lemma Math_round_nearest n d :
  0 < d → 2 * d * Math_round n d - d ≤ 2 * n < 2 * d * Math_round n d + d.
Proof.
  intros Hd. unfold Math_round.
  pose proof (Z.div_mod (2 * n + d) (2 * d)) as Hdiv.
  pose proof (Z.mod_pos_bound (2 * n + d) (2 * d)) as Hmod.
  lia.
Qed.

(** The tax is the integer nearest to 18% of the subtotal, half a rupee
    going up. *)
Lemma gst_nearest subtotal :
  100 * gst subtotal - 50 ≤ 18 * subtotal < 100 * gst subtotal + 50.
Proof.
  unfold gst. pose proof (Math_round_nearest (subtotal * 18) 100). lia.
Qed.

Lemma findOne_active_Some catalog id s :
  Service.findOne_active catalog id = Some s →
  s ∈ catalog ∧ Service._id s = id ∧ Service.isActive s = true.
Proof.
  unfold Service.findOne_active.
  intros ([i s'] & Hfind & ->)%fmap_Some.
  apply list_find_Some in Hfind as (Hi & [? ?] & _). simpl.
  split; [by eapply list_elem_of_lookup_2 | done].
Qed.

Lemma findOne_active_None catalog id :
  Service.findOne_active catalog id = None ↔ Service.unavailable catalog id.
Proof.
  unfold Service.findOne_active, Service.unavailable.
  rewrite fmap_None, list_find_None, Forall_forall. split.
  - intros Hnone s Hs Hid. specialize (Hnone s Hs).
    destruct (Service.isActive s); [|done]. by destruct Hnone.
  - intros Hnone s Hs [Hid Hact]. specialize (Hnone s Hs Hid). congruence.
Qed.

(** *** The loop over the requested items *)

Lemma service_findOne_Some catalog id s :
  Service.findOne catalog id = Ok (Some s) →
  Text.castObjectId id = Some (Service._id s)
  ∧ Service.findOne_active catalog (Service._id s) = Some s.
Proof.
  unfold Service.findOne. destruct (Text.castObjectId id) as [oid|]; [|done].
  intros [= Hs]. pose proof Hs as (_ & <- & _)%findOne_active_Some. done.
Qed.

Lemma service_findOne_Err catalog id e :
  Service.findOne catalog id = Err e ↔ Text.castObjectId id = None ∧ e = CastError.
Proof.
  unfold Service.findOne. destruct (Text.castObjectId id) as [oid|]; split;
    try done; [by intros [? _] | by intros [= <-] | by intros [_ ->]].
Qed.

Lemma order_lines_inr catalog items' orderItems subtotal lines total' :
  order_lines catalog items' orderItems subtotal = Ok (inr (lines, total')) →
  ∃ new, lines = orderItems ++ new
         ∧ Forall2 (priced catalog) items' new
         ∧ total' = subtotal + total_of (Order.subtotal <$> new).
Proof.
  revert orderItems subtotal.
  induction items' as [|item rest IH]; intros orderItems subtotal; simpl.
  - intros [= <- <-]. exists []. rewrite app_nil_r. split_and!; [done|constructor|].
    unfold total_of; simpl. lia.
  - destruct (Service.findOne catalog (service item)) as [[s|]|] eqn:Hs; [|done..].
    intros (new & -> & Hnew & ->)%IH.
    pose proof Hs as [Hid _]%service_findOne_Some.
    eexists (_ :: new). rewrite <-app_assoc. split_and!; [done| |].
    + constructor; [|done]. exists s. by split_and!.
    + unfold total_of; csimpl. lia.
Qed.

(** The loop throws only on an item whose string does not cast. *)
Lemma order_lines_Err catalog items' orderItems subtotal e :
  order_lines catalog items' orderItems subtotal = Err e →
  ∃ item, item ∈ items' ∧ uncastable item.
Proof.
  revert orderItems subtotal.
  induction items' as [|item rest IH]; intros orderItems subtotal; simpl; [done|].
  destruct (Service.findOne catalog (service item)) as [[s|]|e'] eqn:Hs.
  - intros (bad & Hin & Hbad)%IH. exists bad. split; [by right | done].
  - done.
  - intros _. exists item. split; [left|]. by apply service_findOne_Err in Hs as [? _].
Qed.

(** It prices no request that has an item without an active service. *)
Lemma order_lines_refused catalog items' orderItems subtotal :
  (∃ item, item ∈ items' ∧ (uncastable item ∨ unavailable catalog item)) →
  (∃ missing, order_lines catalog items' orderItems subtotal = Ok (inl missing))
  ∨ (∃ e, order_lines catalog items' orderItems subtotal = Err e).
Proof.
  revert orderItems subtotal.
  induction items' as [|item rest IH]; intros orderItems subtotal (bad & Hin & Hbad).
  - by apply elem_of_nil in Hin.
  - simpl. destruct (Service.findOne catalog (service item)) as [[s|]|e] eqn:Hs;
      [|left; eauto | right; eauto].
    apply IH. exists bad. split; [|done].
    apply elem_of_cons in Hin as [->|?]; [|done]. exfalso.
    apply service_findOne_Some in Hs as [Hcast Hfound].
    destruct Hbad as [Hbad | (oid & Hoid & Hbad%findOne_active_None)].
    + unfold uncastable in Hbad. congruence.
    + congruence.
Qed.

(** *** Saving an order *)

Lemma pre_save_fields now rnd o :
  let o' := Order.pre_save now rnd o in
  Order.customer o' = Order.customer o
  ∧ Order.items o' = Order.items o
  ∧ Order.order_subtotal o' = Order.order_subtotal o
  ∧ Order.tax o' = Order.tax o
  ∧ Order.total o' = Order.total o
  ∧ Order.status o' = Order.status o
  ∧ Order.rating o' = Order.rating o
  ∧ Order.review o' = Order.review o.
Proof. unfold Order.pre_save. repeat case_match; done. Qed.

Lemma validate_pre_save now rnd o :
  Order.validate (Order.pre_save now rnd o) = Order.validate o.
Proof. unfold Order.pre_save. repeat case_match; done. Qed.

Lemma order_save_Ok isNew now rnd id o m o' m' :
  Order.save isNew now rnd id o m = Ok (o', m') →
  Order.validate o = []
  ∧ o' = Order.pre_save now rnd o
  ∧ m' = <[id := o']> m
  ∧ (isNew = true → m !! id = None).
Proof.
  unfold Order.save. destruct (Order.validate o); [|done].
  repeat case_bool_decide; try done.
  intros [= <- <-]. split_and!; try done.
  intros ->. apply eq_None_not_Some. naive_solver.
Qed.

Lemma addTrackingUpdate_Ok st msg now rnd id o m o' m' :
  Order.addTrackingUpdate st msg now rnd id o m = Ok (o', m') →
  m' = <[id := o']> m
  ∧ Order.customer o' = Order.customer o
  ∧ Order.items o' = Order.items o
  ∧ Order.order_subtotal o' = Order.order_subtotal o
  ∧ Order.tax o' = Order.tax o
  ∧ Order.total o' = Order.total o
  ∧ Order.status o' = st
  ∧ Order.rating o' = Order.rating o
  ∧ Order.review o' = Order.review o.
Proof.
  unfold Order.addTrackingUpdate.
  intros (_ & -> & -> & _)%order_save_Ok.
  split; [done|].
  apply (pre_save_fields now rnd
    (Order.with_tracking o (Order.trackingUpdates o
       ++ [{| Order.tu_status := st; Order.tu_message := msg;
              Order.tu_timestamp := now |}]) st)).
Qed.

(** A document without a pickup date is not saved. *)
Lemma order_save_without_pickupDate isNew now rnd id o m :
  Order.pickupDate o = None → ∃ e, Order.save isNew now rnd id o m = Err e.
Proof.
  intros Hnone. unfold Order.save.
  destruct (Order.validate o) as [|msg msgs] eqn:Hvalid; [|eauto].
  exfalso. unfold Order.validate in Hvalid. rewrite !app_nil in Hvalid.
  destruct Hvalid as (_ & _ & _ & _ & _ & _ & Hdate & _).
  unfold Order.check in Hdate. by rewrite bool_decide_eq_true_2 in Hdate.
Qed.

(** *** Checkout *)

(** What a response 201 of the checkout tells. *)
Lemma post_orders_created now oid rnd user req db db' resp :
  post_orders now oid rnd user req db = (db', resp) →
  code resp = 201 →
  ∃ lines subtotal order account,
    validationResult req = []
    ∧ ¬ not_after (pickupDate req) now
    ∧ order_lines (services db) (items req) [] 0 = Ok (inr (lines, subtotal))
    ∧ users db !! User._id user = Some account
    ∧ data resp
      = OrderData order (Some (User.record_order (subtotal + gst subtotal) account))
    ∧ orders db' = <[oid := order]> (orders db)
    ∧ orders db !! oid = None
    ∧ users db'
      = <[User._id user := User.record_order (subtotal + gst subtotal) account]> (users db)
    ∧ Order.items order = lines
    ∧ Order.order_subtotal order = subtotal
    ∧ Order.tax order = gst subtotal
    ∧ Order.total order = subtotal + gst subtotal
    ∧ Order.status order = Order.pending
    ∧ Order.customer order = User._id user.
Proof.
  unfold post_orders. intros Hrun Hcode.
  destruct (validationResult req) eqn:Hvalid; [|by simplify_eq].
  case_bool_decide as Hdate; [by simplify_eq|].
  destruct (order_lines _ _ _ _) as [[missing | [lines subtotal]]|] eqn:Hlines;
    [by simplify_eq| |by simplify_eq].
  destruct (Order.save true _ _ _ _ _) as [[o1 m1]|] eqn:Hsave1; [|by simplify_eq].
  destruct (Order.addTrackingUpdate _ _ _ _ _ _ _) as [[o2 m2]|] eqn:Hsave2;
    [|by simplify_eq].
  simpl in Hrun.
  destruct (users db !! User._id user) as [account|] eqn:Haccount; [|by simplify_eq].
  apply order_save_Ok in Hsave1 as (_ & -> & -> & Hnew).
  apply addTrackingUpdate_Ok in Hsave2
    as (-> & Hcust & Hitems & Hsub & Htax & Htotal & Hstatus & _).
  pose proof (pre_save_fields now rnd
    (new_order now rnd user req lines subtotal (gst subtotal)
       (subtotal + gst subtotal))) as (Hcust1 & Hitems1 & Hsub1 & Htax1 & Htotal1 & _).
  simpl in Hcust1, Hitems1, Hsub1, Htax1, Htotal1.
  rewrite Hcust1 in Hcust. rewrite Hitems1 in Hitems. rewrite Hsub1 in Hsub.
  rewrite Htax1 in Htax. rewrite Htotal1 in Htotal.
  exists lines, subtotal, o2, account.
  assert (users db'
          = <[User._id user := User.record_order (subtotal + gst subtotal) account]> (users db)
          ∧ orders db' = <[oid := o2]> (orders db)
          ∧ data resp
            = OrderData o2 (Some (User.record_order (subtotal + gst subtotal) account)))
    as (? & ? & ?).
  { repeat case_match; simplify_eq; simpl;
      rewrite ?insert_insert_eq, ?Hcust, ?lookup_insert_eq; done. }
  split_and!; try done. by apply Hnew.
Qed.

(** C1. When the checkout answers 201, the order that it created and
    stored has one line per requested item, in the order of the request,
    each with the unit price of the active service, the requested
    quantity and their product as its subtotal; the subtotal of the order
    is the sum of those of the lines, the tax is the subtotal times 0.18
    rounded to the nearest integer, and the total is the subtotal plus the
    tax. *)
Theorem checkout_pricing (now : Z) (oid : string) (rnd : Z) (user : User.t)
    (req : Request) (db db' : Db) (resp : Response) :
  post_orders now oid rnd user req db = (db', resp) →
  code resp = 201 →
  ∃ order customer,
    data resp = OrderData order customer
    ∧ orders db' !! oid = Some order
    ∧ Forall2 (λ item line,
        ∃ service', Service.findOne (services db) (service item) = Ok (Some service')
          ∧ Order.quantity line = quantity item
          ∧ Order.price line = Service.price service'
          ∧ Order.subtotal line = Service.price service' * quantity item)
        (items req) (Order.items order)
    ∧ Order.order_subtotal order = total_of (Order.subtotal <$> Order.items order)
    ∧ Order.tax order = Math_round (Order.order_subtotal order * 18) 100
    ∧ 100 * Order.tax order - 50 ≤ 18 * Order.order_subtotal order
        < 100 * Order.tax order + 50
    ∧ Order.total order = Order.order_subtotal order + Order.tax order.
Proof.
  intros Hrun Hcode.
  destruct (post_orders_created _ _ _ _ _ _ _ _ Hrun Hcode)
    as (lines & subtotal & order & account & _ & _ & Hlines & _ & Hdata & Horders
        & _ & _ & Hitems & Hsub & Htax & Htotal & _).
  apply order_lines_inr in Hlines as (new & -> & Hpriced & ->).
  exists order, (Some (User.record_order (0 + total_of (Order.subtotal <$> new)
                   + gst (0 + total_of (Order.subtotal <$> new))) account)).
  simpl in Hitems. rewrite Hitems, Hsub, Htax, Htotal.
  split_and!; try done.
  - rewrite Horders. apply lookup_insert_eq.
  - eapply Forall2_impl; [exact Hpriced|].
    intros item line (service' & ? & ? & ? & ? & ? & ?). exists service'. done.
  - apply gst_nearest.
  - apply gst_nearest.
Qed.

(** C2, as the code has it. A checkout whose request fails the validation
    chain, or whose pickup date is not a date after the instant of the
    request, or one of whose items names a service that the catalogue does
    not have or has deactivated, is refused and the store is as it was: no
    order was created. The answer is 400, but for requests that pass the
    validation chain in two cases, where it is 500: the string of an item
    does not cast to an identifier, which [isMongoId] lets happen, or the
    pickup date is a string that [isISO8601] accepts and of which [Date]
    makes no date. *)
Theorem checkout_rejected (now : Z) (oid : string) (rnd : Z) (user : User.t)
    (req : Request) (db : Db) :
  validationResult req ≠ []
  ∨ (∀ t, pickupDate req = Some t → t ≤ now)
  ∨ (∃ item, item ∈ items req ∧ (uncastable item ∨ unavailable (services db) item)) →
  ∃ resp, post_orders now oid rnd user req db = (db, resp)
          ∧ (code resp = 400 ∨ code resp = 500)
          ∧ (code resp = 500 →
             validationResult req = []
             ∧ ((∃ item, item ∈ items req ∧ uncastable item) ∨ pickupDate req = None))
          ∧ orders (post_orders now oid rnd user req db).1 = orders db.
Proof.
  intros Hbad. unfold post_orders.
  destruct (validationResult req) as [|e errors] eqn:Hvalid;
    [|eexists; split_and!; [done | by left | done | done]].
  case_bool_decide as Hdate; [eexists; split_and!; [done | by left | done | done]|].
  destruct (order_lines (services db) (items req) [] 0)
    as [[missing | [lines subtotal]]|e] eqn:Hlines.
  - eexists. split_and!; [done | by left | done | done].
  - destruct Hbad as [? | [Hpast | Hmissing]]; [done | |].
    + destruct (pickupDate req) as [t|] eqn:Ht.
      { exfalso. apply Hdate. simpl. by apply Hpast. }
      destruct (order_save_without_pickupDate true now rnd oid
                  (new_order now rnd user req lines subtotal (gst subtotal)
                     (subtotal + gst subtotal)) (orders db)) as [e He].
      { simpl. exact Ht. }
      simpl. rewrite He.
      eexists. split_and!; [done | by right | | done].
      intros _. split; [done | by right].
    + destruct (order_lines_refused (services db) (items req) [] 0 Hmissing)
        as [[? ?] | [? ?]]; congruence.
  - eexists. split_and!; [done | by right | | done].
    intros _. split; [done|]. left. by eapply order_lines_Err.
Qed.

(** *** Reviews *)

Lemma findOne_Some {A} (P : A → Prop) `{!∀ x, Decision (P x)}
    (collection : gmap string A) id doc :
  findOne P collection id = Some doc ↔ collection !! id = Some doc ∧ P doc.
Proof.
  unfold findOne. destruct (collection !! id) as [d|].
  - case_bool_decide as HP; split.
    + by intros [= ->].
    + by intros [[= ->] _].
    + done.
    + by intros [[= ->] ?].
  - split; [done | by intros [? _]].
Qed.

Lemma check_nil (failed : Prop) `{!Decision failed} msg :
  Order.check failed msg = [] ↔ ¬ failed.
Proof. unfold Order.check. case_bool_decide; naive_solver. Qed.

Lemma validate_rating o :
  Order.validate o = [] →
  match Order.rating o with Some r => 1 ≤ r ≤ 5 | None => True end.
Proof.
  unfold Order.validate. rewrite !app_nil.
  intros (_ & _ & _ & _ & _ & _ & _ & _ & _ & _ & _ & Hlow & Hhigh & _).
  apply check_nil in Hlow, Hhigh.
  destruct (Order.rating o) as [r|]; [|done].
  unfold Order.below, Order.above in *. lia.
Qed.

Lemma save_reviewed isNew now rnd id' o o' m' r v db id :
  Order.save isNew now rnd id' o (orders db) = Ok (o', m') →
  reviewed_as r v db id →
  (id' = id → isNew = false → Order.rating o = r ∧ Order.review o = v) →
  reviewed_as r v (with_orders db m') id.
Proof.
  intros (_ & -> & -> & Hnew)%order_save_Ok (old & Hold & Hr & Hv) Hsame.
  pose proof (pre_save_fields now rnd o) as (_ & _ & _ & _ & _ & _ & Hr' & Hv').
  unfold reviewed_as; simpl.
  destruct (decide (id' = id)) as [->|Hid].
  - destruct isNew.
    + rewrite Hold in Hnew. by specialize (Hnew eq_refl).
    + destruct (Hsame eq_refl eq_refl) as [? ?].
      eexists. rewrite lookup_insert_eq. split_and!; [done|congruence..].
  - exists old. by rewrite lookup_insert_ne.
Qed.

Lemma reviewed_as_lookup r v db id order :
  reviewed_as r v db id → orders db !! id = Some order →
  Order.rating order = r ∧ Order.review order = v.
Proof. intros (o & Ho & ? & ?) Hlook. by simplify_eq. Qed.

Lemma addTrackingUpdate_reviewed st msg now rnd id' o o' m' r v db id :
  Order.addTrackingUpdate st msg now rnd id' o (orders db) = Ok (o', m') →
  orders db !! id' = Some o →
  reviewed_as r v db id →
  reviewed_as r v (with_orders db m') id.
Proof.
  unfold Order.addTrackingUpdate. intros Hsave Ho Hdb.
  eapply save_reviewed; [exact Hsave | exact Hdb |].
  intros -> _. simpl. by eapply reviewed_as_lookup.
Qed.

(** The orders that the checkout leaves: those it found, or those and the
    new one under a fresh identifier. *)
Lemma post_orders_orders now oid rnd user req db :
  orders (post_orders now oid rnd user req db).1 = orders db
  ∨ (orders db !! oid = None
     ∧ ∃ order, Order.validate order = []
                ∧ orders (post_orders now oid rnd user req db).1
                  = <[oid := order]> (orders db)).
Proof.
  unfold post_orders.
  destruct (validationResult req); [|by left].
  case_bool_decide; [by left|].
  destruct (order_lines _ _ _ _) as [[missing | [lines subtotal]]|]; [by left| |by left].
  destruct (Order.save true _ _ _ _ _) as [[o1 m1]|] eqn:Hsave1; [|by left].
  apply order_save_Ok in Hsave1 as (Hvalid1 & -> & -> & Hnew).
  right. split; [by apply Hnew|].
  destruct (Order.addTrackingUpdate _ _ _ _ _ _ _) as [[o2 m2]|] eqn:Hsave2.
  - unfold Order.addTrackingUpdate in Hsave2.
    apply order_save_Ok in Hsave2 as (Hvalid2 & -> & -> & _).
    eexists. split; [by rewrite validate_pre_save|].
    repeat case_match; simpl; by rewrite insert_insert_eq.
  - eexists. split; [|done]. by rewrite validate_pre_save.
Qed.

(** No request touches the rating of an order once it is set. *)
Lemma step_reviewed r v db db' id :
  step db db' → truthy r → reviewed_as r v db id → reviewed_as r v db' id.
Proof.
  intros Hstep Hr Hdb.
  destruct Hstep as [now oid rnd user req db | now rnd user id' name msg db
                    | now rnd user id' rating' review' db | now rnd user id' db].
  - destruct (post_orders_orders now oid rnd user req db)
      as [Hsame | (Hfresh & order & _ & Hnew)].
    + unfold reviewed_as. by rewrite Hsame.
    + destruct Hdb as (o & Ho & ? & ?). exists o. rewrite Hnew.
      rewrite lookup_insert_ne; [done | congruence].
  - unfold put_status.
    destruct (requireAdmin user); [done|].
    destruct (fails _ _ ++ _), (parse_status name) as [st|]; try done.
    destruct (orders db !! id') as [order|] eqn:Horder; [|done].
    destruct (Order.addTrackingUpdate _ _ _ _ _ _ _) as [[o1 m1]|] eqn:Hsave1; [|done].
    pose proof (addTrackingUpdate_reviewed _ _ _ _ _ _ _ _ r v db id Hsave1 Horder Hdb)
      as Hdb1.
    case_bool_decide; [|done].
    destruct (Order.save false _ _ _ _ _) as [[o2 m2]|] eqn:Hsave2; [|done].
    apply addTrackingUpdate_Ok in Hsave1 as (-> & Hfields).
    apply (save_reviewed _ _ _ _ _ _ _ r v (with_orders db _) id Hsave2) in Hdb1.
    + exact Hdb1.
    + intros -> _. simpl.
      eapply (reviewed_as_lookup r v (with_orders db _)); [exact Hdb1|].
      simpl. apply lookup_insert_eq.
  - unfold post_review.
    destruct (fails _ _ ++ _); [|done].
    destruct (findOne _ _ _) as [order|] eqn:Horder; [|done].
    apply findOne_Some in Horder as [Horder _].
    case_bool_decide as Hrated; [done|].
    destruct (Order.save false _ _ _ _ _) as [[o1 m1]|] eqn:Hsave1; [|done].
    eapply save_reviewed; [exact Hsave1 | exact Hdb |].
    intros -> _. exfalso. apply Hrated.
    by destruct (reviewed_as_lookup _ _ _ _ _ Hdb Horder) as [-> _].
  - unfold delete_order.
    destruct (findOne _ _ _) as [order|] eqn:Horder; [|done].
    apply findOne_Some in Horder as [Horder _].
    destruct (negb _); [done|].
    destruct (Order.addTrackingUpdate _ _ _ _ _ _ _) as [[o1 m1]|] eqn:Hsave1; [|done].
    by eapply addTrackingUpdate_reviewed.
Qed.

Lemma steps_reviewed r v db db' id :
  rtc step db db' → truthy r → reviewed_as r v db id → reviewed_as r v db' id.
Proof. induction 1; eauto using step_reviewed. Qed.

Lemma save_orders_valid isNew now rnd id o o' m' db :
  Order.save isNew now rnd id o (orders db) = Ok (o', m') →
  orders_valid db → orders_valid (with_orders db m').
Proof.
  intros (Hvalid & -> & -> & _)%order_save_Ok Hdb.
  unfold orders_valid; simpl. apply map_Forall_insert_2; [|done].
  by rewrite validate_pre_save.
Qed.

(** Every write goes through [save]: the stored orders stay valid. *)
Lemma step_orders_valid db db' : step db db' → orders_valid db → orders_valid db'.
Proof.
  intros Hstep Hdb.
  destruct Hstep as [now oid rnd user req db | now rnd user id' name msg db
                    | now rnd user id' rating' review' db | now rnd user id' db].
  - destruct (post_orders_orders now oid rnd user req db)
      as [Hsame | (_ & order & Hvalid & Hnew)]; unfold orders_valid.
    + by rewrite Hsame.
    + rewrite Hnew. by apply map_Forall_insert_2.
  - unfold put_status.
    destruct (requireAdmin user); [done|].
    destruct (fails _ _ ++ _), (parse_status name) as [st|]; try done.
    destruct (orders db !! id') as [order|]; [|done].
    destruct (Order.addTrackingUpdate _ _ _ _ _ _ _) as [[o1 m1]|] eqn:Hsave1; [|done].
    apply save_orders_valid in Hsave1; [|done].
    case_bool_decide; [|done].
    destruct (Order.save false _ _ _ _ _) as [[o2 m2]|] eqn:Hsave2; [|done].
    by apply (save_orders_valid _ _ _ _ _ _ _ (with_orders db m1)) in Hsave2.
  - unfold post_review.
    destruct (fails _ _ ++ _); [|done].
    destruct (findOne _ _ _) as [order|]; [|done].
    case_bool_decide; [done|].
    destruct (Order.save false _ _ _ _ _) as [[o1 m1]|] eqn:Hsave1; [|done].
    by eapply save_orders_valid.
  - unfold delete_order.
    destruct (findOne _ _ _) as [order|]; [|done].
    destruct (negb _); [done|].
    destruct (Order.addTrackingUpdate _ _ _ _ _ _ _) as [[o1 m1]|] eqn:Hsave1; [|done].
    by eapply save_orders_valid.
Qed.

(** A review of an order that carries a rating is turned down, and nothing
    is written. *)
Lemma post_review_rejected now rnd user id rating' review' r v db :
  reviewed_as r v db id → truthy r →
  ∃ resp, post_review now rnd user id rating' review' db = (db, resp)
          ∧ (code resp = 400 ∨ code resp = 404).
Proof.
  intros Hdb Hr. unfold post_review.
  destruct (fails _ _ ++ _); [|eexists; split; [done | by left]].
  destruct (findOne _ _ _) as [order|] eqn:Horder;
    [|eexists; split; [done | by right]].
  apply findOne_Some in Horder as [Horder _].
  destruct (reviewed_as_lookup _ _ _ _ _ Hdb Horder) as [-> _].
  rewrite bool_decide_eq_true_2 by done.
  eexists; split; [done | by left].
Qed.

(** C5. A review is accepted only of an order of the customer that is
    delivered and carries no rating; it stores the rating and the text
    together. From then on, whatever requests follow, every further review
    of that order is answered with an error (400 or 404) and writes
    nothing, and the stored rating and text stay those of the first
    review. *)
Theorem review_only_once (now rnd : Z) (user : User.t) (id : string) (rating' : Z)
    (review' : option string) (db db' : Db) (resp : Response) :
  orders_valid db →
  post_review now rnd user id rating' review' db = (db', resp) →
  code resp = 200 →
  (∃ order, orders db !! id = Some order
            ∧ Order.customer order = User._id user
            ∧ Order.status order = Order.delivered
            ∧ Order.rating order = None)
  ∧ 1 ≤ rating' ≤ 5
  ∧ reviewed_as (Some rating') review' db' id
  ∧ ∀ db'', rtc step db' db'' →
      reviewed_as (Some rating') review' db'' id
      ∧ ∀ now2 rnd2 user2 rating2 review2,
          ∃ resp2, post_review now2 rnd2 user2 id rating2 review2 db'' = (db'', resp2)
                   ∧ (code resp2 = 400 ∨ code resp2 = 404).
Proof.
  intros Hvalid Hrun Hcode. unfold post_review in Hrun.
  destruct (fails (bool_decide (1 ≤ rating' ≤ 5)) _) eqn:Hrating;
    [|simpl in Hrun; by simplify_eq].
  unfold fails in Hrating. case_bool_decide as Hrange; [|done].
  simpl in Hrun.
  destruct (match review' with Some _ => _ | None => _ end); [|by simplify_eq].
  destruct (findOne _ _ _) as [order|] eqn:Horder; [|by simplify_eq].
  apply findOne_Some in Horder as (Horder & Hcustomer & Hstatus).
  case_bool_decide as Hrated; [by simplify_eq|].
  destruct (Order.save false _ _ _ _ _) as [[o1 m1]|] eqn:Hsave; [|by simplify_eq].
  simplify_eq.
  assert (Order.rating order = None) as Hnone.
  { pose proof (validate_rating order (Hvalid _ _ Horder)) as Hbounds.
    destruct (Order.rating order) as [r|]; [|done].
    exfalso. apply Hrated. simpl. lia. }
  assert (reviewed_as (Some rating') review' (with_orders db m1) id) as Hdb'.
  { apply order_save_Ok in Hsave as (_ & -> & -> & _).
    pose proof (pre_save_fields now rnd (Order.with_review order (Some rating') review'))
      as (_ & _ & _ & _ & _ & _ & Hr & Hv).
    eexists. simpl. rewrite lookup_insert_eq. split_and!; done. }
  assert (truthy (Some rating')) as Htruthy by (simpl; lia).
  split_and!; [by exists order | lia | lia | done |].
  intros db'' Hsteps.
  pose proof (steps_reviewed _ _ _ _ _ Hsteps Htruthy Hdb') as Hdb''.
  split; [done|]. intros now2 rnd2 user2 rating2 review2.
  by eapply post_review_rejected.
Qed.

(** *** Cancellation *)

(** C6. The cancellation of an order is answered 200 only when the order
    was pending or confirmed, and then leaves it cancelled; in any other
    status it is answered with an error, 400 to the customer of the order
    and to an administrator, and the store, the status of the order with
    it, is as it was. *)
Theorem cancel_only_pending_or_confirmed (now rnd : Z) (user : User.t) (id : string)
    (db db' : Db) (resp : Response) :
  delete_order now rnd user id db = (db', resp) →
  (code resp = 200 →
     ∃ order order', orders db !! id = Some order
       ∧ (Order.status order = Order.pending ∨ Order.status order = Order.confirmed)
       ∧ orders db' !! id = Some order'
       ∧ Order.status order' = Order.cancelled)
  ∧ (∀ order, orders db !! id = Some order →
       Order.status order ≠ Order.pending → Order.status order ≠ Order.confirmed →
       db' = db
       ∧ (code resp = 400 ∨ code resp = 404)
       ∧ (User.role user = User.admin ∨ Order.customer order = User._id user →
          code resp = 400)).
Proof.
  unfold delete_order. intros Hrun.
  destruct (findOne _ _ _) as [order|] eqn:Horder.
  - apply findOne_Some in Horder as [Horder Hmine].
    destruct (cancellable (Order.status order)) eqn:Hstatus; simpl in Hrun.
    + unfold cancellable in Hstatus. apply bool_decide_eq_true in Hstatus.
      rewrite !elem_of_cons, elem_of_nil in Hstatus.
      split.
      * intros Hcode.
        destruct (Order.addTrackingUpdate _ _ _ _ _ _ _) as [[o1 m1]|] eqn:Hsave;
          [|by simplify_eq].
        apply addTrackingUpdate_Ok in Hsave as (-> & _ & _ & _ & _ & _ & Hst & _).
        simplify_eq. exists order, o1. simpl. rewrite lookup_insert_eq.
        split_and!; [done | tauto | done | done].
      * intros order' Horder' Hnp Hnc. simplify_eq. tauto.
    + simplify_eq. split; [done|].
      intros order' Horder' _ _. split_and!; [done | by left | done].
  - injection Hrun as <- <-. split; [done|].
    intros order Hfind _ _. split_and!; [done | by right |].
    intros Hmine. exfalso.
    assert (findOne (λ order, User.role user ≠ User.admin →
                              Order.customer order = User._id user) (orders db) id
            = Some order) as Hfound; [|congruence].
    apply findOne_Some. split; [done|]. intros Hrole. by destruct Hmine.
Qed.

(** *** The properties on the sample store *)

Lemma checkout_pricing_witness :
  ∃ order, orders Sample.after_checkout !! Sample.first_order = Some order
           ∧ Order.order_subtotal order = 200
           ∧ Order.tax order = 36
           ∧ Order.total order = 236.
Proof.
  destruct (checkout_pricing 1000 Sample.first_order 7 Sample.test_user Sample.checkout
              Sample.db Sample.after_checkout
              (post_orders 1000 Sample.first_order 7 Sample.test_user Sample.checkout
                 Sample.db).2)
    as (order & customer & Hdata & Hstored & _).
  - vm_compute. reflexivity.
  - vm_compute. reflexivity.
  - exists order. split; [exact Hstored|].
    vm_compute in Hstored. injection Hstored as <-.
    vm_compute. repeat split.
Defined.

Lemma checkout_rejected_witness :
  (∃ resp, post_orders 1000 Sample.first_order 7 Sample.test_user
             Sample.checkout_of_prefixed Sample.db = (Sample.db, resp)
           ∧ validationResult Sample.checkout_of_prefixed = []
           ∧ code resp = 500)
  ∧ (∃ resp, post_orders 3000 Sample.first_order 7 Sample.test_user
               Sample.checkout Sample.db = (Sample.db, resp)
             ∧ (code resp = 400 ∨ code resp = 500))
  ∧ (∃ resp, post_orders 1000 Sample.first_order 7 Sample.test_user
               Sample.checkout_of_retired Sample.db = (Sample.db, resp)
             ∧ (code resp = 400 ∨ code resp = 500))
  ∧ (∃ resp, post_orders 1000 Sample.first_order 7 Sample.test_user
               Sample.checkout_of_week_date Sample.db = (Sample.db, resp)
             ∧ validationResult Sample.checkout_of_week_date = []
             ∧ code resp = 500).
Proof.
  split_and!.
  - destruct (checkout_rejected 1000 Sample.first_order 7 Sample.test_user
                Sample.checkout_of_prefixed Sample.db) as (resp & Hrun & _).
    + right; right.
      exists {| service := Sample.prefixed; quantity := 1 |}.
      split; [left | left; reflexivity].
    + exists resp. split; [exact Hrun|]. split; [reflexivity|].
      vm_compute in Hrun. injection Hrun as <-. reflexivity.
  - destruct (checkout_rejected 3000 Sample.first_order 7 Sample.test_user
                Sample.checkout Sample.db) as (resp & Hrun & Hcode & _).
    + right; left. intros t [= <-]. lia.
    + exists resp. split; [exact Hrun | exact Hcode].
  - destruct (checkout_rejected 1000 Sample.first_order 7 Sample.test_user
                Sample.checkout_of_retired Sample.db) as (resp & Hrun & Hcode & _).
    + right; right.
      exists {| service := Sample.retired_service; quantity := 1 |}.
      split; [right; left|]. right. exists Sample.retired_service.
      split; [reflexivity|]. by apply findOne_active_None.
    + exists resp. split; [exact Hrun | exact Hcode].
  - destruct (checkout_rejected 1000 Sample.first_order 7 Sample.test_user
                Sample.checkout_of_week_date Sample.db) as (resp & Hrun & _).
    + right; left. intros t [=].
    + exists resp. split; [exact Hrun|]. split; [reflexivity|].
      vm_compute in Hrun. injection Hrun as <-. reflexivity.
Defined.

Lemma orders_valid_after_delivery : orders_valid Sample.after_delivery.
Proof.
  apply (step_orders_valid Sample.after_checkout); [apply step_status|].
  apply (step_orders_valid Sample.db); [apply step_checkout|].
  apply map_Forall_empty.
Qed.

Lemma review_only_once_witness :
  reviewed_as (Some 5) (Some "Spotless"%string)
    (post_review 6000 7 Sample.test_user Sample.first_order 5 (Some "Spotless"%string)
       Sample.after_delivery).1 Sample.first_order
  ∧ ∃ resp2,
      post_review 7000 7 Sample.test_user Sample.first_order 1 None
        (post_review 6000 7 Sample.test_user Sample.first_order 5 (Some "Spotless"%string)
           Sample.after_delivery).1
      = ((post_review 6000 7 Sample.test_user Sample.first_order 5
            (Some "Spotless"%string) Sample.after_delivery).1, resp2)
      ∧ (code resp2 = 400 ∨ code resp2 = 404).
Proof.
  destruct (review_only_once 6000 7 Sample.test_user Sample.first_order 5
              (Some "Spotless"%string) Sample.after_delivery
              (post_review 6000 7 Sample.test_user Sample.first_order 5
                 (Some "Spotless"%string) Sample.after_delivery).1
              (post_review 6000 7 Sample.test_user Sample.first_order 5
                 (Some "Spotless"%string) Sample.after_delivery).2)
    as (_ & _ & Hstored & Hlater).
  - exact orders_valid_after_delivery.
  - vm_compute. reflexivity.
  - vm_compute. reflexivity.
  - split; [exact Hstored|].
    destruct (Hlater _ (rtc_refl _ _)) as [_ Hsecond].
    apply Hsecond.
Defined.

Lemma cancel_only_pending_or_confirmed_witness :
  (∃ order', orders (delete_order 2000 7 Sample.test_user Sample.first_order
                      Sample.after_checkout).1 !! Sample.first_order = Some order'
             ∧ Order.status order' = Order.cancelled)
  ∧ (delete_order 6000 7 Sample.test_user Sample.first_order Sample.after_delivery).1
    = Sample.after_delivery
  ∧ code (delete_order 6000 7 Sample.test_user Sample.first_order
            Sample.after_delivery).2 = 400.
Proof.
  split.
  - destruct (cancel_only_pending_or_confirmed 2000 7 Sample.test_user Sample.first_order
                Sample.after_checkout
                (delete_order 2000 7 Sample.test_user Sample.first_order
                   Sample.after_checkout).1
                (delete_order 2000 7 Sample.test_user Sample.first_order
                   Sample.after_checkout).2) as [Hdone _].
    + vm_compute. reflexivity.
    + destruct Hdone as (order & order' & _ & _ & Hstored & Hstatus).
      * vm_compute. reflexivity.
      * exists order'. split; [exact Hstored | exact Hstatus].
  - destruct (cancel_only_pending_or_confirmed 6000 7 Sample.test_user Sample.first_order
                Sample.after_delivery
                (delete_order 6000 7 Sample.test_user Sample.first_order
                   Sample.after_delivery).1
                (delete_order 6000 7 Sample.test_user Sample.first_order
                   Sample.after_delivery).2) as [_ Hkept].
    + vm_compute. reflexivity.
    + assert (∃ order, orders Sample.after_delivery !! Sample.first_order = Some order
                       ∧ Order.status order = Order.delivered
                       ∧ Order.customer order = User._id Sample.test_user)
        as (order & Hstored & Hstatus & Hmine).
      { eexists. split; [vm_compute; reflexivity|]. split; reflexivity. }
      destruct (Hkept order Hstored) as (Hsame & _ & Hcode).
      * rewrite Hstatus. discriminate.
      * rewrite Hstatus. discriminate.
      * split; [exact Hsame|]. apply Hcode. by right.
Defined.

End order_properties.

(** ** The catalogue *)

Section catalogue_properties.
Import Services.

Lemma found_selected index q catalog x :
  x ∈ found index q catalog → x ∈ catalog ∧ selected q x.
Proof.
  unfold found. intros Hx.
  repeat case_match; rewrite merge_sort_Permutation in Hx;
    apply list_elem_of_filter in Hx; tauto.
Qed.

Lemma get_services_listed index q db x :
  x ∈ listed (get_services index q db) → x ∈ services db ∧ selected q x.
Proof.
  unfold get_services, listed.
  destruct (validationResult q); simpl; [|by intros ?%elem_of_nil].
  case_bool_decide; simpl; [by intros ?%elem_of_nil|].
  intros Hx. apply (found_selected index).
  by apply (subseteq_drop (Z.to_nat ((or_default (page q) 1 - 1) * or_default (limit q) 20))),
           (subseteq_take (Z.to_nat (Z.abs (or_default (limit q) 20)))).
Qed.






(** The soft delete leaves the entry in the catalogue, deactivated. *)
Lemma delete_service_keeps_entry user id oid db db' resp s :
  delete_service user id db = (db', resp) → code resp = 200 →
  Text.castObjectId id = Some oid →
  Service.findById (services db) oid = Some s →
  Service.findById (services db') oid = Some (Service.with_isActive s false)
  ∧ length (services db') = length (services db).
Proof.
  unfold delete_service, Service.deactivate, Service.findById, requireAdmin.
  case_bool_decide; [|by intros [= <- <-]].
  intros Hrun Hcode Hcast. rewrite Hcast in Hrun. revert Hrun Hcode.
  destruct (list_find _ _) as [[i x]|] eqn:Hfind; [|by intros [= <- <-]].
  intros [= <- <-] _ [= <-]. simpl. split; [|by rewrite length_insert].
  apply list_find_Some in Hfind as (Hi & Hid & Hfirst).
  rewrite (proj2 (list_find_Some _ _ i (Service.with_isActive x false))); [done|].
  split_and!.
  - apply list_lookup_insert_eq. by eapply lookup_lt_Some.
  - done.
  - intros j y Hj Hlt. rewrite list_lookup_insert_ne in Hj by lia. by eapply Hfirst.
Qed.



End catalogue_properties.

(** ** Accounts *)

Section account_properties.
Import Users.

(** The method computes the tier that the spec words. *)
Lemma updateMembershipTier_tier_of u :
  User.membershipTier (User.updateMembershipTier u) = User.tier_of (User.totalSpent u)
  ∧ User.totalSpent (User.updateMembershipTier u) = User.totalSpent u.
Proof.
  unfold User.updateMembershipTier, User.tier_of.
  repeat case_bool_decide; simpl; split; try done; lia.
Qed.

Lemma record_order_tier total u :
  User.tier_matches_spend (User.record_order total u)
  ∧ User.totalSpent (User.record_order total u) = User.totalSpent u + total
  ∧ User.totalOrders (User.record_order total u) = User.totalOrders u + 1.
Proof.
  unfold User.record_order, User.tier_matches_spend.
  match goal with |- context [User.updateMembershipTier ?x] =>
    pose proof (updateMembershipTier_tier_of x) as [Htier Hspent]; simpl in Hspent
  end.
  rewrite Htier, Hspent. split_and!; [done..|].
  unfold User.updateMembershipTier. repeat case_bool_decide; done.
Qed.

Lemma mutate_keeps_tier m u :
  is_override m = false →
  User.tier_matches_spend u → User.tier_matches_spend (mutate m u).
Proof.
  destruct m; simpl; try done; intros _ Hu.
  apply record_order_tier.
Qed.

(** C3, as it holds. On an account that was registered and then changed
    by the routes other than the override of the membership tier, after
    every one of those mutations, the tier is the one implied by
    [totalSpent]: bronze below 10000, silver below 25000, gold below 50000,
    platinum otherwise; and every mutation other than the override keeps
    that agreement on whatever account has it. On every account: the
    statistics update of a checkout adds the total to [totalSpent] and
    leaves the tier implied by the new [totalSpent]; every other mutation
    but the override leaves the tier and [totalSpent] as they were; the
    override stores the tier it is given and leaves [totalSpent] as it was,
    and that is what [PUT /api/users/:id/membership] stores for an
    administrator who names one of the four tiers. *)
Theorem membership_tier_follows_spend (u : User.t) :
  (without_override u → User.membershipTier u = User.tier_of (User.totalSpent u))
  ∧ (∀ m, is_override m = false →
          User.membershipTier u = User.tier_of (User.totalSpent u) →
          User.membershipTier (mutate m u) = User.tier_of (User.totalSpent (mutate m u)))
  ∧ (∀ total, User.membershipTier (User.record_order total u)
              = User.tier_of (User.totalSpent u + total)
              ∧ User.totalSpent (User.record_order total u) = User.totalSpent u + total)
  ∧ (∀ m, is_override m = false → (∀ total, m ≠ RecordOrder total) →
          User.membershipTier (mutate m u) = User.membershipTier u
          ∧ User.totalSpent (mutate m u) = User.totalSpent u)
  ∧ (∀ tier, User.membershipTier (mutate (SetMembership tier) u) = tier
             ∧ User.totalSpent (mutate (SetMembership tier) u) = User.totalSpent u)
  ∧ (∀ administrator tier_name tier db,
       User.role administrator = User.admin →
       parse_tier tier_name = Some tier →
       users db !! User._id u = Some u →
       put_membership administrator (User._id u) tier_name db
       = (with_users db (<[User._id u := mutate (SetMembership tier) u]> (users db)),
          respond 200 ("User membership tier updated to " +:+ tier_name)
            (UserData (mutate (SetMembership tier) u)))).
Proof.
  split_and!.
  - induction 1 as [| m u Hu IH Hm]; [done|]. by apply mutate_keeps_tier.
  - intros m Hm Hu. by apply mutate_keeps_tier.
  - intros total. destruct (record_order_tier total u) as (Htier & Hspent & _).
    unfold User.tier_matches_spend in Htier. by rewrite Htier, Hspent.
  - intros m Hm Hother. destruct m; simpl; try done. by destruct (Hother total).
  - done.
  - intros administrator tier_name tier db Hrole Htier Hu.
    unfold put_membership, requireAdmin.
    rewrite bool_decide_eq_true_2 by done. by rewrite Htier, Hu.
Qed.

(** The checkout stores the account with its tier recomputed. *)
Lemma checkout_recomputes_tier now oid rnd user req db db' resp :
  Orders.post_orders now oid rnd user req db = (db', resp) →
  code resp = 201 →
  ∃ account', users db' !! User._id user = Some account'
              ∧ User.membershipTier account' = User.tier_of (User.totalSpent account').
Proof.
  intros Hrun Hcode.
  destruct (post_orders_created _ _ _ _ _ _ _ _ Hrun Hcode)
    as (lines & subtotal & order & account & _ & _ & _ & _ & _ & _ & _ & Husers & _).
  eexists. rewrite Husers, lookup_insert_eq. split; [done|].
  apply record_order_tier.
Qed.

Lemma membership_tier_follows_spend_witness :
  User.membershipTier (mutate (RecordOrder 12500) (mutate (Login 1000) Sample.test_user))
  = User.silver
  ∧ User.membershipTier (User.record_order 26000 Sample.admin_user) = User.gold
  ∧ User.membershipTier (mutate (Login 1000) Sample.test_user) = User.bronze
  ∧ (put_membership Sample.admin_user Sample.customer "platinum" Sample.db).1
    = with_users Sample.db
        (<[Sample.customer := User.with_membershipTier Sample.test_user User.platinum]>
           (users Sample.db)).
Proof.
  destruct (membership_tier_follows_spend
              (mutate (RecordOrder 12500) (mutate (Login 1000) Sample.test_user)))
    as (Hregistered & _).
  destruct (membership_tier_follows_spend Sample.admin_user) as (_ & _ & Hcheckout & _).
  destruct (membership_tier_follows_spend Sample.test_user)
    as (_ & _ & _ & Hother & _ & Hroute).
  split_and!.
  - rewrite Hregistered; [reflexivity|].
    apply account_mutated; [|reflexivity].
    apply account_mutated; [|reflexivity].
    apply account_registered.
  - destruct (Hcheckout 26000) as [-> _]. reflexivity.
  - destruct (Hother (Login 1000)) as [-> _]; [reflexivity | discriminate | reflexivity].
  - assert (users Sample.db !! User._id Sample.test_user = Some Sample.test_user) as Hstored
      by (vm_compute; reflexivity).
    exact (f_equal fst
             (Hroute Sample.admin_user "platinum"%string User.platinum Sample.db
                eq_refl eq_refl Hstored)).
Defined.

(** C3, as the spec words it, fails on the route that overrides the tier:
    an administrator sets the account of the sample store, which has spent
    nothing, to platinum; the answer is 200 and the stored tier is not the
    bronze that a [totalSpent] of 0 implies. *)
Lemma membership_override_breaks_tier :
  ∃ account,
    code (put_membership Sample.admin_user Sample.customer "platinum" Sample.db).2 = 200
    ∧ users (put_membership Sample.admin_user Sample.customer "platinum" Sample.db).1
        !! Sample.customer = Some account
    ∧ User.totalSpent account = 0
    ∧ User.membershipTier account = User.platinum
    ∧ User.tier_of (User.totalSpent account) = User.bronze
    ∧ User.membershipTier account ≠ User.tier_of (User.totalSpent account).
Proof.
  eexists. split_and!; [reflexivity | vm_compute; reflexivity | reflexivity..| discriminate].
Qed.

End account_properties.

(** * Further properties *)

(** ** Lists and sums, continued *)

Lemma filter_keeps_all {A} (P : A → Prop) `{!∀ x, Decision (P x)} (l : list A) :
  Forall P l → filter P l = l.
Proof.
  induction 1 as [|x l Hx _ IH]; [done|].
  rewrite filter_cons_True by done. by rewrite IH.
Qed.

Lemma filter_nil_Forall {A} (P : A → Prop) `{!∀ x, Decision (P x)} (l : list A) :
  filter P l = [] → Forall (λ x, ¬ P x) l.
Proof.
  intros Hnil. apply Forall_forall. intros x Hx HP.
  by apply (filter_nil_not_elem_of P l x).
Qed.

Lemma total_of_app l k : total_of (l ++ k) = total_of l + total_of k.
Proof. unfold total_of. induction l as [|x l IH]; simpl; lia. Qed.

Lemma total_of_filter_split {A} (f : A → Z) (P : A → Prop) `{!∀ x, Decision (P x)}
    (l : list A) :
  total_of (f <$> l)
  = total_of (f <$> filter P l) + total_of (f <$> filter (λ x, ¬ P x) l).
Proof.
  induction l as [|x l IH]; [done|].
  rewrite !filter_cons. csimpl.
  destruct (decide (P x)), (decide (¬ P x)); try done; csimpl;
    unfold total_of in *; simpl; lia.
Qed.



(** ** Carts, continued *)

Section cart_methods.
Import Cart.



Lemma find_item_none c serviceId :
  lines_of serviceId c = [] → find_item serviceId (items c) = None.
Proof. intros Hnone. apply list_find_None. exact (filter_nil_Forall _ _ Hnone). Qed.


Lemma lines_of_other_filter (l : list Item) serviceId other :
  other ≠ serviceId →
  filter (λ item, service item = other) (filter (λ item, service item ≠ serviceId) l)
  = filter (λ item, service item = other) l.
Proof.
  intros Hne. rewrite list_filter_filter. apply list_filter_iff.
  intros x. split; [tauto | intros Hx; split; [done | congruence]].
Qed.

(** X2. On a stored cart [removeItem] is always saved; it drops the line of
    the service and nothing else: the lines of every other service are as
    they were, [totalItems] falls by the quantity that was held of the
    service, and a cart without the service keeps all its lines. *)
Theorem removeItem_removes_only_that_service (serviceId : string) (now : Z) (c : t) :
  stored c →
  ∃ c', removeItem serviceId now c = Ok c'
        ∧ lines_of serviceId c' = []
        ∧ (∀ other, other ≠ serviceId → lines_of other c' = lines_of other c)
        ∧ totalItems c' = totalItems c - quantity_of serviceId c
        ∧ (lines_of serviceId c = [] → items c' = items c).
Proof.
  intros Hc. pose proof (stored_items_valid c Hc) as Hvalid.
  pose proof (stored_totals c Hc) as [Hitems _].
  eexists. split.
  { apply save_valid. simpl. by apply Forall_valid_filter. }
  unfold lines_of, quantity_of, lines_of. simpl. split_and!.
  - rewrite list_filter_filter. apply filter_none, Forall_forall.
    intros x _ [? ?]. done.
  - intros other Hother. by apply lines_of_other_filter.
  - rewrite foldl_add_total, Hitems.
    rewrite (total_of_filter_split quantity (λ item, service item = serviceId) (items c)).
    lia.
  - intros Hnone. apply filter_keeps_all. exact (filter_nil_Forall _ _ Hnone).
Qed.

(** X3. Adding a service that a stored cart does not hold and removing it
    again gives back the lines and the totals that the cart had, however
    the document of [addItem] was read, provided the [find] does not throw
    on it. *)
Theorem addItem_then_removeItem_restores (doc : Loaded) (serviceId : string)
    (q p now1 now2 : Z) (c : t) :
  stored c →
  readable doc c →
  lines_of serviceId c = [] →
  1 ≤ q ≤ 50 →
  0 ≤ p →
  ∃ c1 c2, addItem doc serviceId q p now1 c = Ok c1
           ∧ removeItem serviceId now2 c1 = Ok c2
           ∧ items c2 = items c
           ∧ totalItems c2 = totalItems c
           ∧ totalPrice c2 = totalPrice c.
Proof.
  intros Hc Hdoc Hnone Hq Hp. pose proof (stored_items_valid c Hc) as Hvalid.
  pose proof (stored_totals c Hc) as [HtotalItems HtotalPrice].
  assert (find doc serviceId (items c) = Ok None) as Hfind.
  { destruct doc as [|known]; simpl.
    - by rewrite (find_item_none c serviceId Hnone).
    - by rewrite bool_decide_eq_true_2. }
  unfold addItem, removeItem. rewrite Hfind.
  pose proof (filter_nil_Forall _ _ Hnone) as Hothers.
  assert (filter (λ item, service item ≠ serviceId)
            (items c ++ [{| service := serviceId; quantity := q; price := p |}])
          = items c) as Hback.
  { rewrite filter_app, filter_keeps_all by done.
    rewrite filter_cons_False by (simpl; intros ?; done). apply app_nil_r. }
  eexists _, _. split.
  { apply save_valid. simpl. apply Forall_app. split; [done|].
    apply Forall_singleton. split; [done | by simpl]. }
  simpl. rewrite Hback. split; [by apply save_valid|].
  simpl. rewrite !foldl_add_total. split_and!; [done | lia | lia].
Qed.



(** X5. [updateItemQuantity] for a service that the stored cart does not
    hold is saved whatever the quantity and creates no line: the lines and
    the totals stay. *)
Theorem updateItemQuantity_absent_service (serviceId : string) (q now : Z) (c : t) :
  stored c →
  lines_of serviceId c = [] →
  ∃ c', updateItemQuantity serviceId q now c = Ok c'
        ∧ items c' = items c
        ∧ totalItems c' = totalItems c
        ∧ totalPrice c' = totalPrice c.
Proof.
  intros Hc Hnone. pose proof (stored_totals c Hc) as [Hitems Hprice].
  unfold updateItemQuantity. rewrite (find_item_none c serviceId Hnone).
  eexists. split; [apply save_valid; by apply stored_items_valid|].
  simpl. rewrite !foldl_add_total. split_and!; [done | lia | lia].
Qed.

(** X6. On the document that [getOrCreateCart] hands to
    [POST /api/cart/items], populated, [addItem] never adds to a line. On a
    stored cart each of whose lines has its service in the catalogue, a
    call with a quantity between 1 and 50 and a price that is not negative
    is saved and appends a line with that quantity and that price after
    the others, whether or not the cart holds the service, and the totals
    grow by the quantity and by the price times the quantity. When a line
    has a service that the catalogue lacks, the call throws and the stored
    cart stays as it was. *)
Theorem addItem_populated_appends_a_line (known : list string) (serviceId : string)
    (q p now : Z) (c : t) :
  stored c →
  1 ≤ q ≤ 50 →
  0 ≤ p →
  (Forall (λ item, service item ∈ known) (items c) →
     ∃ c', addItem (Populated known) serviceId q p now c = Ok c'
           ∧ items c' = items c ++ [{| service := serviceId; quantity := q; price := p |}]
           ∧ lines_of serviceId c'
             = lines_of serviceId c
               ++ [{| service := serviceId; quantity := q; price := p |}]
           ∧ totalItems c' = totalItems c + q
           ∧ totalPrice c' = totalPrice c + p * q)
  ∧ (¬ Forall (λ item, service item ∈ known) (items c) →
     addItem (Populated known) serviceId q p now c = Err TypeError
     ∧ stored_after (AddItem (Populated known) serviceId q p) now c = c).
Proof.
  intros Hc Hq Hp. pose proof (stored_items_valid c Hc) as Hvalid.
  pose proof (stored_totals c Hc) as [HtotalItems HtotalPrice].
  split.
  - intros Hknown. rewrite addItem_populated by done.
    eexists. split.
    { apply save_valid. simpl. apply Forall_app. split; [done|].
      apply Forall_singleton. split; [done | by simpl]. }
    simpl. split; [done|]. split.
    { unfold lines_of. simpl. rewrite filter_app. f_equal.
      by rewrite filter_cons_True, filter_nil. }
    rewrite !foldl_add_total, !fmap_app, !total_of_app, HtotalItems, HtotalPrice.
    unfold total_of. simpl. split; lia.
  - intros Hnull. unfold stored_after. simpl. unfold addItem, find.
    by rewrite bool_decide_eq_false_2.
Qed.

(** *** The methods on the sample carts *)

Lemma removeItem_removes_only_that_service_witness :
  ∃ c', removeItem Sample.regular_shirt 2 Sample.cart_of_three = Ok c'
        ∧ lines_of Sample.regular_shirt c' = []
        ∧ totalItems c' = 0.
Proof.
  destruct (removeItem_removes_only_that_service Sample.regular_shirt 2
              Sample.cart_of_three stored_cart_of_three)
    as (c' & Hsaved & Hnone & _ & Htotal & _).
  exists c'. split; [exact Hsaved|]. split; [exact Hnone|].
  rewrite Htotal. reflexivity.
Defined.

Lemma addItem_then_removeItem_restores_witness :
  ∃ c1 c2, addItem (Populated Sample.known) Sample.premium_shirt 2 89 2
             Sample.cart_of_three = Ok c1
           ∧ removeItem Sample.premium_shirt 3 c1 = Ok c2
           ∧ items c2 = items Sample.cart_of_three.
Proof.
  destruct (addItem_then_removeItem_restores (Populated Sample.known)
              Sample.premium_shirt 2 89 2 3 Sample.cart_of_three)
    as (c1 & c2 & Hadd & Hremove & Hitems & _).
  - exact stored_cart_of_three.
  - simpl. apply Forall_singleton. vm_compute. left.
  - reflexivity.
  - lia.
  - lia.
  - exists c1, c2. split; [exact Hadd|]. split; [exact Hremove | exact Hitems].
Defined.

Lemma addItem_populated_appends_a_line_witness :
  ∃ c', addItem (Populated Sample.known) Sample.regular_shirt 2 49 2
          Sample.cart_of_three = Ok c'
        ∧ quantity <$> lines_of Sample.regular_shirt c' = [3; 2]
        ∧ totalItems c' = 5.
Proof.
  destruct (addItem_populated_appends_a_line Sample.known Sample.regular_shirt 2 49 2
              Sample.cart_of_three) as [Hadded _].
  - exact stored_cart_of_three.
  - lia.
  - lia.
  - destruct Hadded as (c' & Hsaved & _ & Hlines & Htotal & _).
    + apply Forall_singleton. vm_compute. left.
    + exists c'. split; [exact Hsaved|]. split.
      * rewrite Hlines. reflexivity.
      * rewrite Htotal. reflexivity.
Defined.


Lemma updateItemQuantity_absent_service_witness :
  ∃ c', updateItemQuantity Sample.premium_shirt 1000 2 Sample.cart_of_three = Ok c'
        ∧ items c' = items Sample.cart_of_three.
Proof.
  destruct (updateItemQuantity_absent_service Sample.premium_shirt 1000 2
              Sample.cart_of_three) as (c' & Hsaved & Hitems & _).
  - exact stored_cart_of_three.
  - reflexivity.
  - exists c'. split; [exact Hsaved | exact Hitems].
Defined.

End cart_methods.

(** ** The life of an order *)

Section order_lifecycle.
Import Orders Lifecycle.

Lemma generate_orderNumber_not_empty now rnd :
  Order.generate_orderNumber now rnd ≠ EmptyString.
Proof. unfold Order.generate_orderNumber. done. Qed.

Lemma pre_save_orderNumber now rnd o :
  Order.orderNumber (Order.pre_save now rnd o) ≠ EmptyString
  ∧ (Order.orderNumber o ≠ EmptyString →
     Order.orderNumber (Order.pre_save now rnd o) = Order.orderNumber o).
Proof.
  unfold Order.pre_save.
  repeat case_match; simpl; case_bool_decide; simpl;
    split; try done; auto using generate_orderNumber_not_empty.
Qed.

Lemma pre_save_twice now rnd now2 rnd2 o :
  Order.pre_save now2 rnd2 (Order.pre_save now rnd o) = Order.pre_save now rnd o.
Proof.
  unfold Order.pre_save.
  destruct (bool_decide (Order.orderNumber o = EmptyString)) eqn:Hnumber;
    destruct o as [number ? ? ? ? ? ? [d|] ? ? [e|] ? ? ? ? ? ?]; simpl in *;
    rewrite ?Hnumber; simpl; try done.
Qed.

Lemma validate_with_tracking o l st :
  Order.validate (Order.with_tracking o l st) = Order.validate o.
Proof. done. Qed.

Lemma validate_with_actualDelivery o d :
  Order.validate (Order.with_actualDelivery o d) = Order.validate o.
Proof. done. Qed.

Lemma pre_save_with_tracking now rnd o l st :
  Order.pre_save now rnd (Order.with_tracking o l st)
  = Order.with_tracking (Order.pre_save now rnd o) l st.
Proof.
  unfold Order.pre_save. simpl.
  case_bool_decide; simpl;
    destruct (Order.estimatedDelivery o), (Order.pickupDate o); done.
Qed.

(** *** Every request writes through [save] *)

Lemma step_writes db db' : step db db' → rtc write (orders db) (orders db').
Proof.
  intros Hstep.
  destruct Hstep as [now oid rnd user req db | now rnd user id name msg db
                    | now rnd user id rating' review' db | now rnd user id db].
  - unfold post_orders.
    destruct (validationResult req); [|done].
    case_bool_decide; [done|].
    destruct (order_lines _ _ _ _) as [[missing | [lines subtotal]]|] eqn:Hlines; [done| |done].
    destruct (Order.save true _ _ _ _ _) as [[o1 m1]|] eqn:Hsave1; [|done].
    assert (write (orders db) m1) as Hwrite1.
    { eapply write_new; [|exact Hsave1]. by exists (services db), now, rnd, user, req, lines, subtotal. }
    destruct (Order.addTrackingUpdate _ _ _ _ _ _ _) as [[o2 m2]|] eqn:Hsave2;
      [|by apply rtc_once].
    assert (write m1 m2) as Hwrite2.
    { pose proof Hsave1 as (_ & _ & -> & _)%order_save_Ok.
      eapply write_edit; [apply lookup_insert_eq | apply edit_tracking | exact Hsave2]. }
    assert (rtc write (orders db) m2) as Hboth by (by eapply rtc_l; [|apply rtc_once]).
    repeat case_match; simpl; done.
  - unfold put_status.
    destruct (requireAdmin user); [done|].
    destruct (fails _ _ ++ _), (parse_status name) as [st|]; try done.
    destruct (orders db !! id) as [order|] eqn:Horder; [|done].
    destruct (Order.addTrackingUpdate _ _ _ _ _ _ _) as [[o1 m1]|] eqn:Hsave1; [|done].
    assert (write (orders db) m1) as Hwrite1.
    { eapply write_edit; [exact Horder | apply edit_tracking | exact Hsave1]. }
    case_bool_decide; [|by apply rtc_once].
    destruct (Order.save false _ _ _ _ _) as [[o2 m2]|] eqn:Hsave2; [|by apply rtc_once].
    simpl. eapply rtc_l; [exact Hwrite1|]. apply rtc_once.
    apply addTrackingUpdate_Ok in Hsave1 as (-> & _).
    eapply write_edit; [apply lookup_insert_eq | apply edit_delivery | exact Hsave2].
  - unfold post_review.
    destruct (fails _ _ ++ _); [|done].
    destruct (findOne _ _ _) as [order|] eqn:Horder; [|done].
    apply findOne_Some in Horder as [Horder _].
    case_bool_decide as Hrated; [done|].
    destruct (Order.save false _ _ _ _ _) as [[o1 m1]|] eqn:Hsave1; [|done].
    simpl. apply rtc_once.
    eapply write_edit; [exact Horder | by apply edit_review | exact Hsave1].
  - unfold delete_order.
    destruct (findOne _ _ _) as [order|] eqn:Horder; [|done].
    apply findOne_Some in Horder as [Horder _].
    destruct (negb _); [done|].
    destruct (Order.addTrackingUpdate _ _ _ _ _ _ _) as [[o1 m1]|] eqn:Hsave1; [|done].
    simpl. apply rtc_once.
    eapply write_edit; [exact Horder | apply edit_tracking | exact Hsave1].
Qed.

Lemma steps_writes db db' : rtc step db db' → rtc write (orders db) (orders db').
Proof.
  induction 1 as [|db1 db2 db3 Hstep _ IH]; [done|].
  etrans; [by apply step_writes | done].
Qed.

Lemma write_old m m' id o :
  write m m' → m !! id = Some o →
  ∃ o', m' !! id = Some o' ∧ (o' = o ∨ saved_edit o o').
Proof.
  intros Hwrite Ho.
  destruct Hwrite as [now rnd id' new o' m m' Hplaced Hsave
                     | now rnd id' old e o' m m' Hold Hedit Hsave];
    apply order_save_Ok in Hsave as (_ & -> & -> & Hnew).
  - destruct (decide (id' = id)) as [->|Hne].
    + rewrite Hnew in Ho; done.
    + exists o. rewrite lookup_insert_ne by done. auto.
  - destruct (decide (id' = id)) as [->|Hne].
    + eexists. rewrite lookup_insert_eq. split; [done|]. right.
      exists e, now, rnd. split; [|done]. congruence.
    + exists o. rewrite lookup_insert_ne by done. auto.
Qed.

Lemma write_fresh m m' id o' :
  write m m' → m !! id = None → m' !! id = Some o' →
  ∃ o now rnd, placed o ∧ o' = Order.pre_save now rnd o.
Proof.
  intros Hwrite Hnone Ho'.
  destruct Hwrite as [now rnd id' new o1 m m' Hplaced Hsave
                     | now rnd id' old e o1 m m' Hold Hedit Hsave];
    apply order_save_Ok in Hsave as (_ & -> & -> & Hnew).
  - destruct (decide (id' = id)) as [->|Hne].
    + rewrite lookup_insert_eq in Ho'. simplify_eq. by exists new, now, rnd.
    + rewrite lookup_insert_ne in Ho' by done. congruence.
  - destruct (decide (id' = id)) as [->|Hne]; [congruence|].
    rewrite lookup_insert_ne in Ho' by done. congruence.
Qed.

(** What a stored change keeps of an order. *)
Lemma saved_edit_keeps o o' :
  saved_edit o o' →
  Order.customer o' = Order.customer o
  ∧ Order.items o' = Order.items o
  ∧ Order.order_subtotal o' = Order.order_subtotal o
  ∧ Order.tax o' = Order.tax o
  ∧ Order.total o' = Order.total o
  ∧ Order.trackingUpdates o `prefix_of` Order.trackingUpdates o'.
Proof.
  intros (e & now & rnd & Hedit & ->).
  pose proof (pre_save_fields now rnd e) as (Hc & Hi & Hs & Ht & Htot & _).
  simpl in *. rewrite Hc, Hi, Hs, Ht, Htot.
  assert (Order.trackingUpdates (Order.pre_save now rnd e) = Order.trackingUpdates e)
    as -> by (unfold Order.pre_save; repeat case_match; done).
  destruct Hedit; simpl; split_and!; try done. by apply prefix_app_r.
Qed.

(** X8. No request deletes an order or rewrites what was ordered: whatever
    requests follow, a stored order is still stored under its identifier
    with the same customer, lines, subtotal, tax and total, and its
    tracking history has only grown at its end. *)
Theorem order_content_is_immutable (db db' : Db) (id : string) (o : Order.t) :
  rtc step db db' →
  orders db !! id = Some o →
  ∃ o', orders db' !! id = Some o'
        ∧ Order.customer o' = Order.customer o
        ∧ Order.items o' = Order.items o
        ∧ Order.order_subtotal o' = Order.order_subtotal o
        ∧ Order.tax o' = Order.tax o
        ∧ Order.total o' = Order.total o
        ∧ Order.trackingUpdates o `prefix_of` Order.trackingUpdates o'.
Proof.
  intros Hsteps%steps_writes. revert o.
  induction Hsteps as [m | m1 m2 m3 Hwrite _ IH]; intros o Ho.
  - exists o. by split_and!.
  - destruct (write_old _ _ _ _ Hwrite Ho) as (o2 & Ho2 & Hkept).
    destruct (IH o2 Ho2) as (o3 & Ho3 & Hc & Hi & Hs & Ht & Htot & Hprefix).
    exists o3. split; [done|].
    destruct Hkept as [-> | Hedit]; [by split_and!|].
    destruct (saved_edit_keeps _ _ Hedit) as (Hc' & Hi' & Hs' & Ht' & Htot' & Hprefix').
    split_and!; try congruence. by etrans.
Qed.

(** *** Amounts *)

Lemma placed_priced o now rnd : placed o → priced (Order.pre_save now rnd o).
Proof.
  intros (catalog & now' & rnd' & user & req & lines & subtotal & Hlines & ->).
  apply order_lines_inr in Hlines as (new & -> & Hpriced & ->).
  pose proof (pre_save_fields now rnd
    (new_order now' rnd' user req ([] ++ new) (0 + total_of (Order.subtotal <$> new))
       (gst (0 + total_of (Order.subtotal <$> new)))
       (0 + total_of (Order.subtotal <$> new)
        + gst (0 + total_of (Order.subtotal <$> new)))))
    as (_ & Hi & Hs & Ht & Htot & _).
  unfold priced. simpl in *. rewrite Hi, Hs, Ht, Htot.
  split_and!; [|lia|done|done].
  clear -Hpriced. induction Hpriced as [|item line ? ? Hline _ IH]; [constructor|].
  constructor; [|done].
  destruct Hline as (s & _ & _ & _ & Hq & Hp & Hsub). by rewrite Hsub, Hp, Hq.
Qed.

Lemma saved_edit_priced o o' : saved_edit o o' → priced o → priced o'.
Proof.
  intros (_ & Hi & Hs & Ht & Htot & _)%saved_edit_keeps.
  unfold priced. by rewrite Hi, Hs, Ht, Htot.
Qed.

Lemma write_invariant (P : Order.t → Prop) m m' :
  (∀ o now rnd, placed o → P (Order.pre_save now rnd o)) →
  (∀ o o', saved_edit o o' → P o → P o') →
  write m m' → map_Forall (λ _ o, P o) m → map_Forall (λ _ o, P o) m'.
Proof.
  intros Hplaced Hedit Hwrite Hm id o' Ho'.
  destruct (m !! id) as [o|] eqn:Ho.
  - destruct (write_old _ _ _ _ Hwrite Ho) as (o2 & Ho2 & Hkept).
    assert (o2 = o') as -> by congruence.
    destruct Hkept as [-> | Hsaved]; [by eapply Hm|].
    eapply Hedit; [done|]. by eapply Hm.
  - destruct (write_fresh _ _ _ _ Hwrite Ho Ho') as (o & now & rnd & Hp & ->).
    by apply Hplaced.
Qed.

(** X9. The amounts of the stored orders stay consistent with their lines
    through every request: if in every order the subtotal of each line is
    its price times its quantity, the subtotal of the order the sum of
    those, the tax 18% of it rounded and the total their sum, then the same
    holds after any sequence of requests, of the orders that were there and
    of those that were placed since. *)
Theorem order_amounts_stay_consistent (db db' : Db) :
  rtc step db db' →
  map_Forall (λ _ o, priced o) (orders db) →
  map_Forall (λ _ o,
    Forall (λ line, Order.subtotal line = Order.price line * Order.quantity line)
      (Order.items o)
    ∧ Order.order_subtotal o = total_of (Order.subtotal <$> Order.items o)
    ∧ Order.tax o = gst (Order.order_subtotal o)
    ∧ Order.total o = Order.order_subtotal o + Order.tax o) (orders db').
Proof.
  intros Hsteps%steps_writes.
  induction Hsteps as [m | m1 m2 m3 Hwrite _ IH]; [done|].
  intros Hm. apply IH.
  eapply (write_invariant priced); [| |done..].
  - intros o now rnd Ho. by apply placed_priced.
  - apply saved_edit_priced.
Qed.

(** *** Order numbers *)

Lemma order_save_unique isNew now rnd id o m o' m' :
  Order.save isNew now rnd id o m = Ok (o', m') →
  ∀ id' other, m !! id' = Some other → id' ≠ id →
               Order.orderNumber other ≠ Order.orderNumber o'.
Proof.
  unfold Order.save. destruct (Order.validate o); [|done].
  case_bool_decide; [done|]. case_bool_decide as Hnone; [done|].
  intros [= <- <-] id' other Hother Hid Hnumber.
  apply Hnone. exists id', other. done.
Qed.

Lemma order_save_succeeds isNew now rnd id o m :
  Order.validate o = [] →
  (isNew = true → m !! id = None) →
  (∀ id' other, m !! id' = Some other → id' ≠ id →
     Order.orderNumber other ≠ Order.orderNumber (Order.pre_save now rnd o)) →
  Order.save isNew now rnd id o m
  = Ok (Order.pre_save now rnd o, <[id := Order.pre_save now rnd o]> m).
Proof.
  intros Hvalid Hnew Hunique. unfold Order.save. rewrite Hvalid.
  rewrite bool_decide_eq_false_2.
  - rewrite bool_decide_eq_false_2; [done|].
    intros (id' & other & Hother & Hid & Hnumber). by eapply Hunique.
  - intros [-> [x Hx]]. rewrite Hnew in Hx; done.
Qed.

Lemma save_well_formed isNew now rnd id o m o' m' :
  Order.save isNew now rnd id o m = Ok (o', m') →
  well_formed m → well_formed m'.
Proof.
  intros Hsave [Hvalid Hunique].
  pose proof (order_save_unique _ _ _ _ _ _ _ _ Hsave) as Hothers.
  apply order_save_Ok in Hsave as (Hvalid' & -> & -> & _).
  split.
  - apply map_Forall_insert_2; [|done]. split.
    + by rewrite validate_pre_save.
    + apply pre_save_orderNumber.
  - intros i j oi oj Hi Hj Hnumber.
    destruct (decide (i = j)) as [|Hij]; [done|]. exfalso.
    destruct (decide (id = i)) as [Ei|Hi'], (decide (id = j)) as [Ej|Hj']; subst.
    + done.
    + rewrite lookup_insert_eq in Hi. rewrite lookup_insert_ne in Hj by done.
      injection Hi as <-. by apply (Hothers j oj Hj).
    + rewrite lookup_insert_eq in Hj. rewrite lookup_insert_ne in Hi by done.
      injection Hj as <-. by apply (Hothers i oi Hi).
    + rewrite lookup_insert_ne in Hi, Hj by done.
      by apply Hij, (Hunique i j oi oj).
Qed.

Lemma write_well_formed m m' : write m m' → well_formed m → well_formed m'.
Proof. destruct 1; by eapply save_well_formed. Qed.

(** X10. The collection of orders stays well formed through every request:
    every stored order passes the validators of its schema and has an
    order number, and no two stored orders have the same order number. *)
Theorem order_numbers_stay_unique (db db' : Db) :
  rtc step db db' →
  well_formed (orders db) →
  map_Forall (λ _ o, Order.validate o = [] ∧ Order.orderNumber o ≠ EmptyString)
    (orders db')
  ∧ ∀ i j oi oj, orders db' !! i = Some oi → orders db' !! j = Some oj →
                 Order.orderNumber oi = Order.orderNumber oj → i = j.
Proof.
  intros Hsteps%steps_writes.
  induction Hsteps as [m | m1 m2 m3 Hwrite _ IH]; [done|].
  intros Hm. apply IH. by eapply write_well_formed.
Qed.

(** *** When the saves of the routes are accepted *)

Lemma stored_edit_saved now rnd id old e m :
  well_formed m → m !! id = Some old →
  Order.validate e = [] → Order.orderNumber e = Order.orderNumber old →
  Order.save false now rnd id e m
  = Ok (Order.pre_save now rnd e, <[id := Order.pre_save now rnd e]> m).
Proof.
  intros [Hvalid Hunique] Hold He Hnumber.
  destruct (Hvalid id old Hold) as [_ Hnamed].
  apply order_save_succeeds; [done | done |].
  intros id' other Hother Hid Hsame. apply Hid.
  apply (Hunique id' id other old Hother Hold).
  destruct (pre_save_orderNumber now rnd e) as [_ Hkept].
  rewrite Hsame, Hkept; congruence.
Qed.

Lemma addTrackingUpdate_saved st msg now rnd id old m :
  well_formed m → m !! id = Some old →
  ∃ o', Order.addTrackingUpdate st msg now rnd id old m = Ok (o', <[id := o']> m)
        ∧ Order.status o' = st
        ∧ Order.trackingUpdates o'
          = Order.trackingUpdates old
            ++ [{| Order.tu_status := st; Order.tu_message := msg;
                   Order.tu_timestamp := now |}]
        ∧ Order.actualDelivery o' = Order.actualDelivery old
        ∧ Order.orderNumber o' = Order.orderNumber old
        ∧ Order.validate o' = [].
Proof.
  intros Hm Hold. destruct Hm as [Hvalid Hunique].
  destruct (Hvalid id old Hold) as [Hok Hnamed].
  unfold Order.addTrackingUpdate.
  rewrite (stored_edit_saved now rnd id old) by done.
  eexists. split; [done|].
  rewrite validate_pre_save.
  destruct (pre_save_orderNumber now rnd
    (Order.with_tracking old (Order.trackingUpdates old
       ++ [{| Order.tu_status := st; Order.tu_message := msg;
              Order.tu_timestamp := now |}]) st)) as [_ Hkept].
  rewrite Hkept by done.
  unfold Order.pre_save. repeat case_match; done.
Qed.

(** X11. The status update of an administrator has no order of the
    statuses to respect: on a well formed collection, for any stored order
    in any status and any of the eight statuses, the request is answered
    200, the order takes the status, and one entry with that status and the
    message, or the fixed message of the status when none is given, is
    added at the end of its tracking history. [actualDelivery] is stamped
    with the instant of the request when the status is delivered and is
    left alone otherwise. *)
Theorem put_status_accepts_any_transition (now rnd : Z) (user : User.t) (id name : string)
    (message' : option string) (st : Order.Status) (db : Db) (o : Order.t) :
  requireAdmin user = None →
  parse_status name = Some st →
  match message' with Some m => (String.length m ≤ 200)%nat | None => True end →
  well_formed (orders db) →
  orders db !! id = Some o →
  ∃ o' resp,
    put_status now rnd user id name message' db
    = (with_orders db (<[id := o']> (orders db)), resp)
    ∧ code resp = 200
    ∧ Order.status o' = st
    ∧ Order.trackingUpdates o'
      = Order.trackingUpdates o
        ++ [{| Order.tu_status := st;
               Order.tu_message := trackingMessage message' name st;
               Order.tu_timestamp := now |}]
    ∧ Order.actualDelivery o'
      = (if bool_decide (st = Order.delivered) then Some now
         else Order.actualDelivery o).
Proof.
  intros Hadmin Hst Hmessage Hm Ho. unfold put_status. rewrite Hadmin, Hst.
  assert (fails (bool_decide (is_Some (Some st))) "Invalid value"
          ++ match message' with
             | Some m => fails (Text.isLength 0 200 m) "Message cannot exceed 200 characters"
             | None => []
             end = []) as ->.
  { rewrite bool_decide_eq_true_2 by eauto. simpl.
    destruct message' as [m|]; [|done].
    unfold Text.isLength. rewrite bool_decide_eq_true_2; [done | lia]. }
  rewrite Ho.
  destruct (addTrackingUpdate_saved st (trackingMessage message' name st) now rnd id o
              (orders db) Hm Ho)
    as (o1 & Hsave1 & Hstatus & Htracking & Hdelivery & Hnumber & Hvalid).
  assert (well_formed (<[id := o1]> (orders db))) as Hm1.
  { unfold Order.addTrackingUpdate in Hsave1. by eapply save_well_formed. }
  rewrite Hsave1.
  case_bool_decide as Hdelivered.
  - rewrite (stored_edit_saved now rnd id o1 (Order.with_actualDelivery o1 (Some now)))
      by (done || apply lookup_insert_eq).
    eexists _, _. split.
    { simpl. by rewrite insert_insert_eq. }
    simpl. split; [done|].
    unfold Order.pre_save. repeat case_match; simpl; by split_and!.
  - eexists _, _. split; [done|]. simpl. by split_and!.
Qed.

(** X12. On a well formed collection, the cancellation of a pending or
    confirmed order by its customer, or by an administrator, is answered
    200: the order becomes cancelled and its tracking history gains the
    entry of the cancellation. Nothing else is written; in particular the
    counters of the account are not lowered. *)
Theorem cancel_accepts_pending_or_confirmed (now rnd : Z) (user : User.t) (id : string)
    (db : Db) (o : Order.t) :
  well_formed (orders db) →
  orders db !! id = Some o →
  User.role user = User.admin ∨ Order.customer o = User._id user →
  Order.status o = Order.pending ∨ Order.status o = Order.confirmed →
  ∃ o' db',
    delete_order now rnd user id db
    = (db', respond 200 "Vastram order cancelled successfully" NoData)
    ∧ orders db' = <[id := o']> (orders db)
    ∧ Order.status o' = Order.cancelled
    ∧ Order.trackingUpdates o'
      = Order.trackingUpdates o
        ++ [{| Order.tu_status := Order.cancelled;
               Order.tu_message := "Order cancelled by customer request.";
               Order.tu_timestamp := now |}]
    ∧ users db' = users db ∧ carts db' = carts db ∧ services db' = services db.
Proof.
  intros Hm Ho Hmine Hstatus. unfold delete_order.
  assert (findOne (λ order, User.role user ≠ User.admin →
                            Order.customer order = User._id user) (orders db) id
          = Some o) as ->.
  { apply findOne_Some. split; [done|]. intros Hrole. by destruct Hmine. }
  assert (cancellable (Order.status o) = true) as ->.
  { unfold cancellable. apply bool_decide_eq_true.
    rewrite !elem_of_cons. tauto. }
  simpl.
  destruct (addTrackingUpdate_saved Order.cancelled "Order cancelled by customer request."
              now rnd id o (orders db) Hm Ho)
    as (o1 & -> & Hst & Htracking & _).
  eexists o1, _. split; [done|]. simpl. by split_and!.
Qed.

Lemma validate_with_review o r v :
  Order.validate o = [] → 1 ≤ r ≤ 5 →
  match v with Some text => (String.length text ≤ 500)%nat | None => True end →
  Order.validate (Order.with_review o (Some r) v) = [].
Proof.
  unfold Order.validate. rewrite !app_nil.
  intros (? & ? & ? & ? & ? & ? & ? & ? & ? & ? & ? & _ & _ & _) Hr Hv.
  simpl. split_and!; try done; apply check_nil; simpl; try lia.
  destruct v; simpl in *; [lia | tauto].
Qed.

(** X13. On a well formed collection, the first review of a delivered order
    by its customer, with a rating between 1 and 5 and a text of at most
    500 characters or none, is answered 200 and stores the rating and the
    text; the status and the tracking history of the order are as they
    were. *)
Theorem review_accepts_first_review (now rnd : Z) (user : User.t) (id : string)
    (r : Z) (v : option string) (db : Db) (o : Order.t) :
  well_formed (orders db) →
  orders db !! id = Some o →
  Order.customer o = User._id user →
  Order.status o = Order.delivered →
  Order.rating o = None →
  1 ≤ r ≤ 5 →
  match v with Some text => (String.length text ≤ 500)%nat | None => True end →
  ∃ o' db' resp,
    post_review now rnd user id r v db = (db', resp)
    ∧ code resp = 200
    ∧ data resp = ReviewData (Some r) v
    ∧ orders db' = <[id := o']> (orders db)
    ∧ Order.rating o' = Some r ∧ Order.review o' = v
    ∧ Order.status o' = Order.delivered
    ∧ Order.trackingUpdates o' = Order.trackingUpdates o.
Proof.
  intros Hm Ho Hmine Hstatus Hnone Hr Hv. unfold post_review.
  assert (fails (bool_decide (1 ≤ r ≤ 5)) "Rating must be between 1 and 5"
          ++ match v with
             | Some text => fails (Text.isLength 0 500 text)
                              "Review cannot exceed 500 characters"
             | None => []
             end = []) as ->.
  { rewrite bool_decide_eq_true_2 by done. simpl.
    destruct v as [text|]; [|done].
    unfold Text.isLength. rewrite bool_decide_eq_true_2; [done | lia]. }
  assert (findOne (λ order, Order.customer order = User._id user
                            ∧ Order.status order = Order.delivered) (orders db) id
          = Some o) as -> by (by apply findOne_Some).
  rewrite Hnone. rewrite bool_decide_eq_false_2 by (simpl; tauto).
  destruct Hm as [Hvalid Hunique]. destruct (Hvalid id o Ho) as [Hok Hnamed].
  rewrite (stored_edit_saved now rnd id o (Order.with_review o (Some r) v));
    [|done|done|by apply validate_with_review|done].
  pose proof (pre_save_fields now rnd (Order.with_review o (Some r) v))
    as (_ & _ & _ & _ & _ & Hst & Hrating & Hreview).
  simpl in Hst, Hrating, Hreview.
  exists (Order.pre_save now rnd (Order.with_review o (Some r) v)).
  eexists _, _. split; [done|]. simpl. rewrite Hrating, Hreview, Hst.
  split_and!; try done.
  unfold Order.pre_save. repeat case_match; done.
Qed.

(** X14. A customer reaches no order of another customer: reading it and
    cancelling it answer 404 as if it did not exist, and a review of it,
    by whomever, is refused; none of the three writes anything. *)
Theorem customers_reach_only_their_orders (now rnd : Z) (user : User.t) (id : string)
    (db : Db) (o : Order.t) :
  orders db !! id = Some o →
  Order.customer o ≠ User._id user →
  (User.role user ≠ User.admin →
     code (get_order user id db) = 404
     ∧ delete_order now rnd user id db
       = (db, respond 404 "Vastram order not found" NoData))
  ∧ ∀ r v, ∃ resp, post_review now rnd user id r v db = (db, resp)
                   ∧ (code resp = 400 ∨ code resp = 404)
                   ∧ ∀ rating' review', data resp ≠ ReviewData rating' review'.
Proof.
  intros Ho Hother. split.
  - intros Hrole.
    assert (findOne (λ order, User.role user ≠ User.admin →
                              Order.customer order = User._id user) (orders db) id
            = None) as Hnone.
    { destruct (findOne _ _ _) as [x|] eqn:Hx; [|done].
      apply findOne_Some in Hx as [Hx Hmine]. simplify_eq. by destruct (Hother (Hmine Hrole)). }
    unfold get_order, delete_order. by rewrite Hnone.
  - intros r v. unfold post_review.
    destruct (fails _ _ ++ _); [|by eexists; split_and!; [done | left |]].
    assert (findOne (λ order, Order.customer order = User._id user
                              ∧ Order.status order = Order.delivered) (orders db) id
            = None) as ->.
    { destruct (findOne _ _ _) as [x|] eqn:Hx; [|done].
      apply findOne_Some in Hx as [Hx [Hmine _]]. simplify_eq. }
    by eexists; split_and!; [done | right |].
Qed.

(** *** The tracking history *)

Lemma pre_save_tracking now rnd o :
  Order.trackingUpdates (Order.pre_save now rnd o) = Order.trackingUpdates o
  ∧ Order.actualDelivery (Order.pre_save now rnd o) = Order.actualDelivery o
  ∧ Order.pickupDate (Order.pre_save now rnd o) = Order.pickupDate o.
Proof. unfold Order.pre_save. repeat case_match; done. Qed.

Lemma pre_save_estimated now rnd o d :
  Order.estimatedDelivery (Order.pre_save now rnd o) = None →
  Order.pickupDate (Order.pre_save now rnd o) = Some d → False.
Proof.
  unfold Order.pre_save.
  case_bool_decide; simpl;
    destruct (Order.estimatedDelivery o) eqn:He, (Order.pickupDate o) eqn:Hd;
    simpl; congruence.
Qed.

(** A tracking update of the order that a save just stored is always
    accepted, and stores that order with the status and the new entry. *)
Lemma addTrackingUpdate_after_save isNew now rnd id o m o1 m1 st msg now2 rnd2 :
  Order.save isNew now rnd id o m = Ok (o1, m1) →
  let o2 := Order.with_tracking o1
              (Order.trackingUpdates o1
               ++ [{| Order.tu_status := st; Order.tu_message := msg;
                      Order.tu_timestamp := now2 |}]) st in
  Order.addTrackingUpdate st msg now2 rnd2 id o1 m1 = Ok (o2, <[id := o2]> m).
Proof.
  intros Hsave o2.
  pose proof (order_save_unique _ _ _ _ _ _ _ _ Hsave) as Hothers.
  apply order_save_Ok in Hsave as (Hvalid & -> & -> & _).
  assert (Order.pre_save now2 rnd2 o2 = o2) as Hsettled.
  { unfold o2. by rewrite pre_save_with_tracking, pre_save_twice. }
  unfold Order.addTrackingUpdate. fold o2.
  rewrite (order_save_succeeds false now2 rnd2 id o2).
  - by rewrite Hsettled, insert_insert_eq.
  - unfold o2. by rewrite validate_with_tracking, validate_pre_save.
  - done.
  - intros id' other Hother Hid. rewrite lookup_insert_ne in Hother by done.
    rewrite Hsettled. by apply (Hothers id' other).
Qed.

Lemma save_tracked isNew now rnd id e m o' m' :
  Order.save isNew now rnd id e m = Ok (o', m') →
  status_tracked e →
  map_Forall (λ _ o, status_tracked o) m → map_Forall (λ _ o, status_tracked o) m'.
Proof.
  intros (_ & -> & -> & _)%order_save_Ok He Hm.
  apply map_Forall_insert_2; [|done].
  unfold status_tracked in *.
  pose proof (pre_save_fields now rnd e) as (_ & _ & _ & _ & _ & Hst & _).
  pose proof (pre_save_tracking now rnd e) as (Htr & _).
  simpl in Hst. by rewrite Hst, Htr.
Qed.

Lemma tracked_after_update o st msg now :
  status_tracked (Order.with_tracking o
    (Order.trackingUpdates o
     ++ [{| Order.tu_status := st; Order.tu_message := msg;
            Order.tu_timestamp := now |}]) st).
Proof. unfold status_tracked. simpl. by rewrite last_snoc. Qed.

(** X15. The status of every stored order is the status of the last entry
    of its tracking history, and stays so through every request: the
    checkout stores a new order only together with its first entry, and
    no request sets a status without adding the entry of it. *)
Theorem status_follows_tracking_history (db db' : Db) :
  rtc step db db' →
  map_Forall (λ _ o, status_tracked o) (orders db) →
  map_Forall (λ _ o,
    ∃ entry, last (Order.trackingUpdates o) = Some entry
             ∧ Order.tu_status entry = Order.status o) (orders db').
Proof.
  intros Hsteps Hdb.
  assert (map_Forall (λ _ o, status_tracked o) (orders db')) as Hdb'.
  { induction Hsteps as [db | db1 db2 db3 Hstep _ IH]; [done|]. apply IH. clear IH.
    destruct Hstep as [now oid rnd user req db | now rnd user id name msg db
                      | now rnd user id rating' review' db | now rnd user id db].
    - unfold post_orders.
      destruct (validationResult req); [|done].
      case_bool_decide; [done|].
      destruct (order_lines _ _ _ _) as [[missing | [lines subtotal]]|]; [done| |done].
      destruct (Order.save true _ _ _ _ _) as [[o1 m1]|] eqn:Hsave1; [|done].
      rewrite (addTrackingUpdate_after_save _ _ _ _ _ _ _ _ _ _ _ _ Hsave1).
      assert (map_Forall (λ _ o, status_tracked o)
                (<[oid := Order.with_tracking o1
                     (Order.trackingUpdates o1
                      ++ [{| Order.tu_status := Order.pending;
                             Order.tu_message :=
                               "Order placed successfully. Waiting for confirmation.";
                             Order.tu_timestamp := now |}]) Order.pending]> (orders db)))
        as Hnew.
      { apply map_Forall_insert_2; [apply tracked_after_update | done]. }
      repeat case_match; simpl; done.
    - unfold put_status.
      destruct (requireAdmin user); [done|].
      destruct (fails _ _ ++ _), (parse_status name) as [st|]; try done.
      destruct (orders db !! id) as [order|] eqn:Horder; [|done].
      destruct (Order.addTrackingUpdate _ _ _ _ _ _ _) as [[o1 m1]|] eqn:Hsave1;
        [|done].
      pose proof (save_tracked _ _ _ _ _ _ _ _ Hsave1 (tracked_after_update _ _ _ _) Hdb)
        as Hdb1.
      assert (status_tracked o1) as Ho1.
      { apply (Hdb1 id). apply addTrackingUpdate_Ok in Hsave1 as (-> & _).
        apply lookup_insert_eq. }
      case_bool_decide; [|done].
      destruct (Order.save false _ _ _ _ _) as [[o2 m2]|] eqn:Hsave2; [|done].
      simpl. by eapply save_tracked; [exact Hsave2 | | exact Hdb1].
    - unfold post_review.
      destruct (fails _ _ ++ _); [|done].
      destruct (findOne _ _ _) as [order|] eqn:Horder; [|done].
      apply findOne_Some in Horder as [Horder _].
      case_bool_decide; [done|].
      destruct (Order.save false _ _ _ _ _) as [[o1 m1]|] eqn:Hsave1; [|done].
      simpl. eapply save_tracked; [exact Hsave1 | | exact Hdb].
      exact (Hdb id order Horder).
    - unfold delete_order.
      destruct (findOne _ _ _) as [order|] eqn:Horder; [|done].
      destruct (negb _); [done|].
      destruct (Order.addTrackingUpdate _ _ _ _ _ _ _) as [[o1 m1]|] eqn:Hsave1;
        [|done].
      simpl. eapply save_tracked; [exact Hsave1 | apply tracked_after_update | exact Hdb]. }
  intros id o Ho. specialize (Hdb' id o Ho). unfold status_tracked in Hdb'.
  destruct (last (Order.trackingUpdates o)) as [entry|]; [|done].
  exists entry. split; [done|]. by injection Hdb'.
Qed.

(** *** The checkout, continued *)

Lemma gst_nonneg subtotal : 0 ≤ subtotal → 0 ≤ gst subtotal.
Proof.
  intros Hs. unfold gst, Math_round. apply Z.div_pos; lia.
Qed.

Lemma fails_nil ok msg : fails ok msg = [] ↔ ok = true.
Proof. unfold fails. destruct ok; naive_solver. Qed.

Lemma bind_nil {A B} (f : A → list B) (l : list A) :
  l ≫= f = [] ↔ Forall (λ x, f x = []) l.
Proof.
  induction l as [|x l IH]; csimpl.
  - split; [constructor | done].
  - rewrite app_nil, Forall_cons, IH. done.
Qed.

Lemma isLength_true min max s :
  Text.isLength min max s = true ↔ (min ≤ String.length s ≤ max)%nat.
Proof. unfold Text.isLength. apply bool_decide_eq_true. Qed.

Lemma isPickupTime_not_empty s : Text.isPickupTime s = true → s ≠ EmptyString.
Proof. by intros Hs ->. Qed.

(** What an accepted request is. *)
Lemma validationResult_nil req :
  validationResult req = [] →
  Forall (λ item, 1 ≤ quantity item ≤ 50) (items req)
  ∧ (10 ≤ String.length (Text.trim (pickupAddress req)) ≤ 300)%nat
  ∧ pickupDateISO8601 req = true
  ∧ pickupTime req ≠ EmptyString
  ∧ (10 ≤ String.length (Text.trim (deliveryAddress req)) ≤ 300)%nat
  ∧ ¬ Order.too_long 500 (specialInstructions req).
Proof.
  unfold validationResult. rewrite !app_nil, !fails_nil, !bind_nil.
  intros (_ & _ & Hq & Hp & Hd & Ht & Hdel & Hs).
  refine (conj _ (conj _ (conj _ (conj _ (conj _ _))))).
  - eapply Forall_impl; [exact Hq|]. intros item Hitem.
    by apply fails_nil, bool_decide_eq_true in Hitem.
  - by apply isLength_true in Hp.
  - exact Hd.
  - by apply isPickupTime_not_empty.
  - by apply isLength_true in Hdel.
  - destruct (specialInstructions req) as [v|]; simpl; [|tauto].
    apply fails_nil, isLength_true in Hs. lia.
Qed.

Lemma order_lines_succeed catalog items' orderItems subtotal :
  Forall sellable catalog →
  Forall (λ line, Order.validateItem line = []) orderItems →
  0 ≤ subtotal →
  Forall (λ item, 1 ≤ quantity item ≤ 50) items' →
  (∀ item, item ∈ items' →
     ∃ service', Service.findOne catalog (service item) = Ok (Some service')) →
  ∃ lines total', order_lines catalog items' orderItems subtotal = Ok (inr (lines, total'))
                  ∧ Forall (λ line, Order.validateItem line = []) lines
                  ∧ 0 ≤ total'.
Proof.
  intros Hcatalog. revert orderItems subtotal.
  induction items' as [|item rest IH]; intros orderItems subtotal Hlines Hsub Hq Hfound.
  - by exists orderItems, subtotal.
  - simpl. destruct (Hfound item) as [s Hs]; [left|]. rewrite Hs.
    apply Forall_cons in Hq as [Hitem Hrest].
    pose proof Hs as (_ & (Hin & _ & _)%findOne_active_Some)%service_findOne_Some.
    rewrite Forall_forall in Hcatalog. destruct (Hcatalog s Hin) as [Hname Hprice].
    apply IH; [| nia | done | intros; apply Hfound; by right].
    apply Forall_app. split; [done|]. apply Forall_singleton.
    unfold Order.validateItem. simpl.
    rewrite !app_nil, !check_nil. split_and!; [done | lia | lia | nia].
Qed.

Lemma new_order_valid now rnd user req lines subtotal :
  validationResult req = [] →
  is_Some (pickupDate req) →
  Forall (λ line, Order.validateItem line = []) lines →
  0 ≤ subtotal →
  Order.validate (new_order now rnd user req lines subtotal (gst subtotal)
                    (subtotal + gst subtotal)) = [].
Proof.
  intros (_ & Hp & _ & Ht & Hdel & Hs)%validationResult_nil Hd Hlines Hsub.
  pose proof (gst_nonneg subtotal Hsub) as Htax.
  unfold Order.validate. simpl.
  rewrite !app_nil, !check_nil, bind_nil. split_and!; try done; try lia.
  - intros Hempty. rewrite Hempty in Hp. simpl in Hp. lia.
  - intros Hnone. rewrite Hnone in Hd. by destruct Hd.
  - intros Hempty. rewrite Hempty in Hdel. simpl in Hdel. lia.
Qed.

Lemma pre_save_new_order now rnd user req lines subtotal tax total t :
  pickupDate req = Some t →
  Order.pre_save now rnd (new_order now rnd user req lines subtotal tax total)
  = Order.with_estimatedDelivery (new_order now rnd user req lines subtotal tax total)
      (Some {| Order.since := t; Order.days := 2 |}).
Proof.
  intros Hdate. unfold Order.pre_save.
  rewrite bool_decide_eq_false_2 by apply generate_orderNumber_not_empty.
  simpl. by rewrite Hdate.
Qed.

(** X16. A checkout that passes the request validators, whose pickup date
    is read as a moment after the present one, and each of whose items names
    a service by an identifier that casts and that the catalogue holds
    active, in a catalogue whose entries have a name and a price that is not
    negative, is accepted with 201 whenever the identifier and the order
    number it draws are not taken and the account exists: the order is
    stored as [pending], under the number drawn, with the one tracking entry
    of the checkout and a delivery estimate that is the pickup date moved by
    two days of the calendar. *)
Theorem checkout_accepts_valid_request now oid rnd user req db account t :
  validationResult req = [] →
  pickupDate req = Some t →
  now < t →
  Forall sellable (services db) →
  (∀ item, item ∈ items req →
     ∃ service', Service.findOne (services db) (service item) = Ok (Some service')) →
  orders db !! oid = None →
  (∀ id other, orders db !! id = Some other →
     Order.orderNumber other ≠ Order.generate_orderNumber now rnd) →
  users db !! User._id user = Some account →
  ∃ db' resp order,
    post_orders now oid rnd user req db = (db', resp)
    ∧ code resp = 201
    ∧ orders db' !! oid = Some order
    ∧ Order.customer order = User._id user
    ∧ Order.status order = Order.pending
    ∧ Order.orderNumber order = Order.generate_orderNumber now rnd
    ∧ Order.estimatedDelivery order = Some {| Order.since := t; Order.days := 2 |}
    ∧ Order.trackingUpdates order
      = [{| Order.tu_status := Order.pending;
            Order.tu_message := "Order placed successfully. Waiting for confirmation.";
            Order.tu_timestamp := now |}].
Proof.
  intros Hvalid Hdate Hfuture Hcatalog Hfound Hfresh Hnumber Haccount.
  pose proof Hvalid as (Hq & _)%validationResult_nil.
  destruct (order_lines_succeed (services db) (items req) [] 0)
    as (lines & subtotal & Hlines & Hlines_valid & Hsub); [done | constructor | done | done | done |].
  set (order := new_order now rnd user req lines subtotal (gst subtotal) (subtotal + gst subtotal)).
  assert (Order.save true now rnd oid order (orders db)
          = Ok (Order.pre_save now rnd order, <[oid := Order.pre_save now rnd order]> (orders db)))
    as Hsave.
  { apply order_save_succeeds.
    - apply new_order_valid; [done | by rewrite Hdate | done | done].
    - done.
    - intros id other Hother _. unfold order.
      rewrite (pre_save_new_order _ _ _ _ _ _ _ _ t Hdate). simpl. by eapply Hnumber. }
  pose proof (addTrackingUpdate_after_save _ _ _ _ _ _ _ _ Order.pending
    "Order placed successfully. Waiting for confirmation." now rnd Hsave) as Htrack.
  simpl in Htrack.
  unfold post_orders. rewrite Hvalid.
  rewrite bool_decide_eq_false_2 by (rewrite Hdate; simpl; lia).
  rewrite Hlines. fold order. rewrite Hsave, Htrack. simpl. rewrite Haccount.
  unfold Cart.clearCart, Cart.save. simpl.
  unfold order. rewrite (pre_save_new_order _ _ _ _ _ _ _ _ t Hdate).
  destruct (carts db !! User._id user) as [cart|];
    (eexists _, _, _; split; [reflexivity|]); simpl;
    rewrite lookup_insert_eq; split_and!; reflexivity.
Qed.

Lemma checkout_accepts_valid_request_witness :
  ∃ db' resp order,
    post_orders 1000 Sample.first_order 7 Sample.test_user Sample.checkout Sample.db
    = (db', resp)
    ∧ code resp = 201
    ∧ orders db' !! Sample.first_order = Some order
    ∧ Order.status order = Order.pending.
Proof.
  destruct (checkout_accepts_valid_request 1000 Sample.first_order 7
              Sample.test_user Sample.checkout Sample.db Sample.test_user 2000)
    as (db' & resp & order & Hrun & Hcode & Horder & _ & Hstatus & _).
  - vm_compute. reflexivity.
  - vm_compute. reflexivity.
  - lia.
  - repeat constructor; vm_compute; congruence.
  - intros item Hitem. vm_compute in Hitem.
    repeat (apply elem_of_cons in Hitem as [-> | Hitem]; [vm_compute; eauto|]).
    by apply elem_of_nil in Hitem.
  - vm_compute. reflexivity.
  - intros id other Hother. vm_compute in Hother. discriminate.
  - vm_compute. reflexivity.
  - exists db', resp, order. split; [exact Hrun|]. split; [exact Hcode|].
    split; [exact Horder | exact Hstatus].
Defined.

(** The catalogue and the carts after a checkout that answered 201. *)
Lemma post_orders_store now oid rnd user req db db' resp :
  post_orders now oid rnd user req db = (db', resp) →
  code resp = 201 →
  services db' = services db
  ∧ carts db' = match carts db !! User._id user with
                | Some cart =>
                    <[User._id user := Cart.pre_save now (Cart.with_items cart [])]> (carts db)
                | None => carts db
                end.
Proof.
  unfold post_orders. intros Hrun Hcode.
  destruct (validationResult req); [|by simplify_eq].
  case_bool_decide; [by simplify_eq|].
  destruct (order_lines _ _ _ _) as [[missing | [lines subtotal]]|]; [by simplify_eq| |by simplify_eq].
  destruct (Order.save true _ _ _ _ _) as [[o1 m1]|]; [|by simplify_eq].
  destruct (Order.addTrackingUpdate _ _ _ _ _ _ _) as [[o2 m2]|]; [|by simplify_eq].
  simpl in Hrun.
  destruct (users db !! User._id user) as [account|]; [|by simplify_eq].
  simpl in Hrun. unfold Cart.clearCart, Cart.save in Hrun. simpl in Hrun.
  destruct (carts db !! User._id user) as [cart|]; by simplify_eq.
Qed.

(** X17. A checkout that answers 201 writes the new order, the account of
    the customer and their cart, and nothing else: the catalogue, every
    other order, every other account and every other cart are as before.
    The account has one order more and has spent the total of the new order
    more; the cart of the customer, when there is one, is empty with both
    totals at zero, and no cart is created when there is none. *)
Theorem checkout_writes_order_account_and_cart now oid rnd user req db db' resp :
  post_orders now oid rnd user req db = (db', resp) →
  code resp = 201 →
  services db' = services db
  ∧ (∀ id, id ≠ oid → orders db' !! id = orders db !! id)
  ∧ (∀ uid, uid ≠ User._id user →
       users db' !! uid = users db !! uid ∧ carts db' !! uid = carts db !! uid)
  ∧ (∃ order account account',
       orders db' !! oid = Some order
       ∧ users db !! User._id user = Some account
       ∧ users db' !! User._id user = Some account'
       ∧ User.totalOrders account' = User.totalOrders account + 1
       ∧ User.totalSpent account' = User.totalSpent account + Order.total order)
  ∧ match carts db !! User._id user with
    | Some cart =>
        ∃ cart', carts db' !! User._id user = Some cart'
                 ∧ Cart.items cart' = []
                 ∧ Cart.totalItems cart' = 0
                 ∧ Cart.totalPrice cart' = 0
    | None => carts db' !! User._id user = None
    end.
Proof.
  intros Hrun Hcode.
  destruct (post_orders_store _ _ _ _ _ _ _ _ Hrun Hcode) as [Hservices Hcarts].
  destruct (post_orders_created _ _ _ _ _ _ _ _ Hrun Hcode)
    as (lines & subtotal & order & account & _ & _ & _ & Haccount & _ & Horders & _
        & Husers & _ & _ & _ & Htotal & _).
  destruct (record_order_tier (subtotal + gst subtotal) account) as (_ & Hspent & Hcount).
  refine (conj Hservices (conj _ (conj _ (conj _ _)))).
  - intros id Hid. by rewrite Horders, lookup_insert_ne.
  - intros uid Huid. rewrite Husers, Hcarts. split.
    + by rewrite lookup_insert_ne.
    + destruct (carts db !! User._id user); [by rewrite lookup_insert_ne | done].
  - exists order, account, (User.record_order (subtotal + gst subtotal) account).
    rewrite Horders, Husers, !lookup_insert_eq, Htotal. done.
  - rewrite Hcarts. destruct (carts db !! User._id user) as [cart|] eqn:Hcart.
    + eexists. rewrite lookup_insert_eq. done.
    + done.
Qed.

Lemma checkout_writes_order_account_and_cart_witness :
  services Sample.after_checkout = services Sample.db
  ∧ ∃ cart', carts Sample.after_checkout !! User._id Sample.test_user = Some cart'
             ∧ Cart.items cart' = [].
Proof.
  destruct (checkout_writes_order_account_and_cart 1000 Sample.first_order 7
              Sample.test_user Sample.checkout Sample.db Sample.after_checkout
              (Orders.post_orders 1000 Sample.first_order 7 Sample.test_user
                 Sample.checkout Sample.db).2)
    as (Hservices & _ & _ & _ & Hcart).
  - vm_compute. reflexivity.
  - vm_compute. reflexivity.
  - split; [exact Hservices|].
    assert (is_Some (carts Sample.db !! User._id Sample.test_user)) as [cart Hsome].
    { vm_compute. eauto. }
    rewrite Hsome in Hcart. destruct Hcart as (cart' & Hcart' & Hitems & _).
    exists cart'. split; [exact Hcart' | exact Hitems].
Defined.

(** *** The sample history *)

Lemma steps_well_formed db db' :
  rtc step db db' → well_formed (orders db) → well_formed (orders db').
Proof.
  intros Hsteps%steps_writes.
  induction Hsteps as [m | m1 m2 m3 Hwrite _ IH]; [done|].
  intros Hm. apply IH. by eapply write_well_formed.
Qed.

Lemma well_formed_empty : well_formed ∅.
Proof.
  split; [apply map_Forall_empty|].
  intros i j oi oj Hi. by rewrite lookup_empty in Hi.
Qed.

Lemma sample_checkout_step : rtc step Sample.db Sample.after_checkout.
Proof.
  apply rtc_once.
  exact (step_checkout 1000 Sample.first_order 7 Sample.test_user Sample.checkout Sample.db).
Qed.

Lemma sample_delivery_step : rtc step Sample.after_checkout Sample.after_delivery.
Proof.
  apply rtc_once.
  exact (step_status 5000 7 Sample.admin_user Sample.first_order "delivered" None
           Sample.after_checkout).
Qed.

Lemma sample_history : rtc step Sample.db Sample.after_delivery.
Proof. etrans; [apply sample_checkout_step | apply sample_delivery_step]. Qed.

Lemma sample_after_checkout_well_formed : well_formed (orders Sample.after_checkout).
Proof.
  apply (steps_well_formed Sample.db); [apply sample_checkout_step|].
  apply well_formed_empty.
Qed.

Lemma sample_after_delivery_well_formed : well_formed (orders Sample.after_delivery).
Proof.
  apply (steps_well_formed Sample.db); [apply sample_history|].
  apply well_formed_empty.
Qed.

Lemma sample_placed_order :
  orders Sample.after_checkout !! Sample.first_order = Some Sample.placed_order.
Proof. vm_compute. reflexivity. Qed.

Lemma sample_delivered_order :
  orders Sample.after_delivery !! Sample.first_order = Some Sample.delivered_order.
Proof. vm_compute. reflexivity. Qed.

Lemma order_content_is_immutable_witness :
  ∃ o', orders Sample.after_delivery !! Sample.first_order = Some o'
        ∧ Order.total o' = Order.total Sample.placed_order.
Proof.
  destruct (order_content_is_immutable Sample.after_checkout Sample.after_delivery
              Sample.first_order Sample.placed_order)
    as (o' & Ho' & _ & _ & _ & _ & Htotal & _).
  - exact sample_delivery_step.
  - vm_compute. reflexivity.
  - exists o'. split; [exact Ho' | exact Htotal].
Defined.

Lemma order_amounts_stay_consistent_witness :
  map_Forall (λ _ o,
    Forall (λ line, Order.subtotal line = Order.price line * Order.quantity line)
      (Order.items o)
    ∧ Order.order_subtotal o = total_of (Order.subtotal <$> Order.items o)
    ∧ Order.tax o = gst (Order.order_subtotal o)
    ∧ Order.total o = Order.order_subtotal o + Order.tax o)
    (orders Sample.after_delivery).
Proof.
  apply (order_amounts_stay_consistent Sample.db Sample.after_delivery).
  - exact sample_history.
  - exact (map_Forall_empty _).
Defined.

Lemma order_numbers_stay_unique_witness :
  map_Forall (λ _ o, Order.validate o = [] ∧ Order.orderNumber o ≠ EmptyString)
    (orders Sample.after_delivery).
Proof.
  destruct (order_numbers_stay_unique Sample.db Sample.after_delivery) as [Hvalid _].
  - exact sample_history.
  - exact well_formed_empty.
  - exact Hvalid.
Defined.

Lemma put_status_accepts_any_transition_witness :
  ∃ o' resp,
    put_status 5000 7 Sample.admin_user Sample.first_order "delivered" None
      Sample.after_checkout
    = (with_orders Sample.after_checkout
         (<[Sample.first_order := o']> (orders Sample.after_checkout)), resp)
    ∧ code resp = 200
    ∧ Order.status o' = Order.delivered.
Proof.
  destruct (put_status_accepts_any_transition 5000 7 Sample.admin_user Sample.first_order
              "delivered" None Order.delivered Sample.after_checkout Sample.placed_order)
    as (o' & resp & Hrun & Hcode & Hstatus & _).
  - vm_compute. reflexivity.
  - vm_compute. reflexivity.
  - exact I.
  - exact sample_after_checkout_well_formed.
  - vm_compute. reflexivity.
  - exists o', resp. split; [exact Hrun|]. split; [exact Hcode | exact Hstatus].
Defined.

Lemma cancel_accepts_pending_or_confirmed_witness :
  ∃ o' db',
    delete_order 2000 7 Sample.test_user Sample.first_order Sample.after_checkout
    = (db', respond 200 "Vastram order cancelled successfully" NoData)
    ∧ orders db' = <[Sample.first_order := o']> (orders Sample.after_checkout)
    ∧ Order.status o' = Order.cancelled.
Proof.
  destruct (cancel_accepts_pending_or_confirmed 2000 7 Sample.test_user Sample.first_order
              Sample.after_checkout Sample.placed_order)
    as (o' & db' & Hrun & Horders & Hstatus & _).
  - exact sample_after_checkout_well_formed.
  - vm_compute. reflexivity.
  - right. vm_compute. reflexivity.
  - left. vm_compute. reflexivity.
  - exists o', db'. split; [exact Hrun|]. split; [exact Horders | exact Hstatus].
Defined.

Lemma review_accepts_first_review_witness :
  ∃ o' db' resp,
    post_review 6000 7 Sample.test_user Sample.first_order 5 (Some "Crisp and on time"%string)
      Sample.after_delivery = (db', resp)
    ∧ code resp = 200
    ∧ orders db' = <[Sample.first_order := o']> (orders Sample.after_delivery)
    ∧ Order.rating o' = Some 5.
Proof.
  destruct (review_accepts_first_review 6000 7 Sample.test_user Sample.first_order 5
              (Some "Crisp and on time"%string) Sample.after_delivery Sample.delivered_order)
    as (o' & db' & resp & Hrun & Hcode & _ & Horders & Hrating & _).
  - exact sample_after_delivery_well_formed.
  - vm_compute. reflexivity.
  - vm_compute. reflexivity.
  - vm_compute. reflexivity.
  - vm_compute. reflexivity.
  - lia.
  - simpl. lia.
  - exists o', db', resp. split; [exact Hrun|]. split; [exact Hcode|].
    split; [exact Horders | exact Hrating].
Defined.

Lemma customers_reach_only_their_orders_witness :
  code (get_order Sample.stranger Sample.first_order Sample.after_checkout) = 404
  ∧ delete_order 2000 7 Sample.stranger Sample.first_order Sample.after_checkout
    = (Sample.after_checkout, respond 404 "Vastram order not found" NoData).
Proof.
  destruct (customers_reach_only_their_orders 2000 7 Sample.stranger Sample.first_order
              Sample.after_checkout Sample.placed_order) as [Hhidden _].
  - vm_compute. reflexivity.
  - vm_compute. discriminate.
  - apply Hhidden. vm_compute. discriminate.
Defined.

Lemma status_follows_tracking_history_witness :
  map_Forall (λ _ o,
    ∃ entry, last (Order.trackingUpdates o) = Some entry
             ∧ Order.tu_status entry = Order.status o) (orders Sample.after_delivery).
Proof.
  apply (status_follows_tracking_history Sample.db Sample.after_delivery).
  - exact sample_history.
  - exact (map_Forall_empty _).
Defined.

End order_lifecycle.

(** ** The catalogue routes *)

Section catalogue_listing.
Import Services.

Lemma category_name_inj c1 c2 :
  Service.category_name c1 = Service.category_name c2 → c1 = c2.
Proof. destruct c1, c2; simpl; intros Hname; done || discriminate Hname. Qed.

Lemma by_category_price_total : Total by_category_price.
Proof.
  intros a b. unfold by_category_price.
  destruct (decide (Service.category a = Service.category b)) as [Hab|Hab],
           (decide (Service.category b = Service.category a)) as [Hba|Hba];
    try congruence; [lia|].
  apply String.le_total.
Qed.

Lemma by_category_price_trans : Transitive by_category_price.
Proof.
  intros a b c. unfold by_category_price.
  destruct (decide (Service.category a = Service.category b)) as [Hab|Hab],
           (decide (Service.category b = Service.category c)) as [Hbc|Hbc],
           (decide (Service.category a = Service.category c)) as [Hac|Hac];
    intros H1 H2; try (exfalso; congruence); try lia.
  - by rewrite Hab.
  - by rewrite <-Hbc.
  - exfalso. apply Hab, category_name_inj.
    apply (anti_symm String.le); [done|]. by rewrite Hac.
  - by etrans.
Qed.

Lemma by_score_price_total index term : Total (by_score_price index term).
Proof.
  intros a b. unfold by_score_price. repeat case_decide; lia.
Qed.

Lemma by_score_price_trans index term : Transitive (by_score_price index term).
Proof.
  intros a b c. unfold by_score_price. repeat case_decide; lia.
Qed.

Lemma StronglySorted_lookup {A} (R : relation A) (l : list A) i j a b :
  StronglySorted R l → (i < j)%nat → l !! i = Some a → l !! j = Some b → R a b.
Proof.
  intros Hsorted. revert i j.
  induction Hsorted as [|x l _ IH Hx]; intros i j Hij Hi Hj; [done|].
  destruct j as [|j]; [lia|]. simpl in Hj. destruct i as [|i]; simpl in Hi.
  - injection Hi as <-. rewrite Forall_forall in Hx.
    by eapply Hx, list_elem_of_lookup_2.
  - apply (IH i j); [lia | done | done].
Qed.

Lemma StronglySorted_page {A} (R : relation A) (l : list A) n k :
  StronglySorted R l → StronglySorted R (take n (drop k l)).
Proof.
  intros Hsorted.
  rewrite <-(take_drop k l) in Hsorted. apply StronglySorted_app_1_r in Hsorted.
  rewrite <-(take_drop n (drop k l)) in Hsorted.
  by apply StronglySorted_app_1_l in Hsorted.
Qed.

Lemma by_category_price_plain a b :
  by_category_price a b →
  String.le (Service.category_name (Service.category a))
            (Service.category_name (Service.category b))
  ∧ (Service.category a = Service.category b → Service.price a ≤ Service.price b).
Proof.
  unfold by_category_price. case_decide as Hc; intros Hab.
  - rewrite Hc. done.
  - done.
Qed.

Lemma by_score_price_plain index term a b :
  by_score_price index term a b →
  textScore index term b ≤ textScore index term a
  ∧ (textScore index term a = textScore index term b →
     Service.price a ≤ Service.price b).
Proof. unfold by_score_price. case_decide; intros; split; lia || done. Qed.

(** What the query shows on a page. *)
Lemma get_services_page index q db :
  listed (get_services index q db) = []
  ∨ ∃ n k, listed (get_services index q db)
           = take n (drop k (found index q (services db)))
           ∧ validationResult q = [].
Proof.
  unfold get_services.
  destruct (validationResult q); [|by left].
  case_bool_decide; [by left|]. right. by eexists _, _.
Qed.

(** X19. The services of a page come in the order of the sort: without a
    search by category, in the order of the category identifiers, and by
    ascending price within a category; with a search by descending text
    score, and by ascending price among equal scores. *)
Theorem services_listing_is_sorted (index : TextIndex) (q : Query) (db : Db)
    (i j : nat) (a b : Service.t) :
  (i < j)%nat →
  listed (get_services index q db) !! i = Some a →
  listed (get_services index q db) !! j = Some b →
  match search q with
  | None =>
      String.le (Service.category_name (Service.category a))
                (Service.category_name (Service.category b))
      ∧ (Service.category a = Service.category b → Service.price a ≤ Service.price b)
  | Some term =>
      textScore index term b ≤ textScore index term a
      ∧ (textScore index term a = textScore index term b →
         Service.price a ≤ Service.price b)
  end.
Proof.
  intros Hij Ha Hb.
  destruct (get_services_page index q db) as [Hnone | (n & k & Hpage & Hvalid)].
  { by rewrite Hnone in Ha. }
  rewrite Hpage in Ha, Hb. unfold found in Ha, Hb.
  destruct (search q) as [term|] eqn:Hsearch.
  - case_bool_decide as Hterm.
    { exfalso. unfold validationResult in Hvalid. rewrite Hsearch, Hterm in Hvalid.
      apply app_nil in Hvalid as [_ [Hbad _]%app_nil]. done. }
    apply by_score_price_plain.
    eapply StronglySorted_lookup; [|exact Hij|exact Ha|exact Hb].
    apply StronglySorted_page, StronglySorted_merge_sort.
    + apply by_score_price_trans.
    + apply by_score_price_total.
  - apply by_category_price_plain.
    eapply StronglySorted_lookup; [|exact Hij|exact Ha|exact Hb].
    apply StronglySorted_page, StronglySorted_merge_sort.
    + apply by_category_price_trans.
    + apply by_category_price_total.
Qed.

Lemma services_listing_is_sorted_witness :
  String.le (Service.category_name Service.casual) (Service.category_name Service.shirts)
  ∧ (Service.casual = Service.shirts → 100 ≤ 49).
Proof.
  apply (services_listing_is_sorted Sample.index Sample.everything Sample.db 0 1
           (Sample.service Sample.steam_press "Steam Press" 100 Service.casual true false)
           (Sample.service Sample.regular_shirt "Regular Shirt" 49 Service.shirts true true)).
  - lia.
  - vm_compute. reflexivity.
  - vm_compute. reflexivity.
Defined.

(** *** The pages *)






(** *** The aggregation by category *)

Lemma foldr_min_max p ps x :
  x ∈ p :: ps → foldr Z.min p ps ≤ x ≤ foldr Z.max p ps.
Proof.
  revert x. induction ps as [|y ps IH]; intros x; simpl.
  - intros ->%list_elem_of_singleton. lia.
  - assert (p ∈ p :: ps) as Hp%IH by left.
    intros [Hx | [Hx | Hx]%elem_of_cons]%elem_of_cons.
    + lia.
    + lia.
    + assert (x ∈ p :: ps) as Hin%IH by (by right). lia.
Qed.

Lemma total_of_between lo hi l :
  Forall (λ x, lo ≤ x ≤ hi) l →
  Z.of_nat (length l) * lo ≤ total_of l ≤ Z.of_nat (length l) * hi.
Proof.
  unfold total_of. induction 1 as [|x l Hx _ IH]; simpl; lia.
Qed.

Lemma Math_round_between lo hi total n :
  0 < n → n * lo ≤ total ≤ n * hi → lo ≤ Math_round total n ≤ hi.
Proof.
  intros Hn Htotal. unfold Math_round. split.
  - apply Z.div_le_lower_bound; lia.
  - apply Z.lt_succ_r, Z.div_lt_upper_bound; lia.
Qed.

Lemma group_summary c prices g :
  g ∈ group c prices →
  Service.sum_id g = Service.category_name c
  ∧ Service.sum_name g = categoryMap c
  ∧ Service.sum_count g = Z.of_nat (length prices)
  ∧ 1 ≤ Service.sum_count g
  ∧ Service.sum_min g ≤ Service.sum_average g ≤ Service.sum_max g
  ∧ ∀ x, x ∈ prices → Service.sum_min g ≤ x ≤ Service.sum_max g.
Proof.
  unfold group. destruct prices as [|p ps]; [by intros ?%elem_of_nil|].
  intros ->%list_elem_of_singleton. cbn [Service.sum_id Service.sum_name Service.sum_count
    Service.sum_min Service.sum_max Service.sum_average].
  refine (conj eq_refl (conj eq_refl (conj eq_refl (conj _ (conj _ _))))).
  - simpl. lia.
  - apply Math_round_between; [simpl; lia|].
    apply total_of_between, Forall_forall, foldr_min_max.
  - apply foldr_min_max.
Qed.

Lemma group_count c prices :
  total_of (Service.sum_count <$> group c prices) = Z.of_nat (length prices).
Proof. destruct prices; unfold total_of; simpl; lia. Qed.

Lemma count_by_category (l : list Service.t) :
  total_of ((λ c, Z.of_nat (length (filter (λ s, Service.category s = c) l)))
              <$> sorted_categories)
  = Z.of_nat (length l).
Proof.
  unfold total_of, sorted_categories. simpl.
  induction l as [|x l IH]; [done|].
  rewrite !filter_cons. destruct (Service.category x) eqn:Hx;
    repeat case_decide; try done; simpl length; lia.
Qed.

Lemma all_categories_sorted c : c ∈ sorted_categories.
Proof. unfold sorted_categories. destruct c; set_solver. Qed.

(** X21. The aggregation of [GET /api/services/categories] counts every
    active service once: the counts of the groups add up to the number of
    active services, a group exists for the category of every active service
    and its price range holds the price of the service; each group carries
    the identifier and the display name of its category, counts at least one
    service, and has its rounded average between its minimum and its
    maximum. *)
Theorem category_summaries_are_consistent (db : Db) :
  ∃ summaries,
    get_categories db
    = respond 200 "Vastram service categories retrieved successfully"
        (CategoriesData summaries)
    ∧ total_of (Service.sum_count <$> summaries)
      = Z.of_nat (length (filter (λ s, Service.isActive s = true) (services db)))
    ∧ (∀ s, s ∈ services db → Service.isActive s = true →
         ∃ g, g ∈ summaries
              ∧ Service.sum_id g = Service.category_name (Service.category s)
              ∧ Service.sum_min g ≤ Service.price s ≤ Service.sum_max g)
    ∧ (∀ g, g ∈ summaries →
         ∃ c, Service.sum_id g = Service.category_name c
              ∧ Service.sum_name g = categoryMap c
              ∧ Service.sum_count g
                = Z.of_nat (length (Catalogue.active_in c (services db)))
              ∧ 1 ≤ Service.sum_count g
              ∧ Service.sum_min g ≤ Service.sum_average g ≤ Service.sum_max g).
Proof.
  eexists. split; [reflexivity|].
  set (active := filter (λ s, Service.isActive s = true) (services db)).
  split_and!.
  - rewrite <-(count_by_category active).
    induction sorted_categories as [|c cs IH]; [done|].
    csimpl. rewrite fmap_app, total_of_app, group_count, length_fmap, IH.
    unfold total_of. simpl. lia.
  - intros s Hs Hactive.
    set (prices := Service.price <$> filter (λ x, Service.category x = Service.category s) active).
    assert (Service.price s ∈ prices) as Hprice.
    { apply list_elem_of_fmap. exists s. split; [done|].
      apply list_elem_of_filter. split; [done|]. by apply list_elem_of_filter. }
    destruct (group (Service.category s) prices) as [|g rest] eqn:Hgroup.
    { unfold group in Hgroup. destruct prices; [by apply elem_of_nil in Hprice | done]. }
    assert (g ∈ group (Service.category s) prices) as Hg by (rewrite Hgroup; left).
    exists g. split.
    + apply list_elem_of_bind. exists (Service.category s).
      split; [exact Hg | apply all_categories_sorted].
    + apply group_summary in Hg as (Hid & _ & _ & _ & _ & Hrange). split; [done|].
      by apply Hrange.
  - intros g (c & Hg & _)%list_elem_of_bind. exists c.
    apply group_summary in Hg as (Hid & Hname & Hcount & Hone & Haverage & _).
    rewrite length_fmap in Hcount. done.
Qed.

Lemma category_summaries_are_consistent_witness :
  ∃ summaries,
    get_categories Sample.db
    = respond 200 "Vastram service categories retrieved successfully"
        (CategoriesData summaries)
    ∧ total_of (Service.sum_count <$> summaries) = 3.
Proof.
  destruct (category_summaries_are_consistent Sample.db) as (summaries & Hrun & Hcount & _).
  exists summaries. split; [exact Hrun|]. rewrite Hcount. vm_compute. reflexivity.
Defined.

(** *** The soft delete *)

(** What an accepted soft delete did. *)
Lemma delete_service_done user id db db' resp :
  delete_service user id db = (db', resp) → code resp = 200 →
  ∃ oid i x, requireAdmin user = None
         ∧ Text.castObjectId id = Some oid
         ∧ services db !! i = Some x
         ∧ Service._id x = oid
         ∧ db' = with_services db (<[i := Service.with_isActive x false]> (services db))
         ∧ resp = respond 200 "Vastram service deactivated successfully" NoData.
Proof.
  unfold delete_service, Service.deactivate.
  destruct (requireAdmin user) as [denied|] eqn:Hadmin.
  { unfold requireAdmin in Hadmin. case_bool_decide; [done|].
    injection Hadmin as <-. by intros [= <- <-]. }
  destruct (Text.castObjectId id) as [oid|] eqn:Hcast; [|by intros [= <- <-]].
  destruct (list_find _ _) as [[i x]|] eqn:Hfind; [|by intros [= <- <-]].
  intros [= <- <-] _. apply list_find_Some in Hfind as (Hi & Hid & _).
  by exists oid, i, x.
Qed.

Lemma deactivated_unavailable catalog i x :
  NoDup (Service._id <$> catalog) →
  catalog !! i = Some x →
  Service.unavailable (<[i := Service.with_isActive x false]> catalog) (Service._id x).
Proof.
  intros Hnd Hi s [j Hj]%list_elem_of_lookup_1 Hid.
  destruct (decide (j = i)) as [->|Hji].
  - rewrite list_lookup_insert_eq in Hj by (by eapply lookup_lt_Some).
    by injection Hj as <-.
  - rewrite list_lookup_insert_ne in Hj by done. exfalso. apply Hji.
    apply (NoDup_lookup (Service._id <$> catalog) j i (Service._id x) Hnd).
    + by rewrite list_lookup_fmap, Hj, <-Hid.
    + by rewrite list_lookup_fmap, Hi.
Qed.

(** X22. Once the soft delete of a service answered 200, the identifier of
    the request cast to the identifier of a service, and that service is
    out of reach: [GET /api/services/:id] answers 404 for every spelling of
    its identifier, no page of the listing shows it, and every checkout
    with an item that names it is refused and stores nothing, with 400 or
    with 500, and with 400 whenever the identifier of each of its items
    casts. The delete touches nothing else: the accounts, the orders, the
    carts and the other services are as before, the service keeps its place
    in the catalogue, and deleting it again answers 200 again and changes
    nothing. *)
Theorem soft_delete_retires_the_service (user : User.t) (id : string) (db db' : Db)
    (resp : Response) :
  NoDup (Service._id <$> services db) →
  delete_service user id db = (db', resp) →
  code resp = 200 →
  ∃ oid,
    Text.castObjectId id = Some oid
    ∧ (∀ id', Text.castObjectId id' = Some oid → code (get_service id' db') = 404)
    ∧ (∀ index q s, s ∈ listed (get_services index q db') → Service._id s ≠ oid)
    ∧ (∀ now oid' rnd customer req,
         (∃ item, item ∈ Orders.items req
                  ∧ Text.castObjectId (Orders.service item) = Some oid) →
         ∃ refused, Orders.post_orders now oid' rnd customer req db' = (db', refused)
                    ∧ (code refused = 400 ∨ code refused = 500)
                    ∧ ((∀ item, item ∈ Orders.items req →
                          is_Some (Text.castObjectId (Orders.service item))) →
                       code refused = 400))
    ∧ users db' = users db ∧ orders db' = orders db ∧ carts db' = carts db
    ∧ Service._id <$> services db' = Service._id <$> services db
    ∧ (∀ s, s ∈ services db → Service._id s ≠ oid → s ∈ services db')
    ∧ delete_service user id db' = (db', resp).
Proof.
  intros Hnd Hrun Hcode.
  destruct (delete_service_done _ _ _ _ _ Hrun Hcode)
    as (oid & i & x & Hadmin & Hcast & Hi & Hid & -> & ->).
  pose proof (deactivated_unavailable _ _ _ Hnd Hi) as Hgone. rewrite Hid in Hgone.
  pose proof Hgone as Hnone%findOne_active_None.
  simpl in *. exists oid.
  refine (conj Hcast (conj _ (conj _ (conj _ (conj eq_refl (conj eq_refl (conj eq_refl
            (conj _ (conj _ _))))))))).
  - intros id' Hid'. unfold get_service, Service.findOne. simpl.
    by rewrite Hid', Hnone.
  - intros index q s [Hs [Hactive _]]%get_services_listed Hsame. simpl in Hs.
    specialize (Hgone s Hs Hsame). congruence.
  - intros now oid' rnd customer req (item & Hitem & Hservice).
    unfold Orders.post_orders.
    destruct (Orders.validationResult req); [|eexists; by eauto].
    case_bool_decide; [eexists; by eauto|].
    simpl.
    destruct (order_lines_refused
                (<[i := Service.with_isActive x false]> (services db))
                (Orders.items req) [] 0) as [[missing Hmissing] | [e He]].
    { exists item. split; [done|]. right. by exists oid. }
    + rewrite Hmissing. eexists; by eauto.
    + rewrite He. eexists. split; [reflexivity|]. split; [by right|].
      intros Hall. apply order_lines_Err in He as (bad & Hbad & Hnot).
      destruct (Hall bad Hbad) as [c Hc]. unfold Orders.uncastable in Hnot. congruence.
  - rewrite list_fmap_insert. apply list_insert_id.
    by rewrite list_lookup_fmap, Hi.
  - intros s [j Hj]%list_elem_of_lookup_1 Hother.
    apply (list_elem_of_lookup_2 _ j). rewrite list_lookup_insert_ne; [done|].
    intros ->. congruence.
  - unfold delete_service, Service.deactivate. rewrite Hadmin, Hcast. simpl.
    rewrite (proj2 (list_find_Some _ _ i (Service.with_isActive x false))).
    + by rewrite list_insert_insert_eq.
    + split_and!.
      * apply list_lookup_insert_eq. by eapply lookup_lt_Some.
      * done.
      * intros j y Hj Hlt Hy. rewrite list_lookup_insert_ne in Hj by lia.
        assert (j = i); [|lia].
        apply (NoDup_lookup (Service._id <$> services db) j i oid Hnd).
        -- by rewrite list_lookup_fmap, Hj, <-Hy.
        -- by rewrite list_lookup_fmap, Hi, <-Hid.
Qed.

Lemma soft_delete_retires_the_service_witness :
  code (get_service Sample.steam_press Sample.after_retirement) = 404
  ∧ code (Orders.post_orders 1000 Sample.first_order 7 Sample.test_user
            Sample.checkout Sample.after_retirement).2 = 400.
Proof.
  destruct (soft_delete_retires_the_service Sample.admin_user Sample.steam_press
              Sample.after_delivery Sample.after_retirement
              (delete_service Sample.admin_user Sample.steam_press Sample.after_delivery).2)
    as (oid & Hcast & Hgone & _ & Hrefused & _).
  - compute_done.
  - vm_compute. reflexivity.
  - vm_compute. reflexivity.
  - assert (Text.castObjectId Sample.steam_press = Some Sample.steam_press) as Hsame
      by (vm_compute; reflexivity).
    rewrite Hsame in Hcast. injection Hcast as <-.
    split; [apply Hgone; vm_compute; reflexivity|].
    destruct (Hrefused 1000 Sample.first_order 7 Sample.test_user Sample.checkout)
      as (refused & Hrun & _ & Hall).
    + eexists. split; [left|]. vm_compute. reflexivity.
    + apply (f_equal (λ p, code p.2)) in Hrun.
      transitivity (code refused); [exact Hrun|].
      apply Hall. intros item Hitem.
      apply list_elem_of_singleton in Hitem as ->. vm_compute. eauto.
Defined.

End catalogue_listing.

(** ** The accounts and the checkout *)

Section account_statistics.
Import Orders Users.

Lemma updateMembershipTier_settled u :
  User.updateMembershipTier (User.updateMembershipTier u) = User.updateMembershipTier u.
Proof.
  unfold User.updateMembershipTier.
  repeat (case_bool_decide; simpl; try lia); done.
Qed.

(** What an accepted override of the membership tier did. *)
Lemma put_membership_done admin id tier_name db db' resp :
  put_membership admin id tier_name db = (db', resp) → code resp = 200 →
  ∃ tier account,
    parse_tier tier_name = Some tier
    ∧ users db !! id = Some account
    ∧ db' = with_users db (<[id := User.with_membershipTier account tier]> (users db)).
Proof.
  unfold put_membership, requireAdmin.
  case_bool_decide; [|by intros [= <- <-]].
  destruct (parse_tier tier_name) as [tier|]; [|by intros [= <- <-]].
  destruct (users db !! id) as [account|]; [|by intros [= <- <-]].
  intros [= <- <-] _. by exists tier, account.
Qed.

(** X23. An override of the membership tier by an administrator lasts until
    the next checkout of the customer: the override stores the tier that was
    asked for and leaves the amount spent alone, and the checkout that
    follows adds the total of its order to the amount spent and stores the
    tier that [updateMembershipTier] assigns to the new amount, whatever the
    override had set. *)
Theorem membership_override_lasts_until_checkout (admin user : User.t) (tier_name : string)
    (now : Z) (oid : string) (rnd : Z) (req : Request) (db db1 db2 : Db)
    (r1 r2 : Response) :
  put_membership admin (User._id user) tier_name db = (db1, r1) →
  code r1 = 200 →
  post_orders now oid rnd user req db1 = (db2, r2) →
  code r2 = 201 →
  ∃ tier before overridden after order,
    parse_tier tier_name = Some tier
    ∧ users db !! User._id user = Some before
    ∧ users db1 !! User._id user = Some overridden
    ∧ users db2 !! User._id user = Some after
    ∧ orders db2 !! oid = Some order
    ∧ User.membershipTier overridden = tier
    ∧ User.totalSpent overridden = User.totalSpent before
    ∧ User.totalSpent after = User.totalSpent before + Order.total order
    ∧ User.updateMembershipTier after = after.
Proof.
  intros Hput Hcode1 Hrun Hcode2.
  destruct (put_membership_done _ _ _ _ _ _ Hput Hcode1) as (tier & before & Htier & Hbefore & ->).
  destruct (post_orders_created _ _ _ _ _ _ _ _ Hrun Hcode2)
    as (lines & subtotal & order & account & _ & _ & _ & Haccount & _ & Horders & _
        & Husers & _ & _ & _ & Htotal & _).
  simpl in Haccount, Husers, Horders. rewrite lookup_insert_eq in Haccount.
  injection Haccount as <-.
  exists tier, before, (User.with_membershipTier before tier),
    (User.record_order (subtotal + gst subtotal) (User.with_membershipTier before tier)), order.
  simpl. rewrite Husers, Horders, !lookup_insert_eq, Htotal.
  refine (conj Htier (conj Hbefore (conj eq_refl (conj eq_refl (conj eq_refl
            (conj eq_refl (conj eq_refl (conj _ _)))))))).
  - destruct (record_order_tier (subtotal + gst subtotal)
                (User.with_membershipTier before tier)) as (_ & Hspent & _).
    exact Hspent.
  - unfold User.record_order. apply updateMembershipTier_settled.
Qed.

Lemma membership_override_lasts_until_checkout_witness :
  ∃ overridden after,
    users (put_membership Sample.admin_user Sample.customer "platinum" Sample.db).1
      !! Sample.customer = Some overridden
    ∧ User.membershipTier overridden = User.platinum
    ∧ users (post_orders 1000 Sample.first_order 7 Sample.test_user Sample.checkout
               (put_membership Sample.admin_user Sample.customer "platinum" Sample.db).1).1
        !! Sample.customer = Some after
    ∧ User.updateMembershipTier after = after.
Proof.
  destruct (membership_override_lasts_until_checkout Sample.admin_user Sample.test_user
              "platinum" 1000 Sample.first_order 7 Sample.checkout Sample.db
              (put_membership Sample.admin_user Sample.customer "platinum" Sample.db).1
              (post_orders 1000 Sample.first_order 7 Sample.test_user Sample.checkout
                 (put_membership Sample.admin_user Sample.customer "platinum" Sample.db).1).1
              (put_membership Sample.admin_user Sample.customer "platinum" Sample.db).2
              (post_orders 1000 Sample.first_order 7 Sample.test_user Sample.checkout
                 (put_membership Sample.admin_user Sample.customer "platinum" Sample.db).1).2)
    as (tier & before & overridden & after & order & Htier & _ & Hoverridden & Hafter & _
        & Hset & _ & _ & Hsettled).
  - vm_compute. reflexivity.
  - vm_compute. reflexivity.
  - vm_compute. reflexivity.
  - vm_compute. reflexivity.
  - exists overridden, after. split; [exact Hoverridden|].
    split; [|split; [exact Hafter | exact Hsettled]].
    rewrite Hset. vm_compute in Htier. injection Htier as <-. reflexivity.
Defined.

(** *** The statistics against the stored orders *)

Lemma total_of_Permutation l k : l ≡ₚ k → total_of l = total_of k.
Proof. unfold total_of. induction 1; cbn [foldr]; lia. Qed.

Lemma ledger_insert_fresh uid id o (m : gmap string Order.t) :
  m !! id = None →
  Z.of_nat (length (Ledger.orders_of uid (<[id := o]> m)))
  = (if decide (Order.customer o = uid) then 1 else 0)
    + Z.of_nat (length (Ledger.orders_of uid m))
  ∧ total_of (Order.total <$> Ledger.orders_of uid (<[id := o]> m))
    = (if decide (Order.customer o = uid) then Order.total o else 0)
      + total_of (Order.total <$> Ledger.orders_of uid m).
Proof.
  intros Hfresh.
  assert (Ledger.orders_of uid (<[id := o]> m)
          ≡ₚ filter (λ o, Order.customer o = uid) (o :: (snd <$> map_to_list m))) as Hperm.
  { unfold Ledger.orders_of. by rewrite map_to_list_insert. }
  rewrite (Permutation_length Hperm), (total_of_Permutation _ _ (fmap_Permutation _ _ _ Hperm)).
  rewrite filter_cons. fold (Ledger.orders_of uid m).
  case_decide; [|split; lia]. rewrite fmap_cons. unfold total_of. cbn [foldr length].
  split; lia.
Qed.

Lemma ledger_replace uid id o o' (m : gmap string Order.t) :
  m !! id = Some o →
  Order.customer o' = Order.customer o →
  Order.total o' = Order.total o →
  Z.of_nat (length (Ledger.orders_of uid (<[id := o']> m)))
  = Z.of_nat (length (Ledger.orders_of uid m))
  ∧ total_of (Order.total <$> Ledger.orders_of uid (<[id := o']> m))
    = total_of (Order.total <$> Ledger.orders_of uid m).
Proof.
  intros Ho Hcustomer Htotal.
  destruct (ledger_insert_fresh uid id o' (delete id m)) as [Hcount' Hspent'];
    [apply lookup_delete_eq|].
  destruct (ledger_insert_fresh uid id o (delete id m)) as [Hcount Hspent];
    [apply lookup_delete_eq|].
  rewrite insert_delete_eq in Hcount', Hspent'.
  rewrite insert_delete_eq, (insert_id m id o Ho) in Hcount, Hspent.
  rewrite Hcount', Hspent', Hcount, Hspent, Hcustomer, Htotal. done.
Qed.

(** What a checkout does to the orders and the accounts. *)
Lemma post_orders_effect now oid rnd user req db db' resp :
  post_orders now oid rnd user req db = (db', resp) →
  db' = db
  ∨ ∃ order,
      orders db !! oid = None
      ∧ orders db' = <[oid := order]> (orders db)
      ∧ Order.customer order = User._id user
      ∧ users db'
        = match users db !! User._id user with
          | Some account =>
              <[User._id user := User.record_order (Order.total order) account]> (users db)
          | None => users db
          end.
Proof.
  unfold post_orders. intros Hrun.
  destruct (validationResult req); [|simplify_eq; by left].
  case_bool_decide; [simplify_eq; by left|].
  destruct (order_lines _ _ _ _) as [[missing | [lines subtotal]]|]; [simplify_eq; by left| |simplify_eq; by left].
  destruct (Order.save true _ _ _ _ _) as [[o1 m1]|] eqn:Hsave; [|simplify_eq; by left].
  rewrite (addTrackingUpdate_after_save _ _ _ _ _ _ _ _ Order.pending
    "Order placed successfully. Waiting for confirmation." now rnd Hsave) in Hrun.
  apply order_save_Ok in Hsave as (_ & -> & _ & Hfresh). specialize (Hfresh eq_refl).
  pose proof (pre_save_fields now rnd
    (new_order now rnd user req lines subtotal (gst subtotal) (subtotal + gst subtotal)))
    as (Hcustomer & _ & _ & _ & Htotal & _).
  simpl in Hrun, Hcustomer, Htotal. right.
  exists (Order.with_tracking
            (Order.pre_save now rnd
               (new_order now rnd user req lines subtotal (gst subtotal)
                  (subtotal + gst subtotal)))
            (Order.trackingUpdates
               (Order.pre_save now rnd
                  (new_order now rnd user req lines subtotal (gst subtotal)
                     (subtotal + gst subtotal)))
             ++ [{| Order.tu_status := Order.pending;
                    Order.tu_message := "Order placed successfully. Waiting for confirmation.";
                    Order.tu_timestamp := now |}])
            Order.pending).
  split; [exact Hfresh|].
  unfold Cart.clearCart, Cart.save in Hrun. simpl in Hrun. simpl. rewrite Htotal.
  destruct (users db !! User._id user) as [account|];
    [destruct (carts db !! User._id user)|];
    injection Hrun as <- <-; simpl; split_and!; done.
Qed.

Lemma edit_save_effect now rnd id old e o' (m m' : gmap string Order.t) :
  m !! id = Some old → Lifecycle.edit old e →
  Order.save false now rnd id e m = Ok (o', m') →
  m' = <[id := o']> m
  ∧ Order.customer o' = Order.customer old
  ∧ Order.total o' = Order.total old.
Proof.
  intros Hold Hedit Hsave.
  apply order_save_Ok in Hsave as (_ & -> & -> & _).
  destruct (saved_edit_keeps old (Order.pre_save now rnd e))
    as (Hcustomer & _ & _ & _ & Htotal & _); [by exists e, now, rnd|].
  done.
Qed.

(** What the other requests do to them: at most one stored order changes,
    and neither its customer nor its total. *)
Lemma step_edit_effect db db' :
  step db db' →
  (∃ now oid rnd user req, db' = (post_orders now oid rnd user req db).1)
  ∨ (users db' = users db
     ∧ (orders db' = orders db
        ∨ ∃ id o o', orders db !! id = Some o
                     ∧ orders db' = <[id := o']> (orders db)
                     ∧ Order.customer o' = Order.customer o
                     ∧ Order.total o' = Order.total o)).
Proof.
  intros Hstep.
  destruct Hstep as [now oid rnd user req db | now rnd user id name msg db
                    | now rnd user id rating' review' db | now rnd user id db].
  - left. by exists now, oid, rnd, user, req.
  - right. unfold put_status.
    destruct (requireAdmin user); [by auto|].
    destruct (fails _ _ ++ _), (parse_status name) as [st|]; try by auto.
    destruct (orders db !! id) as [order|] eqn:Horder; [|by auto].
    destruct (Order.addTrackingUpdate _ _ _ _ _ _ _) as [[o1 m1]|] eqn:Hsave1; [|by auto].
    destruct (edit_save_effect _ _ _ _ _ _ _ _ Horder
                (Lifecycle.edit_tracking _ _ _ _) Hsave1) as (-> & Hc1 & Ht1).
    case_bool_decide; [|simpl; split; [done|]; right; by exists id, order, o1].
    destruct (Order.save false _ _ _ _ _) as [[o2 m2]|] eqn:Hsave2;
      [|simpl; split; [done|]; right; by exists id, order, o1].
    destruct (edit_save_effect _ _ _ _ _ _ _ _ (lookup_insert_eq _ _ _)
                (Lifecycle.edit_delivery _ _) Hsave2) as (-> & Hc2 & Ht2).
    simpl. split; [done|]. right. exists id, order, o2.
    rewrite insert_insert_eq. split_and!; [done | done | congruence | congruence].
  - right. unfold post_review.
    destruct (fails _ _ ++ _); [|by auto].
    destruct (findOne _ _ _) as [order|] eqn:Horder; [|by auto].
    apply findOne_Some in Horder as [Horder _].
    case_bool_decide as Hrated; [by auto|].
    destruct (Order.save false _ _ _ _ _) as [[o1 m1]|] eqn:Hsave1; [|by auto].
    destruct (edit_save_effect _ _ _ _ _ _ _ _ Horder
                (Lifecycle.edit_review _ _ _ Hrated) Hsave1) as (-> & Hc1 & Ht1).
    simpl. split; [done|]. right. by exists id, order, o1.
  - right. unfold delete_order.
    destruct (findOne _ _ _) as [order|] eqn:Horder; [|by auto].
    apply findOne_Some in Horder as [Horder _].
    destruct (negb _); [by auto|].
    destruct (Order.addTrackingUpdate _ _ _ _ _ _ _) as [[o1 m1]|] eqn:Hsave1; [|by auto].
    destruct (edit_save_effect _ _ _ _ _ _ _ _ Horder
                (Lifecycle.edit_tracking _ _ _ _) Hsave1) as (-> & Hc1 & Ht1).
    simpl. split; [done|]. right. by exists id, order, o1.
Qed.

Lemma step_accounted db db' : step db db' → Ledger.accounted db → Ledger.accounted db'.
Proof.
  intros [(now & oid & rnd & user & req & ->) | [Husers Horders]]%step_edit_effect Hdb.
  - destruct (post_orders now oid rnd user req db) as [db' resp] eqn:Hrun. simpl.
    apply post_orders_effect in Hrun as [-> | (order & Hfresh & Horders & Hcustomer & Husers)];
      [done|].
    intros uid account' Haccount'. rewrite Horders.
    destruct (ledger_insert_fresh uid oid order (orders db) Hfresh) as [-> ->].
    rewrite Husers in Haccount'. rewrite Hcustomer.
    destruct (decide (User._id user = uid)) as [<-|Hother].
    + destruct (users db !! User._id user) as [account|] eqn:Haccount.
      * rewrite lookup_insert_eq in Haccount'. injection Haccount' as <-.
        destruct (record_order_tier (Order.total order) account) as (_ & -> & ->).
        destruct (Hdb _ _ Haccount) as [-> ->]. lia.
      * congruence.
    + assert (users db !! uid = Some account') as Haccount.
      { destruct (users db !! User._id user); [|done].
        by rewrite lookup_insert_ne in Haccount'. }
      destruct (Hdb _ _ Haccount) as [-> ->]. lia.
  - intros uid account Haccount. rewrite Husers in Haccount.
    destruct (Hdb _ _ Haccount) as [Hcount Hspent].
    destruct Horders as [-> | (id & o & o' & Ho & -> & Hcustomer & Htotal)]; [done|].
    destruct (ledger_replace uid id o o' (orders db) Ho Hcustomer Htotal) as [-> ->].
    done.
Qed.

(** X24. The statistics of the accounts follow the stored orders through
    every request to the orders routes: when each account counts the stored
    orders of its customer and has spent the sum of their totals, it still
    does after any sequence of checkouts, status updates, reviews and
    cancellations. A cancellation in particular takes nothing back: the
    cancelled order stays counted and its total stays spent. *)
Theorem statistics_count_every_stored_order (db db' : Db) :
  rtc step db db' →
  Ledger.accounted db →
  ∀ uid account, users db' !! uid = Some account →
    User.totalOrders account
    = Z.of_nat (length (filter (λ o, Order.customer o = uid)
                          (snd <$> map_to_list (orders db'))))
    ∧ User.totalSpent account
      = total_of (Order.total <$> filter (λ o, Order.customer o = uid)
                                     (snd <$> map_to_list (orders db'))).
Proof.
  intros Hsteps Hdb.
  assert (Ledger.accounted db') as Hdb'; [|exact Hdb'].
  induction Hsteps as [|db1 db2 db3 Hstep _ IH]; [done|].
  apply IH. by eapply step_accounted.
Qed.

Lemma sample_accounted : Ledger.accounted Sample.db.
Proof.
  intros uid account Haccount. unfold Ledger.orders_of.
  change (orders Sample.db) with (∅ : gmap string Order.t).
  rewrite map_to_list_empty. simpl.
  change (users Sample.db)
    with ({[ Sample.customer := Sample.test_user;
             Sample.administrator := Sample.admin_user ]} : gmap string User.t)
    in Haccount.
  apply lookup_insert_Some in Haccount as [[_ <-] | [_ [_ <-]%lookup_singleton_Some]]; done.
Qed.

Lemma statistics_count_every_stored_order_witness :
  User.totalOrders (User.record_order 236 Sample.test_user)
  = Z.of_nat (length (filter (λ o, Order.customer o = Sample.customer)
                        (snd <$> map_to_list (orders Sample.after_delivery)))).
Proof.
  destruct (statistics_count_every_stored_order Sample.db Sample.after_delivery
              sample_history sample_accounted Sample.customer
              (User.record_order 236 Sample.test_user)) as [Hcount _].
  - vm_compute. reflexivity.
  - exact Hcount.
Defined.

End account_statistics.

(** ** The cart routes *)

Section cart_routes.
Import CartRoutes.

Lemma call_stored o now c c' : Cart.stored c → Cart.call o now c = Ok c' → Cart.stored c'.
Proof.
  intros Hc Hcall. pose proof (Cart.stored_call o now c Hc) as Hstored.
  unfold Cart.stored_after in Hstored. by rewrite Hcall in Hstored.
Qed.

Lemma updateItemQuantity_saved serviceId q now c :
  Cart.stored c → 0 ≤ q ≤ 50 → ∃ c', Cart.updateItemQuantity serviceId q now c = Ok c'.
Proof.
  intros Hc Hq. pose proof (stored_items_valid c Hc) as Hvalid.
  unfold Cart.updateItemQuantity.
  destruct (Cart.find_item serviceId (Cart.items c)) as [[i line]|] eqn:Hfind.
  - apply find_item_Some in Hfind as [Hi Hs]. case_bool_decide.
    + eexists. apply save_valid. simpl. by apply Forall_valid_filter.
    + eexists. apply save_valid. simpl.
      apply Forall_insert; [done|]. simpl.
      rewrite Forall_forall in Hvalid.
      destruct (Hvalid line) as [_ Hprice]; [by eapply list_elem_of_lookup_2|].
      unfold Cart.item_valid, Cart.quantity_in_range. simpl. split; [lia | exact Hprice].
  - eexists. by apply save_valid.
Qed.

Lemma removeItem_saved serviceId now c :
  Cart.stored c → ∃ c', Cart.removeItem serviceId now c = Ok c'.
Proof.
  intros Hc. pose proof (stored_items_valid c Hc) as Hvalid.
  unfold Cart.removeItem. eexists. apply save_valid. simpl. by apply Forall_valid_filter.
Qed.

Lemma clearCart_saved now c : ∃ c', Cart.clearCart now c = Ok c'.
Proof. unfold Cart.clearCart. eexists. apply save_valid. simpl. constructor. Qed.

(** [getOrCreateCart] gives a cart of the store, which it has created
    when there was none. *)
Lemma getOrCreateCart_stored userId now m cart m' :
  map_Forall (λ _ c, Cart.stored c) m →
  Cart.getOrCreateCart userId now m = Ok (cart, m') →
  Cart.stored cart ∧ map_Forall (λ _ c, Cart.stored c) m'.
Proof.
  intros Hm. unfold Cart.getOrCreateCart.
  destruct (m !! userId) as [found|] eqn:Hfound.
  - intros [= <- <-]. split; [by eapply Hm | done].
  - destruct (Cart.save now (Cart.new_cart userId now)) as [created|] eqn:Hsave; [|done].
    intros [= <- <-].
    assert (Cart.stored created) as Hcreated by (by eapply Cart.stored_new).
    split; [done|]. by apply map_Forall_insert_2.
Qed.

(** Every request leaves carts of the store in the store. *)
Lemma step_stored db db' :
  step db db' →
  map_Forall (λ _ c, Cart.stored c) (carts db) →
  map_Forall (λ _ c, Cart.stored c) (carts db').
Proof.
  intros Hstep Hdb.
  destruct Hstep as [now user db | now user serviceId q db | now user serviceId q db
                    | now user serviceId db | now user db | now oid rnd user req db].
  - unfold get_cart.
    destruct (Cart.getOrCreateCart _ _ _) as [[cart carts1]|] eqn:Hget; [|done].
    by destruct (getOrCreateCart_stored _ _ _ _ _ Hdb Hget).
  - unfold post_item.
    destruct (_ ++ _); [|done].
    destruct (Service.findOne _ _) as [[service|]|]; [|done..].
    destruct (Cart.getOrCreateCart _ _ _) as [[cart carts1]|] eqn:Hget; [|done].
    destruct (getOrCreateCart_stored _ _ _ _ _ Hdb Hget) as [Hcart Hcarts1].
    destruct (Cart.addItem _ _ _ _ _ _) as [cart'|] eqn:Hcall; [|done].
    simpl. apply map_Forall_insert_2; [|done].
    exact (call_stored (Cart.AddItem _ _ _ _) now cart cart' Hcart Hcall).
  - unfold put_item. case_bool_decide; [|done].
    destruct (carts db !! User._id user) as [cart|] eqn:Hcart; [|done].
    destruct (Cart.updateItemQuantity _ _ _ _) as [cart'|] eqn:Hcall; [|done].
    simpl. apply map_Forall_insert_2; [|done].
    apply (call_stored (Cart.UpdateItemQuantity serviceId q) now cart); [|done].
    by eapply Hdb.
  - unfold delete_item.
    destruct (carts db !! User._id user) as [cart|] eqn:Hcart; [|done].
    destruct (Cart.removeItem _ _ _) as [cart'|] eqn:Hcall; [|done].
    simpl. apply map_Forall_insert_2; [|done].
    apply (call_stored (Cart.RemoveItem serviceId) now cart); [|done].
    by eapply Hdb.
  - unfold delete_cart.
    destruct (carts db !! User._id user) as [cart|] eqn:Hcart; [|done].
    destruct (Cart.clearCart _ _) as [cart'|] eqn:Hcall; [|done].
    simpl. apply map_Forall_insert_2; [|done].
    apply (call_stored Cart.ClearCart now cart); [|done].
    by eapply Hdb.
  - unfold Orders.post_orders.
    destruct (Orders.validationResult req); [|done].
    case_bool_decide; [done|].
    destruct (Orders.order_lines _ _ _ _) as [[missing | [lines subtotal]]|]; [done| |done].
    destruct (Order.save true _ _ _ _ _) as [[o1 m1]|]; [|done].
    destruct (Order.addTrackingUpdate _ _ _ _ _ _ _) as [[o2 m2]|]; [|done].
    simpl. destruct (users db !! User._id user) as [account|]; [|done].
    simpl. destruct (carts db !! User._id user) as [cart|] eqn:Hcart; [|done].
    simpl. apply map_Forall_insert_2; [|done].
    apply (call_stored Cart.ClearCart now cart); [by eapply Hdb | done].
Qed.

(** X25. The carts of the store stay consistent through the five cart
    routes and the checkout: when every cart of the store is one that
    [getOrCreateCart] created and the methods changed, then after any
    sequence of reads, additions, quantity updates, removals, clearings and
    checkouts every cart has [totalItems] and [totalPrice] equal to the
    sums over its lines, every quantity between 1 and 50 and no negative
    price. *)
Theorem cart_routes_keep_carts_consistent (db db' : Db) :
  rtc step db db' →
  map_Forall (λ _ c, Cart.stored c) (carts db) →
  map_Forall (λ _ c,
    Cart.totalItems c = total_of (Cart.quantity <$> Cart.items c)
    ∧ Cart.totalPrice c
      = total_of ((λ item, Cart.price item * Cart.quantity item) <$> Cart.items c)
    ∧ Forall (λ item, 1 ≤ Cart.quantity item ≤ 50 ∧ 0 ≤ Cart.price item) (Cart.items c))
    (carts db').
Proof.
  intros Hsteps Hdb.
  assert (map_Forall (λ _ c, Cart.stored c) (carts db')) as Hdb'.
  { induction Hsteps as [|db1 db2 db3 Hstep _ IH]; [done|].
    apply IH. by eapply step_stored. }
  intros uid c Hc. specialize (Hdb' uid c Hc). simpl in Hdb'.
  destruct (stored_totals c Hdb') as [Hitems Hprice].
  exact (conj Hitems (conj Hprice (stored_items_valid c Hdb'))).
Qed.

(** X26. On a cart that [getOrCreateCart] created and the methods changed,
    the three routes never fail: the update answers 200 for a quantity from
    0 to 50 and 400 for any other, the removal and the clearing answer 200.
    Each of them writes the cart of the caller only: the accounts, the
    catalogue, the orders and the carts of the other customers are as
    before. *)
Theorem cart_routes_succeed_and_write_one_cart (now : Z) (user : User.t)
    (serviceId : string) (q : Z) (db : Db) (cart : Cart.t) :
  Cart.stored cart →
  carts db !! User._id user = Some cart →
  status (put_item now user serviceId q db).2
  = (if bool_decide (0 ≤ q ≤ 50) then 200 else 400)
  ∧ status (delete_item now user serviceId db).2 = 200
  ∧ status (delete_cart now user db).2 = 200
  ∧ ∀ db', db' = (put_item now user serviceId q db).1
           ∨ db' = (delete_item now user serviceId db).1
           ∨ db' = (delete_cart now user db).1 →
      users db' = users db ∧ services db' = services db ∧ orders db' = orders db
      ∧ ∀ other, other ≠ User._id user → carts db' !! other = carts db !! other.
Proof.
  intros Hc Hcart.
  destruct (removeItem_saved serviceId now cart Hc) as [c2 Hremove].
  destruct (clearCart_saved now cart) as [c3 Hclear].
  unfold put_item, delete_item, delete_cart. rewrite Hcart, Hremove, Hclear.
  case_bool_decide as Hq.
  - destruct (updateItemQuantity_saved serviceId q now cart Hc Hq) as [c1 ->]. simpl.
    split_and!; try done.
    intros db' [-> | [-> | ->]]; simpl; split_and!; try done;
      intros other Hother; by rewrite lookup_insert_ne.
  - simpl. split_and!; try done.
    intros db' [-> | [-> | ->]]; simpl; split_and!; try done;
      intros other Hother; by rewrite lookup_insert_ne.
Qed.

Lemma sample_carts_stored : map_Forall (λ _ c, Cart.stored c) (carts Sample.db).
Proof.
  change (carts Sample.db) with ({[ Sample.customer := Sample.cart_of_two ]} : gmap string Cart.t).
  apply map_Forall_singleton. apply Cart.stored_call, stored_empty_cart.
Qed.

Lemma cart_routes_keep_carts_consistent_witness :
  map_Forall (λ _ c,
    Cart.totalItems c = total_of (Cart.quantity <$> Cart.items c)
    ∧ Cart.totalPrice c
      = total_of ((λ item, Cart.price item * Cart.quantity item) <$> Cart.items c)
    ∧ Forall (λ item, 1 ≤ Cart.quantity item ≤ 50 ∧ 0 ≤ Cart.price item) (Cart.items c))
    (carts (put_item 3 Sample.test_user Sample.regular_shirt 5
              (post_item 2 Sample.test_user Sample.regular_shirt 3 Sample.db).1).1).
Proof.
  apply (cart_routes_keep_carts_consistent Sample.db).
  - eapply rtc_l; [|apply rtc_once].
    + exact (step_add 2 Sample.test_user Sample.regular_shirt 3 Sample.db).
    + exact (step_put 3 Sample.test_user Sample.regular_shirt 5 _).
  - exact sample_carts_stored.
Defined.

Lemma cart_routes_succeed_and_write_one_cart_witness :
  status (put_item 3 Sample.test_user Sample.steam_press 5 Sample.db).2 = 200
  ∧ status (delete_item 3 Sample.test_user Sample.steam_press Sample.db).2 = 200.
Proof.
  destruct (cart_routes_succeed_and_write_one_cart 3 Sample.test_user Sample.steam_press 5
              Sample.db Sample.cart_of_two) as (Hput & Hremove & _).
  - apply Cart.stored_call, stored_empty_cart.
  - vm_compute. reflexivity.
  - split; [exact Hput | exact Hremove].
Defined.

End cart_routes.
